(** * goph-keeper: envelope encryption, record pipeline, handlers and tokens

    A shallow embedding of the server side of goph-keeper
    (package [handler], [repository], [middleware], the gRPC
    interceptors with their logger, and the checks of the server's
    [main]) and of the agent's upload (package [client]), together with
    the properties of its specification and further properties of the
    code.

    Go values are embedded as follows: [[]byte] is [list byte], [string]
    is [string], [int] is [Z], an [error] is a chain of wrapped messages,
    and a call that may return an error or panic returns an [outcome]. *)

From Stdlib Require Import String Ascii ZArith NArith Lia Bool DecimalString.
From Stdlib.Strings Require Import Byte.
From Stdlib Require Import List.
Import ListNotations.

Local Open Scope string_scope.
Local Open Scope list_scope.

(** ** Errors, panics and the sequencing of fallible calls *)

Definition bytes := list byte.

(** Go errors: a sentinel or library error with its text, an error
    wrapped by [fmt.Errorf("...: %w", err)], and the PostgreSQL driver's
    error with its SQLSTATE code. *)
Inductive error : Type :=
| errorString (text : string)
| wrapError (msg : string) (err : error)
| PgError (Code : string).

Fixpoint error_eqb (a b : error) : bool :=
  match a, b with
  | errorString s, errorString t => String.eqb s t
  | wrapError m e, wrapError n f => String.eqb m n && error_eqb e f
  | PgError c, PgError d => String.eqb c d
  | _, _ => false
  end.

Module errors.

(** [errors.Is(err, target)]; sentinels are told apart by their text. *)
Fixpoint Is (err target : error) : bool :=
  error_eqb err target
  || match err with
     | wrapError _ inner => Is inner target
     | _ => false
     end.

(** [errors.As(err, &pgErr)]: the code of the first [*pgconn.PgError] in
    the chain. *)
Fixpoint AsPgError (err : error) : option string :=
  match err with
  | PgError code => Some code
  | wrapError _ inner => AsPgError inner
  | errorString _ => None
  end.

End errors.

Module io.
Definition EOF : error := errorString "EOF".
End io.

Inductive outcome (A : Type) : Type :=
| Ok (a : A)
| Err (e : error)
| Panic (msg : string).

Arguments Ok {A} a.
Arguments Err {A} e.
Arguments Panic {A} msg.

(** [fmt.Errorf("<format>: %w", err)] *)
Definition Errorf (format : string) (err : error) : error :=
  wrapError format err.

(** [x, err := c; if err != nil { return ..., fmt.Errorf(format, err) }; k] *)
Definition orfail {A B} (c : outcome A) (format : string)
           (k : A -> outcome B) : outcome B :=
  match c with
  | Ok a => k a
  | Err e => Err (Errorf format e)
  | Panic m => Panic m
  end.

(** [x := c; k] where [c] can only panic or return. *)
Definition bind {A B} (c : outcome A) (k : A -> outcome B) : outcome B :=
  match c with
  | Ok a => k a
  | Err e => Err e
  | Panic m => Panic m
  end.

Notation "'try' x <- c 'wrap' f ;; k" := (orfail c f (fun x => k))
  (at level 10, x pattern, c at level 200, f at level 0, k at level 200).

Notation "'run' x <- c ;; k" := (bind c (fun x => k))
  (at level 10, x pattern, c at level 200, k at level 200).

(** [s[i]] on a slice: a run-time panic when [i] is out of range. *)
Definition index {A} (s : list A) (i : nat) : outcome A :=
  match nth_error s i with
  | Some a => Ok a
  | None => Panic "runtime error: index out of range"
  end.

(** What a handler answered, without the world it left behind. *)
Definition answer {R W} (o : outcome (R * W)) : outcome R :=
  match o with
  | Ok (r, _) => Ok r
  | Err e => Err e
  | Panic m => Panic m
  end.

(** Go's conversion [byte(n)]: the low eight bits. *)
Definition byte_of_N (n : N) : byte :=
  match Byte.of_N (n mod 256)%N with
  | Some b => b
  | None => x00
  end.

(** ** Package strings *)
Module strings.

(** [strings.Split(s, sep)] for a one-byte separator: the pieces of [s]
    between the occurrences of [sep]; always at least one piece. *)
Fixpoint Split (s : string) (sep : ascii) : list string :=
  match s with
  | EmptyString => [EmptyString]
  | String c rest =>
      if Ascii.eqb c sep then EmptyString :: Split rest sep
      else match Split rest sep with
           | piece :: pieces => String c piece :: pieces
           | [] => [String c EmptyString]
           end
  end.

(** [strings.Contains(s, sep)] for a one-byte separator. *)
Fixpoint Contains (s : string) (sep : ascii) : bool :=
  match s with
  | EmptyString => false
  | String c rest => Ascii.eqb c sep || Contains rest sep
  end.

End strings.

(** ** Package encoding/base64, [StdEncoding]

    The standard alphabet with ["="] padding.  Three bytes make a 24-bit
    group that is cut into four 6-bit digits; a final group of one or two
    bytes gives two or three digits and padding.  The decoder skips
    carriage returns and line feeds, as Go's does, and does not check the
    unused bits of a padded group (the encoding is not strict). *)
Module base64.

Definition encodeStd : string :=
  "ABCDEFGHIJKLMNOPQRSTUVWXYZabcdefghijklmnopqrstuvwxyz0123456789+/".

Definition padChar : ascii := "="%char.

Definition digit (n : N) : ascii :=
  match String.get (N.to_nat n) encodeStd with
  | Some c => c
  | None => padChar
  end.

Fixpoint find_digit (alphabet : string) (c : ascii) (i : N) : option N :=
  match alphabet with
  | EmptyString => None
  | String a rest => if Ascii.eqb a c then Some i else find_digit rest c (N.succ i)
  end.

Definition value (c : ascii) : option N := find_digit encodeStd c 0%N.

Definition group (a b c : byte) : N :=
  (Byte.to_N a * 65536 + Byte.to_N b * 256 + Byte.to_N c)%N.

Definition digit_at (val : N) (shift : N) : ascii :=
  digit ((val / 2 ^ shift) mod 64)%N.

Fixpoint encode (src : bytes) : list ascii :=
  match src with
  | [] => []
  | [a] =>
      let val := group a x00 x00 in
      [digit_at val 18; digit_at val 12; padChar; padChar]
  | [a; b] =>
      let val := group a b x00 in
      [digit_at val 18; digit_at val 12; digit_at val 6; padChar]
  | a :: b :: c :: rest =>
      let val := group a b c in
      digit_at val 18 :: digit_at val 12 :: digit_at val 6 :: digit_at val 0
        :: encode rest
  end.

Definition EncodeToString (src : bytes) : string :=
  string_of_list_ascii (encode src).

Definition is_newline (c : ascii) : bool :=
  Ascii.eqb c "010"%char || Ascii.eqb c "013"%char.

Definition quantum (d0 d1 d2 d3 : N) : N :=
  (d0 * 262144 + d1 * 4096 + d2 * 64 + d3)%N.

Definition out3 (val : N) : bytes :=
  [byte_of_N (val / 65536); byte_of_N (val / 256); byte_of_N val].

Definition out2 (val : N) : bytes :=
  [byte_of_N (val / 65536); byte_of_N (val / 256)].

Definition out1 (val : N) : bytes :=
  [byte_of_N (val / 65536)].

(** The last quantum may end in padding; an earlier one may not. *)
Definition decode_last (c0 c1 c2 c3 : ascii) : option bytes :=
  match value c0, value c1 with
  | Some d0, Some d1 =>
      if Ascii.eqb c2 padChar then
        if Ascii.eqb c3 padChar then Some (out1 (quantum d0 d1 0 0)) else None
      else
        match value c2 with
        | None => None
        | Some d2 =>
            if Ascii.eqb c3 padChar then Some (out2 (quantum d0 d1 d2 0))
            else match value c3 with
                 | None => None
                 | Some d3 => Some (out3 (quantum d0 d1 d2 d3))
                 end
        end
  | _, _ => None
  end.

Definition decode_full (c0 c1 c2 c3 : ascii) : option bytes :=
  match value c0, value c1, value c2, value c3 with
  | Some d0, Some d1, Some d2, Some d3 => Some (out3 (quantum d0 d1 d2 d3))
  | _, _, _, _ => None
  end.

Fixpoint decode (src : list ascii) : option bytes :=
  match src with
  | [] => Some []
  | c0 :: c1 :: c2 :: c3 :: rest =>
      match rest with
      | [] => decode_last c0 c1 c2 c3
      | _ :: _ =>
          match decode_full c0 c1 c2 c3, decode rest with
          | Some front, Some back => Some (front ++ back)
          | _, _ => None
          end
      end
  | _ => None
  end.

Definition CorruptInputError : error := errorString "illegal base64 data".

Definition DecodeString (s : string) : outcome bytes :=
  match decode (filter (fun c => negb (is_newline c)) (list_ascii_of_string s)) with
  | Some b => Ok b
  | None => Err CorruptInputError
  end.

End base64.

(** ** Packages crypto/aes and crypto/cipher: AES in Galois/counter mode

    The block cipher and the counter mode are Go's; they enter the model
    as an interface with the two operations of [cipher.AEAD] and the law
    every AEAD obeys.  What the wrappers below add is what Go's
    constructors and methods check before they reach the primitive: the
    key sizes AES accepts and the nonce length of the mode.  Resource
    limits (memory, the 64 GiB message bound of the mode) are outside the
    model. *)
Class AesGcm : Type := {
  (** key, nonce, plaintext: ciphertext followed by the tag *)
  gcm_seal : bytes -> bytes -> bytes -> bytes;
  (** key, nonce, ciphertext with tag: the plaintext when the tag matches *)
  gcm_open : bytes -> bytes -> bytes -> option bytes
}.

Module aes.

Definition valid_key_size (n : nat) : bool :=
  (n =? 16)%nat || (n =? 24)%nat || (n =? 32)%nat.

Definition KeySizeError : error := errorString "crypto/aes: invalid key size".

(** [aes.NewCipher(key)]: the block is determined by its key. *)
Definition NewCipher (key : bytes) : outcome bytes :=
  if valid_key_size (length key) then Ok key else Err KeySizeError.

End aes.

Module cipher.

Definition NonceSize : nat := 12.

(** [cipher.NewGCM(block)] fails only for a block size other than 128
    bits, which AES never has. *)
Definition NewGCM (block : bytes) : outcome bytes := Ok block.

Definition errNonce : string :=
  "crypto/cipher: incorrect nonce length given to GCM".

Definition errOpen : error :=
  errorString "cipher: message authentication failed".

(** [aesgcm.Seal(nil, nonce, plaintext, nil)] *)
Definition Seal `{AesGcm} (aesgcm nonce plaintext : bytes) : outcome bytes :=
  if (length nonce =? NonceSize)%nat
  then Ok (gcm_seal aesgcm nonce plaintext)
  else Panic errNonce.

(** [aesgcm.Open(nil, nonce, ciphertext, nil)] *)
Definition Open `{AesGcm} (aesgcm nonce ciphertext : bytes) : outcome bytes :=
  if (length nonce =? NonceSize)%nat
  then match gcm_open aesgcm nonce ciphertext with
       | Some plaintext => Ok plaintext
       | None => Err errOpen
       end
  else Panic errNonce.

End cipher.

(** The law of an AEAD: opening what was sealed under the same key and
    nonce gives the plaintext back. *)
Definition AesGcm_sound `{AesGcm} : Prop :=
  forall key nonce plaintext,
    aes.valid_key_size (length key) = true ->
    length nonce = cipher.NonceSize ->
    gcm_open key nonce (gcm_seal key nonce plaintext) = Some plaintext.

Definition byte_xor (a b : byte) : byte :=
  let '(a0, (a1, (a2, (a3, (a4, (a5, (a6, a7))))))) := Byte.to_bits a in
  let '(b0, (b1, (b2, (b3, (b4, (b5, (b6, b7))))))) := Byte.to_bits b in
  Byte.of_bits (xorb a0 b0, (xorb a1 b1, (xorb a2 b2, (xorb a3 b3,
               (xorb a4 b4, (xorb a5 b5, (xorb a6 b6, xorb a7 b7))))))).

Definition bytes_eqb (a b : bytes) : bool :=
  if list_eq_dec Byte.byte_eq_dec a b then true else false.

(** A transparent instance of the interface, to run the pipeline on
    concrete inputs: every byte is xor-ed with one pad byte folded from
    key and nonce, and the tag is sixteen copies of the pad. *)
Module xorgcm.

Definition pad (key nonce : bytes) : byte :=
  fold_right byte_xor x00 (key ++ nonce).

Definition tagSize : nat := 16.

Definition seal (key nonce plaintext : bytes) : bytes :=
  map (byte_xor (pad key nonce)) plaintext ++ repeat (pad key nonce) tagSize.

Definition open (key nonce ciphertext : bytes) : option bytes :=
  let n := (length ciphertext - tagSize)%nat in
  if (tagSize <=? length ciphertext)%nat
     && bytes_eqb (skipn n ciphertext) (repeat (pad key nonce) tagSize)
  then Some (map (byte_xor (pad key nonce)) (firstn n ciphertext))
  else None.

Definition instance : AesGcm := {| gcm_seal := seal; gcm_open := open |}.

End xorgcm.

(** ** Package handler: the crypto engine (storage.go, UTILS) *)

(** The state of [crypto/rand]: the bytes it will deliver.  A read of
    more bytes than are left is the failure of [rand.Read]. *)
Definition entropy := list byte.

Definition errRand : error := errorString "crypto/rand: read failed".

Definition sizeRandomKey : nat := 16.

Definition adjustKeySize (originalKey : bytes) (desiredSize : nat) : bytes :=
  if (desiredSize <? length originalKey)%nat
  then firstn desiredSize originalKey
  else originalKey.

Definition generateRandom (size : nat) (rnd : entropy)
  : outcome (bytes * entropy) :=
  if (size <=? length rnd)%nat
  then Ok (firstn size rnd, skipn size rnd)
  else Err (Errorf "failed generate byte" errRand).

Section CryptoEngine.
Context {aead : AesGcm}.

Definition encrypt (key plaintext : bytes) (rnd : entropy)
  : outcome (string * entropy) :=
  let keyBytes := adjustKeySize key sizeRandomKey in
  try block <- aes.NewCipher keyBytes wrap "failed to create AES cipher" ;;
  try aesgcm <- cipher.NewGCM block wrap "failed to create chiper" ;;
  try (nonce, rnd') <- generateRandom cipher.NonceSize rnd
      wrap "failed to generate random bytes" ;;
  run dst <- cipher.Seal aesgcm nonce plaintext ;;
  let encString :=
    (base64.EncodeToString nonce ++ "*" ++ base64.EncodeToString dst)%string in
  Ok (encString, rnd').

Definition decrypt (key : bytes) (plaintext : string) : outcome bytes :=
  let splStr := strings.Split plaintext "*" in
  run nonceStr <- index splStr 0 ;;
  try decNonce <- base64.DecodeString nonceStr wrap "failed decode base64" ;;
  run dataStr <- index splStr 1 ;;
  try decString <- base64.DecodeString dataStr wrap "failed decode base64" ;;
  let keyBytes := adjustKeySize key sizeRandomKey in
  try block <- aes.NewCipher keyBytes wrap "failed to create AES cipher" ;;
  try aesgcm <- cipher.NewGCM block wrap "failed to create chiper" ;;
  try dst <- cipher.Open aesgcm decNonce decString wrap "failed open decrypts" ;;
  Ok dst.

Definition encryptionData (mk : string) (data : bytes) (rnd : entropy)
  : outcome ((string * string) * entropy) :=
  try (key, rnd1) <- generateRandom sizeRandomKey rnd
      wrap "failed to generate random bytes" ;;
  try (encKey, rnd2) <- encrypt (list_byte_of_string mk) key rnd1
      wrap "failed encript key" ;;
  try (encData, rnd3) <- encrypt key data rnd2 wrap "failed encript data" ;;
  Ok ((encData, encKey), rnd3).

Definition decryptionData (mk : string) (key : string) (data : string)
  : outcome bytes :=
  try decKey <- decrypt (list_byte_of_string mk) key wrap "failed decrypt key" ;;
  try decData <- decrypt decKey data wrap "failed decrypt data" ;;
  Ok decData.

End CryptoEngine.

(** ** Package domain *)
Module domain.

(** Modelled from the spec: the declaration of [domain.Storage] is not
    among the sources.  The fields are the ones handler and repository
    use, and the Record of the data model: id, owner, name, kind
    ([Type]), cipherValue ([Value]) and wrappedKey ([Key]). *)
Module Storage.
Record t : Type := mk {
  ID : Z;
  Name : string;
  Type_ : string;
  Value : string;
  Key : string;
  Owner : Z
}.
Definition zero : t := mk 0 "" "" "" "" 0.
End Storage.

(** Modelled from the spec: the declaration of [domain.User] is not among
    the sources.  The fields are the ones handler and repository use, and
    the User of the data model: id, login and passwordHash ([Hash]). *)
Module User.
Record t : Type := mk {
  ID : Z;
  Login : string;
  Hash : string
}.
Definition zero : t := mk 0 "" "".
End User.

End domain.

(** ** Package proto *)

(** Modelled from the spec: the generated message types are not among the
    sources.  Each message has the fields the handlers read and write,
    which are those of the wire surface of the specification. *)
Module proto.

(** Go's conversion [int32(x)] of an [int]: the low 32 bits, signed. *)
Definition int32 (x : Z) : Z := (x + 2 ^ 31) mod 2 ^ 32 - 2 ^ 31.

Module StorageUnit.
Record t : Type := mk { Id : Z; Name : string; Type_ : string; Owner : Z }.
End StorageUnit.

Module ReadAllRecordResponse.
Record t : Type := mk { Units : list StorageUnit.t; Error : string }.
Definition zero : t := mk [] "".
End ReadAllRecordResponse.

Module ReadRecordRequest.
Record t : Type := mk { Id : Z }.
End ReadRecordRequest.

Module ReadRecordResponse.
Record t : Type := mk { Name : string; Type_ : string; Data : bytes; Error : string }.
Definition zero : t := mk "" "" [] "".
End ReadRecordResponse.

Module WriteRecordRequest.
Record t : Type := mk { Name : string; Type_ : string; Data : bytes }.
(** The generated getters accept a nil message and return zero values. *)
Definition GetName (x : option t) : string :=
  match x with Some m => Name m | None => "" end.
Definition GetType (x : option t) : string :=
  match x with Some m => Type_ m | None => "" end.
Definition GetData (x : option t) : bytes :=
  match x with Some m => Data m | None => [] end.
End WriteRecordRequest.

Module WriteRecordResponse.
Record t : Type := mk { Error : string }.
Definition zero : t := mk "".
End WriteRecordResponse.

Module DeleteRecordRequest.
Record t : Type := mk { Id : Z }.
End DeleteRecordRequest.

Module DeleteRecordResponse.
Record t : Type := mk { Error : string }.
Definition zero : t := mk "".
End DeleteRecordResponse.

End proto.

(** ** The relational store (gorm over PostgreSQL)

    The tables of the two models, the sequences that number new rows, and
    a fault.  While the fault is present every statement ends with its
    error and no row is written or deleted; a query still delivers
    [delivered] of its rows before it fails: none when the store cannot
    be reached, some when the connection breaks while the rows are
    scanned. *)
Module gorm.

Record DB : Type := mkDB {
  storages : list domain.Storage.t;
  users : list domain.User.t;
  storage_seq : Z;
  user_seq : Z;
  fault : option error;
  delivered : nat
}.

(** What a finished statement reports: [req.RowsAffected], [req.Error],
    and the destination it filled. *)
Record Result (A : Type) : Type := mkResult {
  dest : A;
  RowsAffected : Z;
  Error : option error
}.
Arguments mkResult {A}.
Arguments dest {A}.
Arguments RowsAffected {A}.
Arguments Error {A}.

Definition ErrRecordNotFound : error := errorString "record not found".

(** [db.Select("id", "name", "owner")]: the other columns of a row keep
    their zero values in the destination. *)
Definition select_id_name_owner (row : domain.Storage.t) : domain.Storage.t :=
  domain.Storage.mk (domain.Storage.ID row) (domain.Storage.Name row) "" "" ""
                    (domain.Storage.Owner row).

(** [db.Select("id", "name", "owner").Find(&docs, "owner = ?", owner)]:
    every row that was scanned counts in [RowsAffected], also when the
    query fails afterwards. *)
Definition FindStorageByOwner (db : DB) (owner : Z)
  : Result (list domain.Storage.t) :=
  let rows :=
    map select_id_name_owner
        (filter (fun r => domain.Storage.Owner r =? owner)%Z (storages db)) in
  match fault db with
  | Some e =>
      let scanned := firstn (delivered db) rows in
      mkResult scanned (Z.of_nat (length scanned)) (Some e)
  | None => mkResult rows (Z.of_nat (length rows)) None
  end.

(** [db.First(&doc, "id = ? AND owner = ?", id, owner)] *)
Definition FirstStorage (db : DB) (id owner : Z) : Result domain.Storage.t :=
  let found := find (fun r => (domain.Storage.ID r =? id)%Z
                              && (domain.Storage.Owner r =? owner)%Z)
                    (storages db) in
  match fault db with
  | Some e =>
      match delivered db, found with
      | S _, Some row => mkResult row 1 (Some e)
      | _, _ => mkResult domain.Storage.zero 0 (Some e)
      end
  | None =>
      match found with
      | Some row => mkResult row 1 None
      | None => mkResult domain.Storage.zero 0 (Some ErrRecordNotFound)
      end
  end.

(** [pgerrcode.UniqueViolation] *)
Definition UniqueViolation : string := "23505".

(** [db.Create(&doc)] on the storage table: a record whose primary key is
    zero gets the next id of the sequence, any other record keeps its
    key and leaves the sequence alone; the key is unique. *)
Definition CreateStorage (db : DB) (doc : domain.Storage.t)
  : Result domain.Storage.t * DB :=
  match fault db with
  | Some e => (mkResult doc 0 (Some e), db)
  | None =>
      let fresh := (domain.Storage.ID doc =? 0)%Z in
      let id := if fresh then (storage_seq db + 1)%Z else domain.Storage.ID doc in
      let seq := if fresh then id else storage_seq db in
      if existsb (fun r => (domain.Storage.ID r =? id)%Z) (storages db)
      then (mkResult doc 0 (Some (PgError UniqueViolation)), db)
      else
        let row := domain.Storage.mk id (domain.Storage.Name doc)
                     (domain.Storage.Type_ doc) (domain.Storage.Value doc)
                     (domain.Storage.Key doc) (domain.Storage.Owner doc) in
        (mkResult row 1 None,
         mkDB (storages db ++ [row]) (users db) seq (user_seq db) None
              (delivered db))
  end.

(** [db.Delete(&doc, "id = ? AND owner = ?", id, owner)] *)
Definition DeleteStorage (db : DB) (id owner : Z) : Result unit * DB :=
  match fault db with
  | Some e => (mkResult tt 0 (Some e), db)
  | None =>
      let hit r := ((domain.Storage.ID r =? id)%Z
                    && (domain.Storage.Owner r =? owner)%Z) in
      let kept := filter (fun r => negb (hit r)) (storages db) in
      (mkResult tt (Z.of_nat (length (storages db)) - Z.of_nat (length kept)) None,
       mkDB kept (users db) (storage_seq db) (user_seq db) None (delivered db))
  end.

(** [db.First(&user, "login = ?", login)] *)
Definition FirstUser (db : DB) (login : string) : Result domain.User.t :=
  let found :=
    find (fun u => String.eqb (domain.User.Login u) login) (users db) in
  match fault db with
  | Some e =>
      match delivered db, found with
      | S _, Some row => mkResult row 1 (Some e)
      | _, _ => mkResult domain.User.zero 0 (Some e)
      end
  | None =>
      match found with
      | Some row => mkResult row 1 None
      | None => mkResult domain.User.zero 0 (Some ErrRecordNotFound)
      end
  end.

(** [db.Create(&user)]: logins are unique. *)
Definition CreateUser (db : DB) (user : domain.User.t)
  : Result domain.User.t * DB :=
  match fault db with
  | Some e => (mkResult user 0 (Some e), db)
  | None =>
      if existsb (fun u => String.eqb (domain.User.Login u) (domain.User.Login user))
                 (users db)
      then (mkResult user 0 (Some (PgError UniqueViolation)), db)
      else
        let id := (user_seq db + 1)%Z in
        let row := domain.User.mk id (domain.User.Login user)
                                  (domain.User.Hash user) in
        (mkResult row 1 None,
         mkDB (storages db) (users db ++ [row]) (storage_seq db) id None
              (delivered db))
  end.

End gorm.

(** ** Package repository *)
Module repository.

Definition ReadAllRecord (s : gorm.DB) (owner : Z)
  : list domain.Storage.t * option error :=
  let req := gorm.FindStorageByOwner s owner in
  let docs := gorm.dest req in
  if (gorm.RowsAffected req =? 0)%Z then ([], None)
  else match gorm.Error req with
       | Some e => ([], Some e)
       | None => (docs, None)
       end.

Definition ReadRecord (s : gorm.DB) (id owner : Z)
  : option domain.Storage.t * option error :=
  let req := gorm.FirstStorage s id owner in
  let doc := gorm.dest req in
  if (gorm.RowsAffected req =? 0)%Z then (None, None)
  else match gorm.Error req with
       | Some e => (None, Some e)
       | None => (Some doc, None)
       end.

Definition WriteRecord (s : gorm.DB) (doc : domain.Storage.t)
  : option error * gorm.DB :=
  let (req, s') := gorm.CreateStorage s doc in
  match gorm.Error req with
  | Some e => (Some e, s')
  | None => (None, s')
  end.

Definition DeleteRecord (s : gorm.DB) (id owner : Z) : option error * gorm.DB :=
  let (req, s') := gorm.DeleteStorage s id owner in
  match gorm.Error req with
  | Some e => (Some e, s')
  | None => (None, s')
  end.

Definition FindUserByLogin (s : gorm.DB) (login : string)
  : option domain.User.t * option error :=
  let req := gorm.FirstUser s login in
  let user := gorm.dest req in
  if (gorm.RowsAffected req =? 0)%Z then (None, None)
  else match gorm.Error req with
       | Some e => (None, Some e)
       | None => (Some user, None)
       end.

Definition CreateUser (s : gorm.DB) (login hash : string)
  : (option domain.User.t * option error) * gorm.DB :=
  let user := domain.User.mk 0 login hash in
  let (req, s') := gorm.CreateUser s user in
  match gorm.Error req with
  | Some e => ((None, Some e), s')
  | None => ((Some (gorm.dest req), None), s')
  end.

End repository.

(** ** Package services

    The handlers reach the store through [services.StorageService] and
    [services.UserService].  They enter the model as interfaces over the
    state of the store, with Go's result pairs. *)
Module services.

Class StorageService (DB : Type) : Type := {
  ReadAllRecord : DB -> Z -> list domain.Storage.t * option error;
  ReadRecord : DB -> Z -> Z -> option domain.Storage.t * option error;
  WriteRecord : DB -> domain.Storage.t -> option error * DB;
  DeleteRecord : DB -> Z -> Z -> option error * DB
}.

Class UserService (DB : Type) : Type := {
  CreateUser : DB -> string -> string -> (option domain.User.t * option error) * DB;
  FindUserByLogin : DB -> string -> option domain.User.t * option error
}.

(** Modelled from the spec: the source of package services is not among
    the files.  The specification knows one storage collaborator, the
    relational store, so the services forward each call to the
    repository. *)
Definition NewStorageService : StorageService gorm.DB := {|
  ReadAllRecord := repository.ReadAllRecord;
  ReadRecord := repository.ReadRecord;
  WriteRecord := repository.WriteRecord;
  DeleteRecord := repository.DeleteRecord
|}.

Definition NewUserService : UserService gorm.DB := {|
  CreateUser := repository.CreateUser;
  FindUserByLogin := repository.FindUserByLogin
|}.

End services.

(** ** Package middleware: the identity claim in the call context *)
Module middleware.

(** [ExpiresAt] is the [exp] of the embedded [jwt.RegisteredClaims], a
    time in Unix nanoseconds; the other registered claims are never set. *)
Record JWTclaims : Type := mkClaims {
  ID : Z;
  Login : string;
  ExpiresAt : option Z
}.

Definition zeroClaims : JWTclaims := mkClaims 0 "" None.

(** A [context.Context], as far as the handlers look into it: the value
    stored under [ContextKeyToken], when it is a [JWTclaims]. *)
Definition Context := option JWTclaims.

Definition GetTokenFromContext (ctx : Context) : JWTclaims * bool :=
  match ctx with
  | Some caller => (caller, true)
  | None => (zeroClaims, false)
  end.

Definition SetTokenToContext (ctx : Context) (pl : JWTclaims) : Context :=
  Some pl.

End middleware.

(** ** The world a handler runs in

    The store, the random source, the clock, and a trace of what the
    handler did to its collaborators: the log lines it wrote and the
    calls it made. *)
Inductive event : Type :=
| LogError (msg : string) (cause : option error)
| CallReadAllRecord (owner : Z)
| CallReadRecord (id owner : Z)
| CallWriteRecord (unit : domain.Storage.t)
| CallDeleteRecord (id owner : Z)
| CallCreateUser (login hash : string)
| CallFindUserByLogin (login : string)
| CallGenerateFromPassword (password : bytes)
| CallCompareHashAndPassword (hash password : bytes).

Record World (DB : Type) : Type := mkWorld {
  w_db : DB;
  w_rand : entropy;
  w_now : Z;
  w_trace : list event
}.
Arguments mkWorld {DB}.
Arguments w_db {DB}.
Arguments w_rand {DB}.
Arguments w_now {DB}.
Arguments w_trace {DB}.

Definition emit {DB} (ev : event) (w : World DB) : World DB :=
  mkWorld (w_db w) (w_rand w) (w_now w) (w_trace w ++ [ev]).

Definition setDB {DB} (db : DB) (w : World DB) : World DB :=
  mkWorld db (w_rand w) (w_now w) (w_trace w).

Definition setRand {DB} (rnd : entropy) (w : World DB) : World DB :=
  mkWorld (w_db w) rnd (w_now w) (w_trace w).

(** ** The server side of the upload stream

    [Recv] delivers the scripted results in order and [io.EOF] once they
    are used up; each [SendAndClose] is recorded with the response it was
    given and answers with the next scripted result, [nil] when none is
    left.  The scripts are finite: a stream on which [Recv] fails for
    ever, where the loop of the handler does not end, is outside the
    model. *)
Module stream.

Record t : Type := mk {
  ctx : middleware.Context;
  incoming : list (proto.WriteRecordRequest.t + error);
  closing : list (option error);
  closed : list proto.WriteRecordResponse.t
}.

Definition Context (s : t) : middleware.Context := ctx s.

Definition received (r : proto.WriteRecordRequest.t + error)
  : option proto.WriteRecordRequest.t * option error :=
  match r with
  | inl chunk => (Some chunk, None)
  | inr err => (None, Some err)
  end.

Definition Recv (s : t)
  : (option proto.WriteRecordRequest.t * option error) * t :=
  match incoming s with
  | [] => ((None, Some io.EOF), s)
  | r :: rest => (received r, mk (ctx s) rest (closing s) (closed s))
  end.

Definition SendAndClose (resp : proto.WriteRecordResponse.t) (s : t)
  : option error * t :=
  match closing s with
  | [] => (None, mk (ctx s) (incoming s) [] (closed s ++ [resp]))
  | r :: rest => (r, mk (ctx s) (incoming s) rest (closed s ++ [resp]))
  end.

End stream.

(** [bytes.Buffer.Write] appends and never returns an error. *)
Definition Buffer_Write (buffer p : bytes) : bytes * option error :=
  (buffer ++ p, None).

(** ** Package handler: the storage handlers (storage.go) *)
Module handler.

Import middleware.

Record StorageHandler : Type := mkStorageHandler {
  MasterKey : string
}.

Definition errorInvalidToken : string := "invalid token".
Definition errorCloseStream : string := "failed close stream".

Section Storage.
Context {aead : AesGcm} {DB : Type} {Svc : services.StorageService DB}.

(** ReadAllRecord read all record from BD.  (The request message has no
    fields and is not read.) *)
Definition ReadAllRecord (s : StorageHandler) (ctx : Context) (w : World DB)
  : (option proto.ReadAllRecordResponse.t * option error) * World DB :=
  let resp := proto.ReadAllRecordResponse.zero in
  let (token, ok) := GetTokenFromContext ctx in
  if negb ok then
    let w := emit (LogError errorInvalidToken None) w in
    let resp := proto.ReadAllRecordResponse.mk
                  (proto.ReadAllRecordResponse.Units resp) errorInvalidToken in
    ((Some resp, None), w)
  else
    let w := emit (CallReadAllRecord (ID token)) w in
    let (rec, err) := services.ReadAllRecord (w_db w) (ID token) in
    match err with
    | Some e =>
        let w := emit (LogError "failed get all records" (Some e)) w in
        let resp := proto.ReadAllRecordResponse.mk
                      (proto.ReadAllRecordResponse.Units resp)
                      "failed get all records" in
        ((Some resp, None), w)
    | None =>
        let respSlice :=
          map (fun v => proto.StorageUnit.mk
                          (proto.int32 (domain.Storage.ID v))
                          (domain.Storage.Name v)
                          (domain.Storage.Type_ v)
                          (proto.int32 (domain.Storage.Owner v))) rec in
        let resp := proto.ReadAllRecordResponse.mk
                      respSlice (proto.ReadAllRecordResponse.Error resp) in
        ((Some resp, None), w)
    end.

(** ReadRecord read single record from BD. *)
Definition ReadRecord (s : StorageHandler) (ctx : Context)
           (in_ : proto.ReadRecordRequest.t) (w : World DB)
  : outcome ((option proto.ReadRecordResponse.t * option error) * World DB) :=
  let resp := proto.ReadRecordResponse.zero in
  let withError msg :=
    proto.ReadRecordResponse.mk
      (proto.ReadRecordResponse.Name resp) (proto.ReadRecordResponse.Type_ resp)
      (proto.ReadRecordResponse.Data resp) msg in
  let (token, ok) := GetTokenFromContext ctx in
  if negb ok then
    let w := emit (LogError errorInvalidToken None) w in
    Ok ((Some (withError errorInvalidToken), None), w)
  else
    let w := emit (CallReadRecord (proto.ReadRecordRequest.Id in_) (ID token)) w in
    let (rec, err) :=
      services.ReadRecord (w_db w) (proto.ReadRecordRequest.Id in_) (ID token) in
    match err with
    | Some e =>
        let w := emit (LogError "failed read record" (Some e)) w in
        Ok ((Some (withError "failed read record"), None), w)
    | None =>
        match rec with
        | None => Ok ((Some (withError "record not found"), None), w)
        | Some rec =>
            match decryptionData (MasterKey s) (domain.Storage.Key rec)
                                 (domain.Storage.Value rec) with
            | Panic m => Panic m
            | Err e =>
                let w := emit (LogError "failed decrypt data" (Some e)) w in
                Ok ((Some (withError "failed decrypt data"), None), w)
            | Ok data =>
                let resp := proto.ReadRecordResponse.mk
                              (domain.Storage.Name rec) (domain.Storage.Type_ rec)
                              data (proto.ReadRecordResponse.Error resp) in
                Ok ((Some resp, None), w)
            end
        end
    end.

(** DeleteRecord delete record from BD. *)
Definition DeleteRecord (s : StorageHandler) (ctx : Context)
           (in_ : proto.DeleteRecordRequest.t) (w : World DB)
  : (option proto.DeleteRecordResponse.t * option error) * World DB :=
  let resp := proto.DeleteRecordResponse.zero in
  let (token, ok) := GetTokenFromContext ctx in
  if negb ok then
    let w := emit (LogError errorInvalidToken None) w in
    ((Some (proto.DeleteRecordResponse.mk errorInvalidToken), None), w)
  else
    let w := emit (CallDeleteRecord (proto.DeleteRecordRequest.Id in_) (ID token)) w in
    let (err, db) :=
      services.DeleteRecord (w_db w) (proto.DeleteRecordRequest.Id in_) (ID token) in
    let w := setDB db w in
    match err with
    | Some e =>
        let w := emit (LogError "failed delete record" (Some e)) w in
        ((Some (proto.DeleteRecordResponse.mk "failed delete record"), None), w)
    | None => ((Some resp, None), w)
    end.

(** *** WriteRecord write record in BD. *)

(** The variables of one run of [WriteRecord]: its locals, the stream
    and the world. *)
Record frame : Type := mkFrame {
  resp : proto.WriteRecordResponse.t;
  fileName : string;
  fileType : string;
  buffer : bytes;
  strm : stream.t;
  world : World DB
}.

(** The block every failed stage runs:
    [s.Logger...Error(msg); resp.Error = msg;
     err := stream.SendAndClose(&resp);
     if err != nil { return fmt.Errorf(errorCloseStream, err) }].
    The handler returns here only when closing fails; the result is the
    value returned, if any, and the frame the run goes on with. *)
Definition failStage (msg : string) (cause : option error) (f : frame)
  : option error * frame :=
  let w := emit (LogError msg cause) (world f) in
  let resp := proto.WriteRecordResponse.mk msg in
  let (err, st) := stream.SendAndClose resp (strm f) in
  let f := mkFrame resp (fileName f) (fileType f) (buffer f) st w in
  match err with
  | Some e => (Some (Errorf errorCloseStream e), f)
  | None => (None, f)
  end.

(** One turn of the receiving loop after [stream.Recv()] returned
    [(chunk, err)] with [err] not [io.EOF]. *)
Definition recvBody (chunk : option proto.WriteRecordRequest.t)
           (err : option error) (f : frame) : option error * frame :=
  let '(ret, f) :=
    match err with
    | Some e => failStage "failed recive chunk" (Some e) f
    | None => (None, f)
    end in
  match ret with
  | Some r => (Some r, f)
  | None =>
      let fileName' :=
        if String.eqb (fileName f) ""
        then proto.WriteRecordRequest.GetName chunk else fileName f in
      let fileType' :=
        if String.eqb (fileType f) ""
        then proto.WriteRecordRequest.GetType chunk else fileType f in
      let (buffer', werr) :=
        Buffer_Write (buffer f) (proto.WriteRecordRequest.GetData chunk) in
      let f := mkFrame (resp f) fileName' fileType' buffer' (strm f) (world f) in
      match werr with
      | Some e => failStage "failed write chunk to buffer" (Some e) f
      | None => (None, f)
      end
  end.

Definition is_EOF (err : option error) : bool :=
  match err with
  | Some e => errors.Is e io.EOF
  | None => false
  end.

Definition setIncoming (rest : list (proto.WriteRecordRequest.t + error))
           (f : frame) : frame :=
  mkFrame (resp f) (fileName f) (fileType f) (buffer f)
          (stream.mk (stream.ctx (strm f)) rest (stream.closing (strm f))
                     (stream.closed (strm f)))
          (world f).

(** [for { chunk, err := stream.Recv(); if errors.Is(err, io.EOF) { break }; ... }]
    by recursion on what the stream still has to deliver. *)
Fixpoint recvLoop (incoming : list (proto.WriteRecordRequest.t + error))
         (f : frame) : option error * frame :=
  match incoming with
  | [] => (None, setIncoming [] f)
  | r :: rest =>
      let f := setIncoming rest f in
      let (chunk, err) := stream.received r in
      if is_EOF err then (None, f)
      else
        match recvBody chunk err f with
        | (Some ret, f) => (Some ret, f)
        | (None, f) => recvLoop rest f
        end
  end.

Definition WriteRecord (s : StorageHandler) (st : stream.t) (w : World DB)
  : outcome (option error * (stream.t * World DB)) :=
  let f := mkFrame proto.WriteRecordResponse.zero "" "" [] st w in
  let (token, ok) := GetTokenFromContext (stream.Context st) in
  (* Get token from context *)
  let '(ret, f) :=
    if negb ok then failStage errorInvalidToken None f else (None, f) in
  match ret with
  | Some r => Ok (Some r, (strm f, world f))
  | None =>
  match recvLoop (stream.incoming (strm f)) f with
  | (Some r, f) => Ok (Some r, (strm f, world f))
  | (None, f) =>
  (* Encription data *)
  match encryptionData (MasterKey s) (buffer f) (w_rand (world f)) with
  | Panic m => Panic m
  | enc =>
  let '(data, key, ret, f) :=
    match enc with
    | Ok ((data, key), rnd) =>
        (data, key, None,
         mkFrame (resp f) (fileName f) (fileType f) (buffer f) (strm f)
                 (setRand rnd (world f)))
    | Err e =>
        let (ret, f) := failStage "failed encrypt data" (Some e) f in
        (""%string, ""%string, ret, f)
    | Panic _ => (""%string, ""%string, None, f)
    end in
  match ret with
  | Some r => Ok (Some r, (strm f, world f))
  | None =>
  (* Prepare record for save *)
  let unit := domain.Storage.mk 0 (fileName f) (fileType f) data key (ID token) in
  (* Write recorn in BD *)
  let w := emit (CallWriteRecord unit) (world f) in
  let (err, db) := services.WriteRecord (w_db w) unit in
  let f := mkFrame (resp f) (fileName f) (fileType f) (buffer f) (strm f)
                   (setDB db w) in
  let '(ret, f) :=
    match err with
    | Some e => failStage "failed write record" (Some e) f
    | None => (None, f)
    end in
  match ret with
  | Some r => Ok (Some r, (strm f, world f))
  | None =>
  (* Close stream *)
  let (err, st) := stream.SendAndClose (resp f) (strm f) in
  match err with
  | Some e => Ok (Some (Errorf errorCloseStream e), (st, world f))
  | None => Ok (None, (st, world f))
  end
  end end end end end.

End Storage.

End handler.

(** ** Packages crypto/sha256 and crypto/hmac

    The compression function is Go's and enters as an interface; the
    keying of HMAC (RFC 2104) is modelled as [hmac.New] does it: a key
    longer than the block is hashed first, and the key is then copied
    into a zeroed block. *)
Class Sha256 : Type := {
  sha256_Sum : bytes -> bytes
}.

Module hmac.

Definition blockSize : nat := 64.

Section Keyed.
Context {H : Sha256}.

Definition block (key : bytes) : bytes :=
  let key := if (blockSize <? length key)%nat then sha256_Sum key else key in
  firstn blockSize (key ++ repeat x00 blockSize).

Definition Sum (key message : bytes) : bytes :=
  let ipad := map (byte_xor x36) (block key) in
  let opad := map (byte_xor x5c) (block key) in
  sha256_Sum (opad ++ sha256_Sum (ipad ++ message)).

End Keyed.

Definition Equal (mac1 mac2 : bytes) : bool := bytes_eqb mac1 mac2.

End hmac.

(** ** Package jwt (github.com/golang-jwt/jwt/v5), method HS256

    A token string is either the compact serialization of a header, the
    claims and a signature, or it is malformed.  The serialization and its
    parser are the library's: the model keeps what a well-formed string
    carries, the claims and the signature of an HS256 token, and takes the
    text that is signed (the encoded header and claims) as a function of
    the claims.  The header is not kept: tokens signed with another
    method of the library, which the code does not exclude, are outside
    the model, and so are the registered claims other than [exp]. *)
Class JoseEncoding : Type := {
  signingString : middleware.JWTclaims -> bytes
}.

Module jwt.

Record Token : Type := mkToken {
  Claims : middleware.JWTclaims;
  Signature : bytes
}.

Inductive TokenString : Type :=
| Malformed (raw : string)
| Compact (t : Token).

Definition ErrTokenMalformed : error := errorString "token is malformed".
Definition ErrSignatureInvalid : error := errorString "signature is invalid".
Definition ErrTokenExpired : error := errorString "token is expired".

(** [time.Second] in nanoseconds, the default [jwt.TimePrecision]. *)
Definition TimePrecision : Z := 1000000000.

(** [jwt.NewNumericDate(t)] is [t.Truncate(TimePrecision)]. *)
Definition NewNumericDate (t : Z) : Z := (t - t mod TimePrecision)%Z.

Section HS256.
Context {H : Sha256} {J : JoseEncoding}.

(** [jwt.NewWithClaims(jwt.SigningMethodHS256, claims).SignedString(key)] *)
Definition SignedString (key : bytes) (claims : middleware.JWTclaims)
  : outcome TokenString :=
  Ok (Compact (mkToken claims (hmac.Sum key (signingString claims)))).

(** [jwt.ParseWithClaims(token, claims, keyFunc)] at the time [now], with
    a key function that returns [key]: the claims are filled in from the
    token before the signature is verified; the result is [tkn.Valid],
    the claims and the error. *)
Definition ParseWithClaims (tokenString : TokenString) (key : bytes) (now : Z)
  : (bool * middleware.JWTclaims) * option error :=
  match tokenString with
  | Malformed _ =>
      ((false, middleware.zeroClaims),
       Some (wrapError "token is malformed" ErrTokenMalformed))
  | Compact t =>
      let claims := Claims t in
      if hmac.Equal (Signature t) (hmac.Sum key (signingString claims)) then
        match middleware.ExpiresAt claims with
        | Some exp =>
            if (now <? exp)%Z then ((true, claims), None)
            else ((false, claims),
                  Some (wrapError "token has invalid claims" ErrTokenExpired))
        | None => ((true, claims), None)
        end
      else
        ((false, claims),
         Some (wrapError "token signature is invalid" ErrSignatureInvalid))
  end.

End HS256.

End jwt.

(** ** Package crypto/sha256 (FIPS 180-4), on 32-bit words as [N]

    The hash as it is computed, to run the token functions on concrete
    inputs. *)
Module sha256.

Local Open Scope N_scope.

Definition mask32 : N := 4294967295.

Definition add32 (a b : N) : N := N.land (a + b) mask32.

Definition rotr (n x : N) : N :=
  N.lor (N.shiftr x n) (N.land (N.shiftl x (32 - n)) mask32).

Definition not32 (x : N) : N := N.lxor x mask32.

Definition Ch (x y z : N) : N := N.lxor (N.land x y) (N.land (not32 x) z).

Definition Maj (x y z : N) : N :=
  N.lxor (N.lxor (N.land x y) (N.land x z)) (N.land y z).

Definition bigSigma0 (x : N) : N :=
  N.lxor (N.lxor (rotr 2 x) (rotr 13 x)) (rotr 22 x).

Definition bigSigma1 (x : N) : N :=
  N.lxor (N.lxor (rotr 6 x) (rotr 11 x)) (rotr 25 x).

Definition sigma0 (x : N) : N :=
  N.lxor (N.lxor (rotr 7 x) (rotr 18 x)) (N.shiftr x 3).

Definition sigma1 (x : N) : N :=
  N.lxor (N.lxor (rotr 17 x) (rotr 19 x)) (N.shiftr x 10).

(** The primes below [bound], smallest first. *)
Definition is_prime (n : nat) : bool :=
  forallb (fun d => negb (n mod d =? 0)%nat) (seq 2 (n - 2)).

Definition primes_below (bound : nat) : list N :=
  map N.of_nat (filter is_prime (seq 2 (bound - 2))).

(** The largest [r] below [2 ^ k] that [fits], found bit by bit. *)
Fixpoint largest (k : nat) (fits : N -> bool) (r : N) : N :=
  match k with
  | O => r
  | S j =>
      let candidate := r + 2 ^ N.of_nat j in
      largest j fits (if fits candidate then candidate else r)
  end.

Definition cube_root (x : N) : N := largest 35 (fun c => c * c * c <=? x) 0.

(** The round constants: the first thirty-two bits of the fractional
    parts of the cube roots of the first sixty-four primes. *)
Definition K : list N :=
  Eval vm_compute in
    map (fun p => N.land (cube_root (p * 2 ^ 96)) mask32) (primes_below 312).

(** The initial hash value: the same of the square roots of the first
    eight primes. *)
Definition init : list N :=
  Eval vm_compute in
    map (fun p => N.land (N.sqrt (p * 2 ^ 64)) mask32) (primes_below 20).

(** Big-endian bytes of a number, [n] of them. *)
Fixpoint be_bytes (n : nat) (x : N) : bytes :=
  match n with
  | O => []
  | S m => byte_of_N (N.shiftr x (8 * N.of_nat m)) :: be_bytes m x
  end.

Definition be_word (b : bytes) : N :=
  fold_left (fun acc x => acc * 256 + Byte.to_N x) b 0.

(** The message, a one bit, zeros up to 56 modulo 64, and the length in
    bits on eight bytes. *)
Definition pad (msg : bytes) : bytes :=
  let len := length msg in
  let zeros := ((64 - (len + 9) mod 64) mod 64)%nat in
  msg ++ x80 :: repeat x00 zeros ++ be_bytes 8 (8 * N.of_nat len).

Fixpoint words (n : nat) (b : bytes) : list N :=
  match n with
  | O => []
  | S m => be_word (firstn 4 b) :: words m (skipn 4 b)
  end.

(** The schedule, newest word first: from the last sixteen words the
    next one. *)
Fixpoint schedule (n : nat) (rev_w : list N) : list N :=
  match n with
  | O => rev_w
  | S m =>
      let w2 := nth 1 rev_w 0 in
      let w7 := nth 6 rev_w 0 in
      let w15 := nth 14 rev_w 0 in
      let w16 := nth 15 rev_w 0 in
      schedule m (add32 (add32 (sigma1 w2) w7) (add32 (sigma0 w15) w16) :: rev_w)
  end.

Definition round (st : list N) (kw : N * N) : list N :=
  match st with
  | [a; b; c; d; e; f; g; h] =>
      let t1 := add32 (add32 (add32 h (bigSigma1 e)) (Ch e f g))
                      (add32 (fst kw) (snd kw)) in
      let t2 := add32 (bigSigma0 a) (Maj a b c) in
      [add32 t1 t2; a; b; c; add32 d t1; e; f; g]
  | _ => st
  end.

Definition compress (h : list N) (blk : bytes) : list N :=
  let w := rev (schedule 48 (rev (words 16 blk))) in
  let st := fold_left round (combine K w) h in
  map (fun p => add32 (fst p) (snd p)) (combine h st).

Fixpoint blocks (n : nat) (h : list N) (b : bytes) : list N :=
  match n with
  | O => h
  | S m => blocks m (compress h (firstn 64 b)) (skipn 64 b)
  end.

(** [sha256.Sum256(data)] *)
Definition Sum256 (data : bytes) : bytes :=
  let padded := pad data in
  flat_map (be_bytes 4) (blocks (length padded / 64) init padded).

Definition instance : Sha256 := {| sha256_Sum := Sum256 |}.

End sha256.

(** ** The compact serialization of the signed part of a token

    The text HS256 signs: the base64url encodings, without padding, of
    the header and of the claims as JSON objects, joined by a dot.  The
    claims are rendered as [encoding/json] renders [JWTclaims] for logins
    that need no escaping; [exp] is in whole seconds. *)
Module jose.

Definition url (c : ascii) : ascii :=
  if Ascii.eqb c "+" then "-"%char
  else if Ascii.eqb c "/" then "_"%char else c.

(** [base64.RawURLEncoding.EncodeToString] *)
Definition RawURLEncode (src : bytes) : string :=
  string_of_list_ascii
    (map url (filter (fun c => negb (Ascii.eqb c base64.padChar))
                     (base64.encode src))).

Definition quoted (s : string) : string :=
  (String "034" s ++ String "034" EmptyString)%string.

Definition decimal (z : Z) : string := NilZero.string_of_int (Z.to_int z).

Definition header : string :=
  ("{" ++ quoted "alg" ++ ":" ++ quoted "HS256" ++ ","
       ++ quoted "typ" ++ ":" ++ quoted "JWT" ++ "}")%string.

Definition claimsJSON (c : middleware.JWTclaims) : string :=
  ("{" ++ quoted "id" ++ ":" ++ decimal (middleware.ID c) ++ ","
       ++ quoted "login" ++ ":" ++ quoted (middleware.Login c)
       ++ match middleware.ExpiresAt c with
          | Some exp => "," ++ quoted "exp" ++ ":" ++ decimal (exp / 1000000000)
          | None => ""
          end
       ++ "}")%string.

Definition SigningString (c : middleware.JWTclaims) : string :=
  (RawURLEncode (list_byte_of_string header) ++ "."
   ++ RawURLEncode (list_byte_of_string (claimsJSON c)))%string.

Definition instance : JoseEncoding :=
  {| signingString := fun c => list_byte_of_string (SigningString c) |}.

End jose.

(** ** Package bcrypt (golang.org/x/crypto/bcrypt) *)
Class Bcrypt : Type := {
  (** password, cost, random source: hash or error, and the source left *)
  bcrypt_GenerateFromPassword :
    bytes -> Z -> entropy -> (bytes * option error) * entropy;
  (** hashed password, password: [nil] on a match *)
  bcrypt_CompareHashAndPassword : bytes -> bytes -> option error
}.

Definition bcrypt_DefaultCost : Z := 10.

(** ** Package interceptors: verifying a bearer token *)
Module interceptors.

Section Verify.
Context {H : Sha256} {J : JoseEncoding}.

Definition verifyJWTandGetPayload (jwtKey : string) (token : jwt.TokenString)
           (now : Z) : middleware.JWTclaims * option error :=
  let '((valid, claims), err) :=
    jwt.ParseWithClaims token (list_byte_of_string jwtKey) now in
  match err with
  | Some e =>
      if errors.Is e jwt.ErrSignatureInvalid
      then (claims, Some (Errorf "Ошибка подписи JWT" e))
      else (claims, Some (Errorf "Недействительный JWT-токен" e))
  | None =>
      if negb valid
      then (claims, Some (errorString "JWT-токен недействителен: %!w(<nil>)"))
      else (claims, None)
  end.

(** [status.Error(codes.Unauthenticated, err.Error())] *)
Definition Unauthenticated (err : error) : error :=
  wrapError "rpc error: code = Unauthenticated" err.

(** [GetAuthenticator(jwtKey)] applied to a call whose metadata carries
    [bearer] under the bearer scheme ([auth.AuthFromMD]), or nothing. *)
Definition GetAuthenticator (jwtKey : string) (bearer : option jwt.TokenString)
           (now : Z) (ctx : middleware.Context) : outcome middleware.Context :=
  match bearer with
  | None =>
      Err (Errorf "Ошибка AuthFromMD"
             (Unauthenticated (errorString "Request unauthenticated with bearer")))
  | Some token =>
      let (pl, err) := verifyJWTandGetPayload jwtKey token now in
      match err with
      | Some e => Err (Unauthenticated e)
      | None => Ok (middleware.SetTokenToContext ctx pl)
      end
  end.

End Verify.

End interceptors.

(** ** Package handler: the user handlers *)
Module userhandler.

(** Modelled from the spec: the request and response messages of the
    user service, generated code of package proto that is not among the
    sources; [Register(login, password) -> (token, error)] and the same
    for [Login]. *)

Module RegiserRequest.
Record t : Type := mk { Login : string; Password : string }.
End RegiserRequest.

Module RegisterResponse.
Record t : Type := mk { Jwt : jwt.TokenString; Error : string }.
Definition zero : t := mk (jwt.Malformed "") "".
End RegisterResponse.

Module LoginRequest.
Record t : Type := mk { Login : string; Password : string }.
End LoginRequest.

Module LoginResponse.
Record t : Type := mk { Jwt : jwt.TokenString; Error : string }.
Definition zero : t := mk (jwt.Malformed "") "".
End LoginResponse.

Record UserHandler : Type := mkUserHandler {
  JWTkey : string
}.

(** [time.Minute] in nanoseconds *)
Definition Minute : Z := 60000000000.

Section User.
Context {H : Sha256} {J : JoseEncoding} {B : Bcrypt}
        {DB : Type} {Svc : services.UserService DB}.

(** getJWT generates a JWT token for the specified user ID and login
    using the provided JWT key, at the time [now] of [time.Now()]. *)
Definition getJWT (jwtKey : string) (id : Z) (login : string) (now : Z)
  : outcome jwt.TokenString :=
  let DefaultSession := 30%Z in
  let DefaultExpTime := (now + DefaultSession * Minute)%Z in
  let claims :=
    middleware.mkClaims id login (Some (jwt.NewNumericDate DefaultExpTime)) in
  try tokenString <- jwt.SignedString (list_byte_of_string jwtKey) claims
      wrap "failed signed jwt" ;;
  Ok tokenString.

(** Register handles the user registration gRPC call. *)
Definition Register (h : UserHandler) (in_ : RegiserRequest.t) (w : World DB)
  : outcome ((option RegisterResponse.t * option error) * World DB) :=
  let res := RegisterResponse.zero in
  let withError msg := RegisterResponse.mk (RegisterResponse.Jwt res) msg in
  if String.eqb (RegiserRequest.Login in_) ""
     || String.eqb (RegiserRequest.Password in_) ""
  then Ok ((Some (withError "login or password incorrect"), None), w)
  else
    let password := list_byte_of_string (RegiserRequest.Password in_) in
    let w := emit (CallGenerateFromPassword password) w in
    let '((hash, err), rnd) :=
      bcrypt_GenerateFromPassword password bcrypt_DefaultCost (w_rand w) in
    let w := setRand rnd w in
    match err with
    | Some e =>
        let w := emit (LogError "failed get hash from password" (Some e)) w in
        Ok ((Some (withError "internal server error"), None), w)
    | None =>
        let hashed := string_of_list_byte hash in
        let w := emit (CallCreateUser (RegiserRequest.Login in_) hashed) w in
        let '((user, err), db) :=
          services.CreateUser (w_db w) (RegiserRequest.Login in_) hashed in
        let w := setDB db w in
        match err with
        | Some e =>
            let w := emit (LogError "failed create user" (Some e)) w in
            let msg :=
              match errors.AsPgError e with
              | Some code =>
                  if String.eqb code gorm.UniqueViolation
                  then "this user exists" else "failed create user"
              | None => "failed create user"
              end in
            Ok ((Some (withError msg), None), w)
        | None =>
            match user with
            | None => Panic "runtime error: invalid memory address or nil pointer dereference"
            | Some user =>
                match getJWT (JWTkey h) (domain.User.ID user)
                             (domain.User.Login user) (w_now w) with
                | Panic m => Panic m
                | Err e =>
                    let w := emit (LogError "failed create jwt token" (Some e)) w in
                    Ok ((Some (withError "failed create jwt token"), None), w)
                | Ok token =>
                    Ok ((Some (RegisterResponse.mk token (RegisterResponse.Error res)),
                         None), w)
                end
            end
        end
    end.

(** Login handles the user login gRPC call. *)
Definition Login (h : UserHandler) (in_ : LoginRequest.t) (w : World DB)
  : outcome ((option LoginResponse.t * option error) * World DB) :=
  let res := LoginResponse.zero in
  let withError msg := LoginResponse.mk (LoginResponse.Jwt res) msg in
  let w := emit (CallFindUserByLogin (LoginRequest.Login in_)) w in
  let (user, err) := services.FindUserByLogin (w_db w) (LoginRequest.Login in_) in
  match err with
  | Some e =>
      let w := emit (LogError "failed get user" (Some e)) w in
      Ok ((Some (withError "failed get user"), None), w)
  | None =>
      match user with
      | None => Ok ((Some (withError "user not found"), None), w)
      | Some user =>
          let hash := list_byte_of_string (domain.User.Hash user) in
          let password := list_byte_of_string (LoginRequest.Password in_) in
          let w := emit (CallCompareHashAndPassword hash password) w in
          match bcrypt_CompareHashAndPassword hash password with
          | Some _ =>
              Ok ((Some (withError "login or password incorrect"), None), w)
          | None =>
              match getJWT (JWTkey h) (domain.User.ID user)
                           (domain.User.Login user) (w_now w) with
              | Panic m => Panic m
              | Err e =>
                  let w := emit (LogError "failed create jwt token" (Some e)) w in
                  Ok ((Some (withError "failed create jwt token"), None), w)
              | Ok token =>
                  Ok ((Some (LoginResponse.mk token (LoginResponse.Error res)),
                       None), w)
              end
          end
      end
  end.

End User.

End userhandler.

(** A stand-in for bcrypt, to run the user handlers on concrete inputs:
    sixteen bytes of salt from the random source, followed by the
    password xor-ed with the fold of the salt.  Like bcrypt it refuses
    passwords of more than 72 bytes. *)
Module xorcrypt.

Definition ErrPasswordTooLong : error :=
  errorString "bcrypt: password length exceeds 72 bytes".

Definition ErrMismatchedHashAndPassword : error :=
  errorString "crypto/bcrypt: hashedPassword is not the hash of the given password".

Definition seal (salt password : bytes) : bytes :=
  salt ++ map (byte_xor (fold_right byte_xor x00 salt)) password.

Definition GenerateFromPassword (password : bytes) (cost : Z) (rnd : entropy)
  : (bytes * option error) * entropy :=
  if (72 <? length password)%nat then (([], Some ErrPasswordTooLong), rnd)
  else if (16 <=? length rnd)%nat
       then ((seal (firstn 16 rnd) password, None), skipn 16 rnd)
       else (([], Some errRand), rnd).

Definition CompareHashAndPassword (hashedPassword password : bytes)
  : option error :=
  if bytes_eqb hashedPassword (seal (firstn 16 hashedPassword) password)
  then None else Some ErrMismatchedHashAndPassword.

Definition instance : Bcrypt := {|
  bcrypt_GenerateFromPassword := GenerateFromPassword;
  bcrypt_CompareHashAndPassword := CompareHashAndPassword
|}.

End xorcrypt.

(** The uniform contract of the unary handlers on a failure: a response
    is returned, its error field is populated, and the transport-level
    error is nil. *)
Definition businessFailure {R W : Type} (Error : R -> string)
           (result : outcome ((option R * option error) * W)) : Prop :=
  exists resp w, result = Ok ((Some resp, None), w) /\ Error resp <> "".

(** The specification's rule for the name and the kind of an upload,
    "first non-empty value of each wins", in its own words: the first
    string of the list that is not empty, and the empty string when there
    is none. *)
Fixpoint firstNonEmpty (values : list string) : string :=
  match values with
  | [] => ""
  | v :: rest => if String.eqb v "" then firstNonEmpty rest else v
  end.

(** The running value of a field that is set once: [current] unless it
    is still empty. *)
Definition keep (current candidate : string) : string :=
  if String.eqb current "" then candidate else current.

(** The end of an upload: nothing more to deliver, or an end-of-file. *)
Definition ends (tail : list (proto.WriteRecordRequest.t + error)) : Prop :=
  tail = [] \/ exists e rest, tail = inr e :: rest /\ errors.Is e io.EOF = true.

(** ** The server's main: the checks on the master key at start-up *)
Module servermain.

Definition minimumCharMasterKey : nat := 16.

(** The two checks of [main] on [eCfg.MasterKey]: the message of the
    fatal log line that stops the server, or nothing when it starts. *)
Definition checkMasterKey (MasterKey : string) : option string :=
  if String.eqb MasterKey "" then
    Some "Мастер-ключ не найден! Пожалуйста, используйте флаг -mk"
  else if (String.length MasterKey <? minimumCharMasterKey)%nat then
    Some "Минимальная длина мастер-ключа должна быть 16 символов!"
  else None.

End servermain.

(** ** Conditions on the collaborators *)

(** The store numbers its rows from its sequence: no row of the storage
    table carries an id beyond the last one handed out. *)
Definition numbered (db : gorm.DB) : Prop :=
  Forall (fun r => (domain.Storage.ID r <= gorm.storage_seq db)%Z)
         (gorm.storages db).

(** The law of a password hash: a hash that was generated for a password
    compares equal to it. *)
Definition Bcrypt_sound `{Bcrypt} : Prop :=
  forall password cost rnd hash rnd',
    bcrypt_GenerateFromPassword password cost rnd = ((hash, None), rnd') ->
    bcrypt_CompareHashAndPassword hash password = None.

(** The row the healthy store makes of a record: the record under the
    next id of the sequence. *)
Definition row_of (db : gorm.DB) (doc : domain.Storage.t) : domain.Storage.t :=
  domain.Storage.mk (gorm.storage_seq db + 1) (domain.Storage.Name doc)
    (domain.Storage.Type_ doc) (domain.Storage.Value doc)
    (domain.Storage.Key doc) (domain.Storage.Owner doc).

(** A login that some row of the user table carries. *)
Definition known (db : gorm.DB) (login : string) : bool :=
  existsb (fun u => String.eqb (domain.User.Login u) login) (gorm.users db).

(** What a stage of the upload handler did to the stream: [b] is [a]
    after the responses [more] were sent with [SendAndClose], and the
    results the closing side still holds were all held by [a]. *)
Definition answered (a b : stream.t)
           (more : list proto.WriteRecordResponse.t) : Prop :=
  stream.closed b = stream.closed a ++ more
  /\ incl (stream.closing b) (stream.closing a).

(** An error that wraps a failure of [SendAndClose] on the stream. *)
Definition close_error (a : stream.t) (e : error) : Prop :=
  exists c, In (Some c) (stream.closing a)
            /\ e = Errorf handler.errorCloseStream c.

(** The result of a stage of the upload handler that started on the
    stream [a]: the stage answered on the stream, and where it makes the
    handler return, it sent a response and returns the failure to close. *)
Definition stage_ok {DB : Type} (a : stream.t)
           (R : option error * @handler.frame DB) : Prop :=
  exists more,
    answered a (handler.strm (snd R)) more
    /\ forall e, fst R = Some e -> more <> [] /\ close_error a e.

(** ** Package middleware: the logger of the gRPC interceptors *)
Module zaplog.

(** The dynamic values handed to the logger as [fields ...any]: a
    [string], an [int], a [bool], a [logging.Level], or a value of any
    other type. *)
Inductive any : Type :=
| AString (s : string)
| AInt (i : Z)
| ABool (b : bool)
| ALevel (n : Z)
| AOther (repr : string).

(** [zap.String], [zap.Int], [zap.Bool] and [zap.Any], with their key. *)
Inductive Field : Type :=
| String_ (key : string) (v : string)
| Int_ (key : string) (v : Z)
| Bool_ (key : string) (v : bool)
| Any_ (key : string) (v : any).

(** [logging.Level]: the four named levels and any other number. *)
Inductive Level : Type :=
| LevelDebug
| LevelInfo
| LevelWarn
| LevelError
| LevelOther (n : Z).

Inductive ZapLevel : Type := Debug | Info | Warn | Error.

(** One call of [logger.Debug], [Info], [Warn] or [Error], with the
    fields the logger carried. *)
Record Entry : Type := mkEntry {
  level : ZapLevel;
  message : string;
  fields : list Field
}.

Definition errIndex : string := "runtime error: index out of range".
Definition errConversion : string :=
  "interface conversion: interface {} is not string".

(** [for i := 0; i < len(fields); i += 2 { key := fields[i];
    value := fields[i+1]; switch v := value.(type) {...} }]: the value is
    indexed before the key is asserted to be a string. *)
Fixpoint pairFields (fields : list any) : outcome (list Field) :=
  match fields with
  | [] => Ok []
  | [_] => Panic errIndex
  | key :: value :: rest =>
      match key with
      | AString k =>
          let field :=
            match value with
            | AString v => String_ k v
            | AInt v => Int_ k v
            | ABool v => Bool_ k v
            | ALevel _ | AOther _ => Any_ k value
            end in
          run f <- pairFields rest ;; Ok (field :: f)
      | _ => Panic errConversion
      end
  end.

(** The function [InterceptorLogger(l)] returns, applied to one log call
    of the interceptors: the calls it makes on [l]. *)
Definition InterceptorLogger (lvl : Level) (msg : string) (fields : list any)
  : outcome (list Entry) :=
  run f <- pairFields fields ;;
  match lvl with
  | LevelDebug => Ok [mkEntry Debug msg f]
  | LevelInfo => Ok [mkEntry Info msg f]
  | LevelWarn => Ok [mkEntry Warn msg f]
  | LevelError => Ok [mkEntry Error msg f]
  | LevelOther n =>
      Ok [mkEntry Error "неизвестный уровень"
                  (f ++ [Any_ "lvl" (ALevel n)]);
          mkEntry Warn "не удалось обработать сообщение"
                  (f ++ [String_ "msg" msg])]
  end.

(** The key and the value a field was made of. *)
Definition Key (f : Field) : string :=
  match f with
  | String_ k _ | Int_ k _ | Bool_ k _ | Any_ k _ => k
  end.

Definition Value (f : Field) : any :=
  match f with
  | String_ _ v => AString v
  | Int_ _ v => AInt v
  | Bool_ _ v => ABool v
  | Any_ _ v => v
  end.

(** The argument list [k1, v1, k2, v2, ...] of a log call that hands over
    values under string keys. *)
Definition ofPairs (kvs : list (string * any)) : list any :=
  flat_map (fun kv => [AString (fst kv); snd kv]) kvs.

End zaplog.

(** ** Package client: the agent's upload *)
Module client.

Definition maxMsgSize : Z := 100000648.

Definition errorResponseFinished : string := "ошибка завершения ответа".

(** [fmt.Errorf("ошибка возврата ответа: %w", resp.Error)]: the operand
    of [%w] is a string, not an error, and is printed as a bad verb. *)
Definition errorEesponseReturn (text : string) : error :=
  errorString ("ошибка возврата ответа: %!w(string=" ++ text ++ ")")%string.

(** The client side of the upload stream: the results the successive
    [Send] calls will have ([nil] once they are used up), the messages
    that were sent, what [CloseAndRecv] will return, and how often it was
    called. *)
Record Stream : Type := mkStream {
  sending : list (option error);
  sent : list proto.WriteRecordRequest.t;
  reply : proto.WriteRecordResponse.t + error;
  closes : nat
}.

Definition Send (m : proto.WriteRecordRequest.t) (s : Stream)
  : option error * Stream :=
  match sending s with
  | [] => (None, mkStream [] (sent s ++ [m]) (reply s) (closes s))
  | None :: rest => (None, mkStream rest (sent s ++ [m]) (reply s) (closes s))
  | Some e :: rest => (Some e, mkStream rest (sent s) (reply s) (closes s))
  end.

Definition CloseAndRecv (s : Stream)
  : (proto.WriteRecordResponse.t + error) * Stream :=
  (reply s, mkStream (sending s) (sent s) (reply s) (S (closes s))).

(** An opened file, as far as [WriteFile] looks at it: what [Stat]
    answers (the size or an error), what the successive [Read(buf)] calls
    deliver (the bytes [buf[:n]] or an error; a file reports [io.EOF]
    with [n = 0], and once the script is used up), and what [Close]
    answers. *)
Record File : Type := mkFile {
  stat : Z + error;
  reading : list (bytes + error);
  closing : option error
}.

(** The end of the reads: nothing more to deliver, or an end-of-file. *)
Definition finished (tail : list (bytes + error)) : Prop :=
  tail = [] \/ exists e rest, tail = inr e :: rest /\ errors.Is e io.EOF = true.

(** [stream.CloseAndRecv()] and the two checks that follow it; [format]
    is the message of the first. *)
Definition closeUpload (format : string) (s : Stream)
  : (option proto.WriteRecordResponse.t * option error) * Stream :=
  let (r, s) := CloseAndRecv s in
  match r with
  | inr e => ((None, Some (Errorf format e)), s)
  | inl resp =>
      if negb (String.eqb (proto.WriteRecordResponse.Error resp) "")
      then ((None, Some (errorEesponseReturn (proto.WriteRecordResponse.Error resp))), s)
      else ((Some resp, None), s)
  end.

(** The loop of the file case, by recursion on what the file still has
    to deliver: at [io.EOF] the stream is closed and the loop left,
    another error of [Read] is returned, otherwise the piece is sent
    under the name and the type "file".  The result is what the function
    returns from inside the loop, or the response the loop leaves in
    [resp]. *)
Fixpoint sendLoop (pending : list (bytes + error)) (name : string) (s : Stream)
  : (option proto.WriteRecordResponse.t * option error) * Stream :=
  match pending with
  | [] => closeUpload "ошибка CloseAndRecv" s
  | inr e :: _ =>
      if errors.Is e io.EOF then closeUpload "ошибка CloseAndRecv" s
      else ((None, Some (Errorf "ошибка чтения файла" e)), s)
  | inl piece :: rest =>
      let (err, s) := Send (proto.WriteRecordRequest.mk name "file" piece) s in
      match err with
      | Some e => ((None, Some (Errorf "ошибка отправки потока" e)), s)
      | None => sendLoop rest name s
      end
  end.

(** [WriteFile(typ, name, data)]: [files] is the file system ([os.Open]
    fails with [open] on a path it does not hold), [dial] the error of
    opening the stream, if any. *)
Definition WriteFile (typ name data : string) (files : string -> option File)
           (open : error) (dial : option error) (s : Stream)
  : (option proto.WriteRecordResponse.t * option error) * Stream :=
  match dial with
  | Some e => ((None, Some (Errorf errorResponseFinished e)), s)
  | None =>
      if String.eqb typ "text" then
        let (err, s) :=
          Send (proto.WriteRecordRequest.mk name "text" (list_byte_of_string data)) s in
        match err with
        | Some e => ((None, Some (Errorf "ошибка отправки потока" e)), s)
        | None => closeUpload "ошибка закрытия потока" s
        end
      else if String.eqb typ "file" then
        match files data with
        | None => ((None, Some (Errorf "ошибка открытия файла" open)), s)
        | Some file =>
            match stat file with
            | inr e =>
                ((None, Some (Errorf "ошибка чтения информации о файле" e)), s)
            | inl size =>
                if (maxMsgSize <? size)%Z then
                  ((None, Some (errorString
                      "максимальный размер файла должен быть меньше: 100000648 байт")), s)
                else
                  match sendLoop (reading file) name s with
                  | ((Some resp, _), s) =>
                      match closing file with
                      | Some e =>
                          ((None, Some (Errorf "ошибка закрытия файла" e)), s)
                      | None => ((Some resp, None), s)
                      end
                  | ret => ret
                  end
            end
        end
      else ((None, None), s)
  end.

End client.

(** ** Sample values

    Concrete inputs on which the development runs the code: a master key
    of 23 bytes, forty bytes of randomness, stores, callers and streams. *)

Definition sample_master_key : string := "0123456789abcdef-master".

Definition sample_entropy : entropy :=
  [x10; x32; x54; x76; x98; xba; xdc; xfe; x01; x23; x45; x67; x89; xab; xcd; xef;
   xa0; xa1; xa2; xa3; xa4; xa5; xa6; xa7; xa8; xa9; xaa; xab;
   xb0; xb1; xb2; xb3; xb4; xb5; xb6; xb7; xb8; xb9; xba; xbf].

Definition empty_store : gorm.DB := gorm.mkDB [] [] 0 0 None 0.

Definition sample_caller : middleware.JWTclaims :=
  middleware.mkClaims 1 "alice" None.

Definition sample_handler : handler.StorageHandler :=
  handler.mkStorageHandler sample_master_key.

(** A store with one text record of user 1 and one file record of user 2,
    the values sealed with the stand-in cipher. *)
Definition sample_store : gorm.DB :=
  gorm.mkDB
    [domain.Storage.mk 1 "note" "text"
       "sLGys7S1tre4ubq/*bG0EBAQEBAQEBAQEBAQEBAQE"
       "oKGio6Slpqeoqaqr*FjRScJ682vgHJUNhj63L6QYGBgYGBgYGBgYGBgYGBgY=" 1;
     domain.Storage.mk 2 "card.zip" "file"
       "sLGys7S1tre4ubq/*bG0EBAQEBAQEBAQEBAQEBAQE"
       "oKGio6Slpqeoqaqr*FjRScJ682vgHJUNhj63L6QYGBgYGBgYGBgYGBgYGBgY=" 2]
    [] 2 0 None 0.

Definition world_of (db : gorm.DB) : World gorm.DB :=
  mkWorld db sample_entropy 1700000000000000000 [].

Definition abc_def : list proto.WriteRecordRequest.t :=
  [proto.WriteRecordRequest.mk "" "" [x61; x62; x63];
   proto.WriteRecordRequest.mk "n" "text" [x64; x65; x66];
   proto.WriteRecordRequest.mk "other" "file" []].

Definition sample_issue_time : Z := 1700000000000000000.

Definition secret_with_zero : string :=
  ("secret" ++ String "000" EmptyString)%string.

Definition sample_user_handler : userhandler.UserHandler :=
  userhandler.mkUserHandler "secret".

(** A store in which the wrapped key of record 1 is no longer base64. *)
Definition damaged_store : gorm.DB :=
  gorm.mkDB
    [domain.Storage.mk 1 "note" "text"
       "sLGys7S1tre4ubq/*bG0EBAQEBAQEBAQEBAQEBAQE" "!!!!*????" 1]
    [] 1 0 None 0.

(** The end-to-end scenario of the specification on the sample
    instances: register, authenticate, upload one chunk, list, read,
    delete, read again.  The result collects what the caller is sent. *)
Definition scenario
  : outcome (list proto.StorageUnit.t
             * option proto.ReadRecordResponse.t
             * option proto.DeleteRecordResponse.t
             * option proto.ReadRecordResponse.t) :=
  let H := sha256.instance in
  let J := jose.instance in
  let B := xorcrypt.instance in
  let A := xorgcm.instance in
  let S := services.NewStorageService in
  let U := services.NewUserService in
  let w0 := mkWorld empty_store (sample_entropy ++ sample_entropy)
                    sample_issue_time [] in
  run (registered, w1) <-
    userhandler.Register sample_user_handler
      (userhandler.RegiserRequest.mk "alice" "pw1") w0 ;;
  let token :=
    match fst registered with
    | Some res => userhandler.RegisterResponse.Jwt res
    | None => jwt.Malformed ""
    end in
  run ctx <- interceptors.GetAuthenticator "secret" (Some token)
               (sample_issue_time + 1)%Z None ;;
  run (_, (_, w2)) <-
    handler.WriteRecord sample_handler
      (stream.mk ctx [inl (proto.WriteRecordRequest.mk "note" "text"
                             (list_byte_of_string "hello"))] [] []) w1 ;;
  let '(listed, w3) := handler.ReadAllRecord sample_handler ctx w2 in
  let units :=
    match fst listed with
    | Some res => proto.ReadAllRecordResponse.Units res
    | None => []
    end in
  run (read, w4) <-
    handler.ReadRecord sample_handler ctx (proto.ReadRecordRequest.mk 1) w3 ;;
  let '(deleted, w5) :=
    handler.DeleteRecord sample_handler ctx (proto.DeleteRecordRequest.mk 1) w4 in
  run (again, _) <-
    handler.ReadRecord sample_handler ctx (proto.ReadRecordRequest.mk 1) w5 ;;
  Ok (units, fst read, fst deleted, fst again).

(** The sample store while the database cannot be reached: every
    statement fails and no row is delivered. *)
Definition unreachable_store : gorm.DB :=
  gorm.mkDB (gorm.storages sample_store) [] 2 0
            (Some (errorString "connection refused")) 0.

(** A store in which the wrapped key of record 1 is base64 without the
    separator. *)
Definition cut_key_store : gorm.DB :=
  gorm.mkDB
    [domain.Storage.mk 1 "note" "text"
       "sLGys7S1tre4ubq/*bG0EBAQEBAQEBAQEBAQEBAQE" "QUJD" 1]
    [] 1 0 None 0.

(** A file system that holds one file of three bytes, read in two
    pieces, and a fresh upload stream whose server answers without error. *)
Definition sample_files (path : string) : option client.File :=
  if String.eqb path "/home/alice/card.zip"
  then Some (client.mkFile (inl 3%Z) [inl [x61; x62]; inl [x63]] None)
  else None.

Definition sample_upload : client.Stream :=
  client.mkStream [] [] (inl proto.WriteRecordResponse.zero) 0.

(* ================================================================= *)
(** * Properties *)

Example base64_abc :
  base64.EncodeToString [x61; x62; x63; x64] = "YWJjZA=="
  /\ base64.DecodeString "YWJjZA==" = Ok [x61; x62; x63; x64]
  /\ base64.DecodeString "YWJj" = Ok [x61; x62; x63]
  /\ base64.DecodeString "YW*j" = Err base64.CorruptInputError
  /\ base64.DecodeString "" = Ok [].
Proof. repeat split. Qed.

Example encrypt_runs :
  @encrypt xorgcm.instance (firstn 16 sample_entropy) [x68; x69]
           (skipn 28 sample_entropy)
  = Ok ("sLGys7S1tre4ubq/*bG0EBAQEBAQEBAQEBAQEBAQE", []).
Proof. vm_compute. reflexivity. Qed.

(** ** Base64 *)

Ltac Zify.zify_post_hook ::= Z.to_euclidean_division_equations.

Lemma small_N_cases (P : N -> Prop) :
  (forall k : nat, (k < 64)%nat -> P (N.of_nat k)) ->
  forall n : N, (n < 64)%N -> P n.
Proof.
  intros H n Hn. rewrite <- (N2Nat.id n). apply H. lia.
Qed.

Lemma base64_digit_value (n : N) :
  (n < 64)%N -> base64.value (base64.digit n) = Some n.
Proof.
  revert n. apply small_N_cases. intros k Hk.
  do 64 (destruct k as [|k]; [reflexivity|]). lia.
Qed.

Lemma base64_digit_plain (n : N) :
  (n < 64)%N ->
  Ascii.eqb (base64.digit n) base64.padChar = false
  /\ Ascii.eqb (base64.digit n) "*" = false
  /\ base64.is_newline (base64.digit n) = false.
Proof.
  revert n. apply small_N_cases. intros k Hk.
  do 64 (destruct k as [|k]; [repeat split|]). lia.
Qed.

Lemma base64_byte_of_to_N (b : byte) (n : N) :
  (n mod 256 = Byte.to_N b)%N -> byte_of_N n = b.
Proof.
  intros H. unfold byte_of_N. rewrite H, Byte.of_to_N. reflexivity.
Qed.

Lemma base64_digit_at_value (val shift : N) :
  base64.value (base64.digit_at val shift) = Some ((val / 2 ^ shift) mod 64)%N.
Proof.
  unfold base64.digit_at. apply base64_digit_value.
  apply N.mod_upper_bound. discriminate.
Qed.

Lemma base64_digit_at_plain (val shift : N) :
  Ascii.eqb (base64.digit_at val shift) base64.padChar = false
  /\ Ascii.eqb (base64.digit_at val shift) "*" = false
  /\ base64.is_newline (base64.digit_at val shift) = false.
Proof.
  unfold base64.digit_at. apply base64_digit_plain.
  apply N.mod_upper_bound. discriminate.
Qed.

Lemma base64_group_bytes (a b c : byte) :
  let val := base64.group a b c in
  ((val / 65536) mod 256 = Byte.to_N a
   /\ (val / 256) mod 256 = Byte.to_N b
   /\ val mod 256 = Byte.to_N c)%N.
Proof.
  intros val. subst val. unfold base64.group.
  pose proof (Byte.to_N_bounded a). pose proof (Byte.to_N_bounded b).
  pose proof (Byte.to_N_bounded c). lia.
Qed.

Lemma base64_group_digits (a b c : byte) :
  let val := base64.group a b c in
  base64.quantum ((val / 2 ^ 18) mod 64) ((val / 2 ^ 12) mod 64)
                 ((val / 2 ^ 6) mod 64) ((val / 2 ^ 0) mod 64) = val.
Proof.
  intros val. subst val. unfold base64.quantum, base64.group.
  pose proof (Byte.to_N_bounded a). pose proof (Byte.to_N_bounded b).
  pose proof (Byte.to_N_bounded c).
  change (2 ^ 18)%N with 262144%N. change (2 ^ 12)%N with 4096%N.
  change (2 ^ 6)%N with 64%N. change (2 ^ 0)%N with 1%N. lia.
Qed.

Lemma base64_group_digits_2 (a b : byte) :
  let val := base64.group a b x00 in
  base64.quantum ((val / 2 ^ 18) mod 64) ((val / 2 ^ 12) mod 64)
                 ((val / 2 ^ 6) mod 64) 0 = val.
Proof.
  intros val. subst val. unfold base64.quantum, base64.group.
  pose proof (Byte.to_N_bounded a). pose proof (Byte.to_N_bounded b).
  change (Byte.to_N x00) with 0%N.
  change (2 ^ 18)%N with 262144%N. change (2 ^ 12)%N with 4096%N.
  change (2 ^ 6)%N with 64%N. lia.
Qed.

Lemma base64_group_digits_1 (a : byte) :
  let val := base64.group a x00 x00 in
  base64.quantum ((val / 2 ^ 18) mod 64) ((val / 2 ^ 12) mod 64) 0 0 = val.
Proof.
  intros val. subst val. unfold base64.quantum, base64.group.
  pose proof (Byte.to_N_bounded a).
  change (Byte.to_N x00) with 0%N.
  change (2 ^ 18)%N with 262144%N. change (2 ^ 12)%N with 4096%N. lia.
Qed.

Lemma base64_out3_group (a b c : byte) :
  base64.out3 (base64.group a b c) = [a; b; c].
Proof.
  destruct (base64_group_bytes a b c) as (Ha & Hb & Hc).
  unfold base64.out3. f_equal; [|f_equal; [|f_equal]];
    apply base64_byte_of_to_N; [| |exact Hc].
  - rewrite <- Ha. reflexivity.
  - rewrite <- Hb. reflexivity.
Qed.

Lemma base64_out2_group (a b c : byte) :
  base64.out2 (base64.group a b c) = [a; b].
Proof.
  pose proof (base64_out3_group a b c) as H. unfold base64.out3 in H.
  unfold base64.out2. congruence.
Qed.

Lemma base64_out1_group (a b c : byte) :
  base64.out1 (base64.group a b c) = [a].
Proof.
  pose proof (base64_out3_group a b c) as H. unfold base64.out3 in H.
  unfold base64.out1. congruence.
Qed.

Lemma list_ind3 {A} (P : list A -> Prop) :
  P [] -> (forall a, P [a]) -> (forall a b, P [a; b]) ->
  (forall a b c rest, P rest -> P (a :: b :: c :: rest)) ->
  forall l, P l.
Proof.
  intros H0 H1 H2 H3.
  fix IH 1. intros [|a [|b [|c rest]]].
  - exact H0.
  - apply H1.
  - apply H2.
  - apply H3, IH.
Qed.

Lemma base64_decode_full_digits (a b c : byte) :
  let val := base64.group a b c in
  base64.decode_full (base64.digit_at val 18) (base64.digit_at val 12)
                     (base64.digit_at val 6) (base64.digit_at val 0)
  = Some [a; b; c].
Proof.
  intros val. unfold base64.decode_full.
  rewrite !base64_digit_at_value. subst val.
  rewrite base64_group_digits, base64_out3_group. reflexivity.
Qed.

Lemma base64_decode_last_digits (a b c : byte) :
  let val := base64.group a b c in
  base64.decode_last (base64.digit_at val 18) (base64.digit_at val 12)
                     (base64.digit_at val 6) (base64.digit_at val 0)
  = Some [a; b; c].
Proof.
  intros val. unfold base64.decode_last.
  rewrite !base64_digit_at_value.
  destruct (base64_digit_at_plain val 6) as (-> & _).
  destruct (base64_digit_at_plain val 0) as (-> & _). subst val.
  rewrite base64_group_digits, base64_out3_group. reflexivity.
Qed.

Lemma base64_encode_nil (src : bytes) : base64.encode src = [] -> src = [].
Proof. destruct src as [|a [|b [|c rest]]]; simpl; congruence. Qed.

Lemma base64_decode_encode (src : bytes) :
  base64.decode (base64.encode src) = Some src.
Proof.
  induction src as [|a|a b|a b c rest IH] using list_ind3.
  - reflexivity.
  - cbn [base64.encode base64.decode]. unfold base64.decode_last.
    rewrite !base64_digit_at_value, !Ascii.eqb_refl.
    rewrite base64_group_digits_1, base64_out1_group. reflexivity.
  - cbn [base64.encode base64.decode]. unfold base64.decode_last.
    rewrite !base64_digit_at_value, Ascii.eqb_refl.
    destruct (base64_digit_at_plain (base64.group a b x00) 6) as (-> & _).
    rewrite base64_group_digits_2, base64_out2_group. reflexivity.
  - cbn [base64.encode base64.decode].
    destruct (base64.encode rest) as [|d ds] eqn:E.
    + apply base64_encode_nil in E. subst rest.
      apply base64_decode_last_digits.
    + rewrite base64_decode_full_digits, IH. reflexivity.
Qed.

Lemma base64_encode_plain (src : bytes) :
  Forall (fun c => Ascii.eqb c "*" = false /\ base64.is_newline c = false)
         (base64.encode src).
Proof.
  induction src as [|a|a b|a b c rest IH] using list_ind3;
    cbn [base64.encode];
    repeat (apply Forall_cons;
            [first [ split; reflexivity
                   | split; apply base64_digit_at_plain ] |]);
    auto.
Qed.

Lemma base64_DecodeString_EncodeToString (src : bytes) :
  base64.DecodeString (base64.EncodeToString src) = Ok src.
Proof.
  unfold base64.DecodeString, base64.EncodeToString.
  rewrite list_ascii_of_string_of_list_ascii.
  replace (filter _ (base64.encode src)) with (base64.encode src).
  - rewrite base64_decode_encode. reflexivity.
  - symmetry. apply forallb_filter_id. apply forallb_forall.
    intros c Hc. pose proof (base64_encode_plain src) as F.
    rewrite Forall_forall in F. destruct (F c Hc) as (_ & ->). reflexivity.
Qed.

Lemma string_Contains_app (s t : string) (sep : ascii) :
  strings.Contains (s ++ t)%string sep
  = strings.Contains s sep || strings.Contains t sep.
Proof.
  induction s as [|c s IH]; simpl; [reflexivity|].
  rewrite IH, orb_assoc. reflexivity.
Qed.

Lemma base64_EncodeToString_no_star (src : bytes) :
  strings.Contains (base64.EncodeToString src) "*" = false.
Proof.
  unfold base64.EncodeToString.
  pose proof (base64_encode_plain src) as F.
  induction F as [|c cs (Hc & _) _ IH]; simpl; [reflexivity|].
  rewrite Hc, IH. reflexivity.
Qed.

(** ** strings.Split *)

Lemma strings_Split_no_sep (s : string) (sep : ascii) :
  strings.Contains s sep = false -> strings.Split s sep = [s].
Proof.
  induction s as [|c s IH]; simpl; [reflexivity|].
  intros H. apply orb_false_iff in H as (-> & H).
  rewrite (IH H). reflexivity.
Qed.

Lemma strings_Split_at_sep (s t : string) (sep : ascii) :
  strings.Contains s sep = false ->
  strings.Split (s ++ String sep t)%string sep = s :: strings.Split t sep.
Proof.
  induction s as [|c s IH]; simpl.
  - intros _. rewrite Ascii.eqb_refl. reflexivity.
  - intros H. apply orb_false_iff in H as (-> & H).
    rewrite (IH H). reflexivity.
Qed.

Lemma strings_Split_length (s : string) (sep : ascii) :
  strings.Contains s sep = false -> length (strings.Split s sep) = 1%nat.
Proof. intros H. rewrite strings_Split_no_sep by exact H. reflexivity. Qed.

(** ** The stand-in cipher obeys the AEAD law *)

Lemma byte_xor_involutive (k a : byte) : byte_xor k (byte_xor k a) = a.
Proof.
  unfold byte_xor.
  destruct (Byte.to_bits k) as (k0 & k1 & k2 & k3 & k4 & k5 & k6 & k7) eqn:Ek.
  destruct (Byte.to_bits a) as (a0 & a1 & a2 & a3 & a4 & a5 & a6 & a7) eqn:Ea.
  rewrite Byte.to_bits_of_bits.
  rewrite <- !xorb_assoc, !xorb_nilpotent, !xorb_false_l.
  rewrite <- Ea. apply Byte.of_bits_to_bits.
Qed.

Lemma xorgcm_sound : @AesGcm_sound xorgcm.instance.
Proof.
  intros key nonce plaintext _ _. cbn [gcm_open gcm_seal xorgcm.instance].
  unfold xorgcm.open, xorgcm.seal.
  set (k := xorgcm.pad key nonce).
  rewrite length_app, length_map, repeat_length.
  replace (length plaintext + xorgcm.tagSize - xorgcm.tagSize)%nat
    with (length (map (byte_xor k) plaintext)) by (rewrite length_map; lia).
  rewrite skipn_app, skipn_all, Nat.sub_diag, firstn_app, firstn_all,
    Nat.sub_diag. cbn [skipn firstn app]. rewrite app_nil_r.
  replace (xorgcm.tagSize <=? _ + _)%nat with true
    by (symmetry; apply Nat.leb_le; lia).
  unfold bytes_eqb.
  destruct (list_eq_dec _ _ _) as [_|N]; [|contradiction]. cbn [andb].
  rewrite map_map. f_equal. rewrite <- (map_id plaintext) at 2.
  apply map_ext. intros a. apply byte_xor_involutive.
Qed.

(** ** Key-length normalization *)

Lemma adjustKeySize_firstn (key : bytes) (n : nat) :
  adjustKeySize key n = firstn n key.
Proof.
  unfold adjustKeySize. destruct (n <? length key)%nat eqn:E; [reflexivity|].
  apply Nat.ltb_ge in E. symmetry. apply firstn_all2. exact E.
Qed.

Lemma adjustKeySize_idempotent (key : bytes) (n : nat) :
  adjustKeySize (adjustKeySize key n) n = adjustKeySize key n.
Proof.
  rewrite !adjustKeySize_firstn, firstn_firstn, Nat.min_id. reflexivity.
Qed.

Lemma adjustKeySize_length (key : bytes) (n : nat) :
  length (adjustKeySize key n) = Nat.min n (length key).
Proof. rewrite adjustKeySize_firstn. apply length_firstn. Qed.

(** ** encrypt and decrypt *)

Section CryptoFacts.
Context {aead : AesGcm}.

Lemma generateRandom_enough (size : nat) (rnd : entropy) :
  (size <= length rnd)%nat ->
  generateRandom size rnd = Ok (firstn size rnd, skipn size rnd).
Proof.
  intros H. unfold generateRandom.
  apply Nat.leb_le in H. rewrite H. reflexivity.
Qed.

Lemma generateRandom_inv (size : nat) (rnd : entropy) (b : bytes) (rnd' : entropy) :
  generateRandom size rnd = Ok (b, rnd') ->
  length b = size /\ rnd = b ++ rnd'.
Proof.
  unfold generateRandom. destruct (size <=? length rnd)%nat eqn:E; [|discriminate].
  intros [= <- <-]. apply Nat.leb_le in E. split.
  - rewrite length_firstn. lia.
  - symmetry. apply firstn_skipn.
Qed.

(** What [encrypt] returns when it returns. *)
Lemma encrypt_inv (key plaintext : bytes) (rnd : entropy) (s : string) (rnd' : entropy) :
  encrypt key plaintext rnd = Ok (s, rnd') ->
  exists nonce,
    aes.valid_key_size (length (adjustKeySize key sizeRandomKey)) = true
    /\ length nonce = cipher.NonceSize
    /\ rnd = nonce ++ rnd'
    /\ s = (base64.EncodeToString nonce ++ "*" ++
            base64.EncodeToString
              (gcm_seal (adjustKeySize key sizeRandomKey) nonce plaintext))%string.
Proof.
  unfold encrypt, aes.NewCipher, cipher.NewGCM, cipher.Seal.
  destruct (aes.valid_key_size _) eqn:K; cbn [orfail]; [|discriminate].
  destruct (generateRandom cipher.NonceSize rnd) as [[nonce r]| |] eqn:G;
    cbn [orfail]; try discriminate.
  apply generateRandom_inv in G as (L & ->).
  rewrite L, Nat.eqb_refl. cbn [bind]. intros [= <- <-].
  exists nonce. auto.
Qed.

Lemma encrypt_total (key plaintext : bytes) (rnd : entropy) :
  (sizeRandomKey <= length key)%nat ->
  (cipher.NonceSize <= length rnd)%nat ->
  exists s, encrypt key plaintext rnd = Ok (s, skipn cipher.NonceSize rnd).
Proof.
  intros Hk Hr. unfold encrypt, aes.NewCipher, cipher.NewGCM, cipher.Seal.
  rewrite adjustKeySize_length, Nat.min_l by exact Hk. cbn [aes.valid_key_size orfail sizeRandomKey Nat.eqb orb].
  rewrite (generateRandom_enough _ _ Hr). cbn [orfail].
  rewrite length_firstn, Nat.min_l, Nat.eqb_refl by exact Hr. cbn [bind].
  eexists. reflexivity.
Qed.

(** [decrypt] on a string of the shape [encrypt] produces. *)
Lemma decrypt_encoded (key nonce sealed : bytes) :
  decrypt key (base64.EncodeToString nonce ++ "*" ++
               base64.EncodeToString sealed)%string
  = try block <- aes.NewCipher (adjustKeySize key sizeRandomKey)
        wrap "failed to create AES cipher" ;;
    try dst <- cipher.Open block nonce sealed wrap "failed open decrypts" ;;
    Ok dst.
Proof.
  unfold decrypt.
  change ("*" ++ base64.EncodeToString sealed)%string
    with (String "*" (base64.EncodeToString sealed)).
  rewrite strings_Split_at_sep by apply base64_EncodeToString_no_star.
  rewrite strings_Split_no_sep by apply base64_EncodeToString_no_star.
  cbn [index nth_error bind].
  rewrite !base64_DecodeString_EncodeToString. cbn [orfail].
  unfold cipher.NewGCM. destruct (aes.NewCipher _); reflexivity.
Qed.

Lemma decrypt_encrypt (sound : AesGcm_sound)
      (key plaintext : bytes) (rnd : entropy) (s : string) (rnd' : entropy) :
  encrypt key plaintext rnd = Ok (s, rnd') ->
  decrypt key s = Ok plaintext.
Proof.
  intros H. apply encrypt_inv in H as (nonce & K & L & _ & ->).
  rewrite decrypt_encoded. unfold aes.NewCipher, cipher.Open.
  rewrite K. cbn [orfail]. rewrite L, Nat.eqb_refl.
  rewrite (sound _ _ _ K L). reflexivity.
Qed.

(** Without the separator [decrypt] either reports the base64 error of
    the whole input or, when the input happens to decode, indexes past
    the end of the one-element split. *)
Lemma decrypt_without_separator (key : bytes) (s : string) :
  strings.Contains s "*" = false ->
  decrypt key s =
  match base64.DecodeString s with
  | Ok _ => Panic "runtime error: index out of range"
  | Err e => Err (Errorf "failed decode base64" e)
  | Panic m => Panic m
  end.
Proof.
  intros H. unfold decrypt. rewrite (strings_Split_no_sep _ _ H).
  cbn [index nth_error bind]. destruct (base64.DecodeString s); reflexivity.
Qed.

End CryptoFacts.

Lemma list_byte_of_string_length (s : string) :
  length (list_byte_of_string s) = String.length s.
Proof.
  unfold list_byte_of_string. rewrite length_map.
  induction s as [|c s IH]; simpl; congruence.
Qed.

Section EnvelopeFacts.
Context {aead : AesGcm}.

Lemma encrypt_normalized (key plaintext : bytes) (rnd : entropy) :
  encrypt key plaintext rnd
  = encrypt (adjustKeySize key sizeRandomKey) plaintext rnd.
Proof. unfold encrypt. rewrite adjustKeySize_idempotent. reflexivity. Qed.

Lemma decrypt_normalized (key : bytes) (encoded : string) :
  decrypt key encoded = decrypt (adjustKeySize key sizeRandomKey) encoded.
Proof. unfold decrypt. rewrite adjustKeySize_idempotent. reflexivity. Qed.

Lemma encryptionData_inv (mk : string) (data : bytes) (rnd : entropy)
      (encData encKey : string) (rnd' : entropy) :
  encryptionData mk data rnd = Ok ((encData, encKey), rnd') ->
  exists key rnd1 rnd2,
    generateRandom sizeRandomKey rnd = Ok (key, rnd1)
    /\ encrypt (list_byte_of_string mk) key rnd1 = Ok (encKey, rnd2)
    /\ encrypt key data rnd2 = Ok (encData, rnd').
Proof.
  unfold encryptionData.
  destruct (generateRandom sizeRandomKey rnd) as [[key rnd1]| |] eqn:G;
    cbn [orfail]; try discriminate.
  destruct (encrypt (list_byte_of_string mk) key rnd1) as [[k r2]| |] eqn:E1;
    cbn [orfail]; try discriminate.
  destruct (encrypt key data r2) as [[d r3]| |] eqn:E2;
    cbn [orfail]; try discriminate.
  intros E. injection E as <- <- <-. exists key, rnd1, r2. auto.
Qed.

Lemma encryptionData_total (mk : string) (data : bytes) (rnd : entropy) :
  (sizeRandomKey <= String.length mk)%nat ->
  (sizeRandomKey + 2 * cipher.NonceSize <= length rnd)%nat ->
  exists encData encKey rnd',
    encryptionData mk data rnd = Ok ((encData, encKey), rnd').
Proof.
  intros Hm Hr. unfold encryptionData.
  assert (H16 : (sizeRandomKey <= length rnd)%nat) by lia.
  rewrite (generateRandom_enough _ _ H16). cbn [orfail].
  destruct (encrypt_total (list_byte_of_string mk) (firstn sizeRandomKey rnd)
              (skipn sizeRandomKey rnd)) as (encKey & E1).
  { rewrite list_byte_of_string_length. exact Hm. }
  { rewrite length_skipn. lia. }
  rewrite E1. cbn [orfail].
  destruct (encrypt_total (firstn sizeRandomKey rnd) data
              (skipn cipher.NonceSize (skipn sizeRandomKey rnd))) as (encData & E2).
  { rewrite length_firstn. lia. }
  { rewrite !length_skipn. lia. }
  rewrite E2. cbn [orfail]. eauto.
Qed.

Lemma decryptionData_encryptionData (sound : AesGcm_sound)
      (mk : string) (data : bytes) (rnd : entropy)
      (encData encKey : string) (rnd' : entropy) :
  encryptionData mk data rnd = Ok ((encData, encKey), rnd') ->
  decryptionData mk encKey encData = Ok data.
Proof.
  intros H. apply encryptionData_inv in H as (key & rnd1 & rnd2 & _ & E1 & E2).
  unfold decryptionData.
  rewrite (decrypt_encrypt sound _ _ _ _ _ E1). cbn [orfail].
  rewrite (decrypt_encrypt sound _ _ _ _ _ E2). reflexivity.
Qed.

End EnvelopeFacts.

(** C1. Envelope round trip: with a master key of sixteen bytes or more
    the write path succeeds whenever the random source delivers the
    record key and the two nonces, and for every random key and nonces it
    drew, [decryptionData] with the same master key on the pair it
    returned gives the plaintext back. *)
Theorem envelope_round_trip {aead : AesGcm} (sound : AesGcm_sound)
        (m : string) (p : bytes) (rnd : entropy) :
  (16 <= String.length m)%nat ->
  ((sizeRandomKey + 2 * cipher.NonceSize <= length rnd)%nat ->
   exists data key rnd', encryptionData m p rnd = Ok ((data, key), rnd'))
  /\ (forall data key rnd',
         encryptionData m p rnd = Ok ((data, key), rnd') ->
         decryptionData m key data = Ok p).
Proof.
  intros Hm. split.
  - intros Hr. apply encryptionData_total; assumption.
  - intros data key rnd' H.
    exact (decryptionData_encryptionData sound _ _ _ _ _ _ H).
Qed.

Lemma envelope_round_trip_witness :
  (16 <= String.length sample_master_key)%nat
  /\ exists data key rnd',
       @encryptionData xorgcm.instance sample_master_key [x68; x69] sample_entropy
       = Ok ((data, key), rnd')
       /\ @decryptionData xorgcm.instance sample_master_key key data
          = Ok [x68; x69].
Proof.
  assert (Hm : (16 <= String.length sample_master_key)%nat) by (simpl; lia).
  split; [exact Hm|].
  destruct (@envelope_round_trip xorgcm.instance xorgcm_sound
              sample_master_key [x68; x69] sample_entropy Hm) as (T & R).
  destruct T as (data & key & rnd' & E); [simpl; lia|].
  exists data, key, rnd'. split; [exact E|exact (R _ _ _ E)].
Defined.

Example envelope_on_sample :
  @encryptionData xorgcm.instance sample_master_key [x68; x69] sample_entropy
  = Ok (("sLGys7S1tre4ubq/*bG0EBAQEBAQEBAQEBAQEBAQE",
         "oKGio6Slpqeoqaqr*FjRScJ682vgHJUNhj63L6QYGBgYGBgYGBgYGBgYGBgY="), []).
Proof. vm_compute. reflexivity. Qed.

(** C8. Key-length normalization: [adjustKeySize] with the engine's size
    of sixteen returns exactly the first sixteen bytes of a longer key and
    returns a key of sixteen bytes or fewer unchanged; [encrypt] and
    [decrypt] see every key through it, so the pipeline depends on the
    master key only through its normalized form, and a generated record
    key, being sixteen bytes long, is its own normal form. *)
Theorem adjustKeySize_normalizes {aead : AesGcm} (key : bytes) :
  ((16 < length key)%nat ->
   adjustKeySize key sizeRandomKey = firstn 16 key
   /\ length (adjustKeySize key sizeRandomKey) = 16%nat)
  /\ ((length key <= 16)%nat -> adjustKeySize key sizeRandomKey = key)
  /\ (forall plaintext rnd,
         encrypt key plaintext rnd
         = encrypt (adjustKeySize key sizeRandomKey) plaintext rnd)
  /\ (forall encoded,
         decrypt key encoded = decrypt (adjustKeySize key sizeRandomKey) encoded)
  /\ (forall data rnd,
         encryptionData (string_of_list_byte key) data rnd
         = encryptionData
             (string_of_list_byte (adjustKeySize key sizeRandomKey)) data rnd)
  /\ (forall wrapped cipherValue,
         decryptionData (string_of_list_byte key) wrapped cipherValue
         = decryptionData
             (string_of_list_byte (adjustKeySize key sizeRandomKey))
             wrapped cipherValue)
  /\ (forall rnd recordKey rnd',
         generateRandom sizeRandomKey rnd = Ok (recordKey, rnd') ->
         adjustKeySize recordKey sizeRandomKey = recordKey).
Proof.
  repeat split.
  - apply adjustKeySize_firstn.
  - rewrite adjustKeySize_length. apply Nat.min_l.
    change sizeRandomKey with 16%nat. lia.
  - intros H. rewrite adjustKeySize_firstn. apply firstn_all2. exact H.
  - intros. apply encrypt_normalized.
  - intros. apply decrypt_normalized.
  - intros data rnd. unfold encryptionData.
    rewrite !list_byte_of_string_of_list_byte.
    destruct (generateRandom sizeRandomKey rnd) as [[k r]| |]; cbn [orfail];
      try reflexivity.
    rewrite encrypt_normalized. reflexivity.
  - intros wrapped cipherValue. unfold decryptionData.
    rewrite !list_byte_of_string_of_list_byte, decrypt_normalized. reflexivity.
  - intros rnd recordKey rnd' G. apply generateRandom_inv in G as (L & _).
    rewrite adjustKeySize_firstn. apply firstn_all2. rewrite L. reflexivity.
Qed.

Lemma adjustKeySize_normalizes_witness :
  adjustKeySize (list_byte_of_string sample_master_key) sizeRandomKey
  = list_byte_of_string "0123456789abcdef"
  /\ adjustKeySize [x6b; x65; x79] sizeRandomKey = [x6b; x65; x79]
  /\ adjustKeySize (firstn 16 sample_entropy) sizeRandomKey
     = firstn 16 sample_entropy.
Proof.
  pose proof (@adjustKeySize_normalizes xorgcm.instance
                (list_byte_of_string sample_master_key)) as (Hlong & _).
  pose proof (@adjustKeySize_normalizes xorgcm.instance [x6b; x65; x79])
    as (_ & Hshort & _).
  pose proof (@adjustKeySize_normalizes xorgcm.instance [])
    as (_ & _ & _ & _ & _ & _ & Hrec).
  split; [|split].
  - apply Hlong. simpl. lia.
  - apply Hshort. simpl. lia.
  - apply (Hrec sample_entropy _ (skipn 16 sample_entropy)). reflexivity.
Defined.

(** C3. The claim asks that [decrypt] reject every input without the
    ["*"] separator by returning an error.  The code splits and then
    indexes the second piece without looking at the number of pieces: on
    the empty string, and on any separator-free string that is valid
    base64, the first piece decodes and the access to [splStr[1]] panics,
    whatever the key and the cipher. *)
Theorem decrypt_missing_separator_panics {aead : AesGcm} (key : bytes) :
  decrypt key "" = Panic "runtime error: index out of range"
  /\ decrypt key "QUJD" = Panic "runtime error: index out of range"
  /\ decrypt key "not base64"
     = Err (Errorf "failed decode base64" base64.CorruptInputError).
Proof.
  repeat split; rewrite decrypt_without_separator; reflexivity.
Qed.

(** A string with more than one separator is not rejected either: the
    pieces after the second are ignored. *)
Example decrypt_ignores_trailing_pieces :
  @decrypt xorgcm.instance (firstn 16 sample_entropy)
           "sLGys7S1tre4ubq/*bG0EBAQEBAQEBAQEBAQEBAQE*anything*else"
  = Ok [x68; x69].
Proof. vm_compute. reflexivity. Qed.

(** ** The owner-scoped queries of the repository *)

Lemma repository_ReadRecord_absent (db : gorm.DB) (id owner : Z) :
  (forall row, In row (gorm.storages db) ->
               domain.Storage.ID row = id -> domain.Storage.Owner row <> owner) ->
  repository.ReadRecord db id owner = (None, None).
Proof.
  intros H. unfold repository.ReadRecord, gorm.FirstStorage.
  destruct (find _ (gorm.storages db)) as [row|] eqn:F.
  - apply find_some in F as (Hin & Hb).
    apply andb_true_iff in Hb as (Hid & Ho).
    apply Z.eqb_eq in Hid, Ho. exfalso. exact (H row Hin Hid Ho).
  - destruct (gorm.fault db); [|reflexivity].
    destruct (gorm.delivered db); reflexivity.
Qed.

Lemma repository_ReadAllRecord_absent (db : gorm.DB) (owner : Z) :
  (forall row, In row (gorm.storages db) -> domain.Storage.Owner row <> owner) ->
  repository.ReadAllRecord db owner = ([], None).
Proof.
  intros H. unfold repository.ReadAllRecord, gorm.FindStorageByOwner.
  replace (filter _ (gorm.storages db)) with (@nil domain.Storage.t).
  - cbn [map]. rewrite firstn_nil. destruct (gorm.fault db); reflexivity.
  - symmetry. induction (gorm.storages db) as [|r rs IH]; [reflexivity|].
    cbn [filter].
    destruct (Z.eqb_spec (domain.Storage.Owner r) owner) as [E|_].
    + exfalso. exact (H r (or_introl eq_refl) E).
    + apply IH. intros row Hin. apply H. right. exact Hin.
Qed.

Lemma repository_ReadAllRecord_rows (db : gorm.DB) (owner : Z) :
  gorm.fault db = None ->
  repository.ReadAllRecord db owner
  = (map gorm.select_id_name_owner
         (filter (fun r => domain.Storage.Owner r =? owner)%Z (gorm.storages db)),
     None).
Proof.
  intros F. unfold repository.ReadAllRecord, gorm.FindStorageByOwner. rewrite F.
  cbn [gorm.RowsAffected gorm.Error gorm.dest].
  destruct (map _ _) as [|r rs]; reflexivity.
Qed.

Lemma repository_ReadAllRecord_fault (db : gorm.DB) (owner : Z) (e : error) :
  gorm.fault db = Some e ->
  gorm.delivered db = 0%nat ->
  repository.ReadAllRecord db owner = ([], None).
Proof.
  intros F D. unfold repository.ReadAllRecord, gorm.FindStorageByOwner.
  rewrite F, D. reflexivity.
Qed.

(** ** The read handlers *)

Section ReadFacts.
Context {aead : AesGcm} {DB : Type} {Svc : services.StorageService DB}.

Lemma ReadRecord_empty_lookup (s : handler.StorageHandler)
      (caller : middleware.JWTclaims) (id : Z) (w : World DB) :
  services.ReadRecord (w_db w) id (middleware.ID caller) = (None, None) ->
  handler.ReadRecord s (Some caller) (proto.ReadRecordRequest.mk id) w
  = Ok ((Some (proto.ReadRecordResponse.mk "" "" [] "record not found"), None),
        emit (CallReadRecord id (middleware.ID caller)) w).
Proof.
  intros H. unfold handler.ReadRecord.
  cbn [middleware.GetTokenFromContext negb proto.ReadRecordRequest.Id emit w_db].
  rewrite H. reflexivity.
Qed.

Lemma ReadAllRecord_empty_lookup (s : handler.StorageHandler)
      (caller : middleware.JWTclaims) (w : World DB) :
  services.ReadAllRecord (w_db w) (middleware.ID caller) = ([], None) ->
  handler.ReadAllRecord s (Some caller) w
  = ((Some (proto.ReadAllRecordResponse.mk [] ""), None),
     emit (CallReadAllRecord (middleware.ID caller)) w).
Proof.
  intros H. unfold handler.ReadAllRecord.
  cbn [middleware.GetTokenFromContext negb emit w_db].
  rewrite H. reflexivity.
Qed.

End ReadFacts.

(** C4 as stated fails for the list operation: a caller without records
    gets an empty list and an empty error field, not a "not found" error. *)
Lemma ReadAllRecord_nothing_is_no_error :
  services.ReadAllRecord (StorageService := services.NewStorageService)
    empty_store (middleware.ID sample_caller) = ([], None)
  /\ fst (@handler.ReadAllRecord gorm.DB services.NewStorageService
            sample_handler (Some sample_caller) (world_of empty_store))
     = (Some (proto.ReadAllRecordResponse.mk [] ""), None)
  /\ "" <> "record not found".
Proof. repeat split. discriminate. Qed.

(** C4, amended. When the owner-scoped lookup yields nothing, the
    read-one operation answers with the "record not found" business error
    and nothing else, so a record of another owner and an id that does
    not exist give the same response; the list operation answers with an
    empty list of units and an empty error field.  With the repository
    behind the service, the lookup of one record yields nothing exactly
    when no row carries both the id and the caller as owner. *)
Theorem lookup_yields_nothing {aead : AesGcm} (s : handler.StorageHandler)
        (caller : middleware.JWTclaims) (w : World gorm.DB) :
  let Svc := services.NewStorageService in
  (forall id,
      (forall row, In row (gorm.storages (w_db w)) ->
                   domain.Storage.ID row = id ->
                   domain.Storage.Owner row <> middleware.ID caller) ->
      handler.ReadRecord s (Some caller) (proto.ReadRecordRequest.mk id) w
      = Ok ((Some (proto.ReadRecordResponse.mk "" "" [] "record not found"), None),
            emit (CallReadRecord id (middleware.ID caller)) w))
  /\ ((forall row, In row (gorm.storages (w_db w)) ->
                   domain.Storage.Owner row <> middleware.ID caller) ->
      handler.ReadAllRecord s (Some caller) w
      = ((Some (proto.ReadAllRecordResponse.mk [] ""), None),
         emit (CallReadAllRecord (middleware.ID caller)) w)).
Proof.
  intros Svc. split.
  - intros id H. apply ReadRecord_empty_lookup.
    apply repository_ReadRecord_absent. exact H.
  - intros H. apply ReadAllRecord_empty_lookup.
    cbn [services.ReadAllRecord Svc services.NewStorageService].
    apply repository_ReadAllRecord_absent. exact H.
Qed.

Lemma lookup_yields_nothing_witness :
  let not_found :=
    Ok (Some (proto.ReadRecordResponse.mk "" "" [] "record not found"), @None error) in
  answer (@handler.ReadRecord xorgcm.instance gorm.DB services.NewStorageService
            sample_handler (Some sample_caller) (proto.ReadRecordRequest.mk 2)
            (world_of sample_store)) = not_found
  /\ answer (@handler.ReadRecord xorgcm.instance gorm.DB services.NewStorageService
               sample_handler (Some sample_caller) (proto.ReadRecordRequest.mk 9)
               (world_of sample_store)) = not_found
  /\ fst (@handler.ReadAllRecord gorm.DB services.NewStorageService
            sample_handler (Some (middleware.mkClaims 3 "carol" None))
            (world_of sample_store))
     = (Some (proto.ReadAllRecordResponse.mk [] ""), None).
Proof.
  destruct (@lookup_yields_nothing xorgcm.instance sample_handler sample_caller
              (world_of sample_store)) as (Hone & _).
  destruct (@lookup_yields_nothing xorgcm.instance sample_handler
              (middleware.mkClaims 3 "carol" None) (world_of sample_store))
    as (_ & Hall).
  split; [|split].
  - rewrite Hone; [reflexivity|].
    intros row [<-|[<-|[]]]; simpl; intros; lia.
  - rewrite Hone; [reflexivity|].
    intros row [<-|[<-|[]]]; simpl; intros; lia.
  - rewrite Hall; [reflexivity|].
    intros row [<-|[<-|[]]]; simpl; lia.
Defined.

(** C10. The list query selects the id, name and owner columns only, so
    whatever kinds the caller's records were stored with, every unit of
    the list response carries the empty string as its type: the response
    has one unit per row of the caller, with the row's id, name and owner
    and an empty type. *)
Theorem list_units_have_empty_type (s : handler.StorageHandler)
        (caller : middleware.JWTclaims) (w : World gorm.DB) :
  gorm.fault (w_db w) = None ->
  let Svc := services.NewStorageService in
  let rows := filter (fun r => domain.Storage.Owner r =? middleware.ID caller)%Z
                     (gorm.storages (w_db w)) in
  exists units,
    fst (handler.ReadAllRecord s (Some caller) w)
    = (Some (proto.ReadAllRecordResponse.mk units ""), None)
    /\ units = map (fun r => proto.StorageUnit.mk
                               (proto.int32 (domain.Storage.ID r))
                               (domain.Storage.Name r) ""
                               (proto.int32 (domain.Storage.Owner r))) rows
    /\ Forall (fun u => proto.StorageUnit.Type_ u = "") units.
Proof.
  intros F Svc rows. eexists. split; [|split].
  - unfold handler.ReadAllRecord.
    cbn [middleware.GetTokenFromContext negb emit w_db].
    cbn [services.ReadAllRecord Svc services.NewStorageService].
    rewrite (repository_ReadAllRecord_rows _ _ F). cbn [fst].
    rewrite map_map. reflexivity.
  - reflexivity.
  - apply Forall_forall. intros u Hu. apply in_map_iff in Hu as (r & <- & _).
    reflexivity.
Qed.

Lemma list_units_have_empty_type_witness :
  In (domain.Storage.mk 1 "note" "text"
        "sLGys7S1tre4ubq/*bG0EBAQEBAQEBAQEBAQEBAQE"
        "oKGio6Slpqeoqaqr*FjRScJ682vgHJUNhj63L6QYGBgYGBgYGBgYGBgYGBgY=" 1)
     (gorm.storages sample_store)
  /\ fst (@handler.ReadAllRecord gorm.DB services.NewStorageService
            sample_handler (Some sample_caller) (world_of sample_store))
     = (Some (proto.ReadAllRecordResponse.mk
                [proto.StorageUnit.mk 1 "note" "" 1] ""), None).
Proof.
  split; [left; reflexivity|].
  destruct (list_units_have_empty_type sample_handler sample_caller
              (world_of sample_store) eq_refl) as (units & E & U & _).
  rewrite E, U. reflexivity.
Defined.

(** ** The upload handler *)

Section UploadFacts.
Context {aead : AesGcm} {DB : Type} {Svc : services.StorageService DB}.

Lemma keep_firstNonEmpty (current v : string) (rest : list string) :
  keep (keep current v) (firstNonEmpty rest)
  = keep current (firstNonEmpty (v :: rest)).
Proof.
  unfold keep. cbn [firstNonEmpty].
  destruct (String.eqb current "") eqn:Ec; [|rewrite Ec; reflexivity].
  destruct (String.eqb v ""); reflexivity.
Qed.

Lemma keep_empty (current : string) : keep current "" = current.
Proof.
  unfold keep. destruct (String.eqb_spec current ""); congruence.
Qed.

(** The block of a failed stage returns from the handler exactly when
    closing the stream fails; when closing succeeds the run goes on, with
    the error in the response and the response already sent. *)
Lemma failStage_goes_on (msg : string) (cause : option error)
      (f : @handler.frame DB) :
  hd None (stream.closing (handler.strm f)) = None ->
  handler.failStage msg cause f
  = (None,
     handler.mkFrame (proto.WriteRecordResponse.mk msg)
       (handler.fileName f) (handler.fileType f) (handler.buffer f)
       (stream.mk (stream.ctx (handler.strm f)) (stream.incoming (handler.strm f))
                  (tl (stream.closing (handler.strm f)))
                  (stream.closed (handler.strm f)
                     ++ [proto.WriteRecordResponse.mk msg]))
       (emit (LogError msg cause) (handler.world f))).
Proof.
  intros Hc. unfold handler.failStage, stream.SendAndClose.
  destruct (stream.closing (handler.strm f)) as [|c cl]; [reflexivity|].
  cbn [hd] in Hc. subst c. reflexivity.
Qed.

(** [recvLoop] is the loop of the source over [stream.Recv]: one call,
    the test for [io.EOF], the body, and the loop again. *)
Lemma recvLoop_Recv (f : @handler.frame DB) :
  handler.recvLoop (stream.incoming (handler.strm f)) f
  = let '((chunk, err), st) := stream.Recv (handler.strm f) in
    let f1 := handler.mkFrame (handler.resp f) (handler.fileName f)
                (handler.fileType f) (handler.buffer f) st (handler.world f) in
    if handler.is_EOF err then (None, f1)
    else match handler.recvBody chunk err f1 with
         | (Some ret, f2) => (Some ret, f2)
         | (None, f2) =>
             handler.recvLoop (stream.incoming (handler.strm f2)) f2
         end.
Proof.
  destruct f as [resp fileName fileType buffer [ctx incoming closing closed] w].
  cbn [handler.strm stream.incoming]. unfold stream.Recv.
  cbn [stream.incoming stream.ctx stream.closing stream.closed].
  destruct incoming as [|[chunk|err] rest]; [reflexivity| |].
  - reflexivity.
  - cbn [handler.recvLoop stream.received handler.setIncoming handler.strm
         handler.resp handler.fileName handler.fileType handler.buffer
         handler.world stream.ctx stream.closing stream.closed].
    destruct (handler.is_EOF (Some err)); [reflexivity|].
    unfold handler.recvBody, handler.failStage, stream.SendAndClose, Buffer_Write.
    cbn [handler.strm handler.resp handler.fileName handler.fileType
         handler.buffer handler.world stream.ctx stream.closing stream.closed
         stream.incoming].
    destruct closing as [|[e|] cl]; reflexivity.
Qed.

(** The receiving loop over chunks that all arrive: it leaves the response,
    the closing side of the stream and the world alone, and accumulates
    the data in order. *)
Lemma recvLoop_chunks (chunks : list proto.WriteRecordRequest.t)
      (tail : list (proto.WriteRecordRequest.t + error)) (f : @handler.frame DB) :
  ends tail ->
  handler.recvLoop (map inl chunks ++ tail) f
  = (None,
     handler.mkFrame (handler.resp f)
       (keep (handler.fileName f)
             (firstNonEmpty (map proto.WriteRecordRequest.Name chunks)))
       (keep (handler.fileType f)
             (firstNonEmpty (map proto.WriteRecordRequest.Type_ chunks)))
       (handler.buffer f ++ concat (map proto.WriteRecordRequest.Data chunks))
       (stream.mk (stream.ctx (handler.strm f)) (tl tail)
                  (stream.closing (handler.strm f))
                  (stream.closed (handler.strm f)))
       (handler.world f)).
Proof.
  intros Htail. revert f.
  induction chunks as [|c cs IH]; intros f.
  - cbn [map app concat firstNonEmpty]. rewrite app_nil_r.
    rewrite !keep_empty.
    destruct Htail as [->|(e & rest & -> & He)].
    + reflexivity.
    + cbn [handler.recvLoop stream.received handler.is_EOF tl]. rewrite He.
      reflexivity.
  - cbn [map app handler.recvLoop stream.received handler.is_EOF].
    unfold handler.recvBody, Buffer_Write.
    cbn [handler.setIncoming handler.resp handler.fileName handler.fileType
         handler.buffer handler.strm handler.world
         proto.WriteRecordRequest.GetName proto.WriteRecordRequest.GetType
         proto.WriteRecordRequest.GetData].
    rewrite IH.
    cbn [handler.resp handler.fileName handler.fileType handler.buffer
         handler.strm handler.world stream.ctx stream.closing stream.closed
         concat].
    fold (keep (handler.fileName f) (proto.WriteRecordRequest.Name c)).
    fold (keep (handler.fileType f) (proto.WriteRecordRequest.Type_ c)).
    rewrite !keep_firstNonEmpty, <- app_assoc. reflexivity.
Qed.

End UploadFacts.

(** C6. An upload without errors: the caller is identified, every chunk
    arrives and the stream ends, the random source delivers, the store
    accepts the record and the stream closes.  Then the buffer handed to
    [encryptionData] is the concatenation of the chunks' data in arrival
    order, whatever its length; the one record handed to the store has the
    first non-empty name and the first non-empty kind as its name and
    type, the caller as owner, and the sealed pair as value and key, from
    which [decryptionData] recovers the concatenation; and the stream is
    closed once, with an empty error. *)
Theorem upload_persists_concatenation
        {aead : AesGcm} (sound : AesGcm_sound)
        {DB : Type} {Svc : services.StorageService DB}
        (s : handler.StorageHandler) (caller : middleware.JWTclaims)
        (chunks : list proto.WriteRecordRequest.t)
        (tail : list (proto.WriteRecordRequest.t + error))
        (closing : list (option error))
        (closed : list proto.WriteRecordResponse.t) (w : World DB) :
  ends tail ->
  (16 <= String.length (handler.MasterKey s))%nat ->
  (sizeRandomKey + 2 * cipher.NonceSize <= length (w_rand w))%nat ->
  (forall unit, fst (services.WriteRecord (w_db w) unit) = None) ->
  hd None closing = None ->
  let plaintext := concat (map proto.WriteRecordRequest.Data chunks) in
  exists data key rnd unit,
    encryptionData (handler.MasterKey s) plaintext (w_rand w)
    = Ok ((data, key), rnd)
    /\ unit = domain.Storage.mk 0
               (firstNonEmpty (map proto.WriteRecordRequest.Name chunks))
               (firstNonEmpty (map proto.WriteRecordRequest.Type_ chunks))
               data key (middleware.ID caller)
    /\ decryptionData (handler.MasterKey s) (domain.Storage.Key unit)
                      (domain.Storage.Value unit) = Ok plaintext
    /\ handler.WriteRecord s
         (stream.mk (Some caller) (map inl chunks ++ tail) closing closed) w
       = Ok (None,
             (stream.mk (Some caller) (tl tail) (tl closing)
                        (closed ++ [proto.WriteRecordResponse.zero]),
              mkWorld (snd (services.WriteRecord (w_db w) unit)) rnd (w_now w)
                      (w_trace w ++ [CallWriteRecord unit]))).
Proof.
  intros Htail Hm Hr Hsvc Hclose plaintext.
  destruct (encryptionData_total (handler.MasterKey s) plaintext (w_rand w) Hm Hr)
    as (data & key & rnd & E).
  exists data, key, rnd. eexists. split; [exact E|]. split; [reflexivity|].
  split.
  - cbn [domain.Storage.Key domain.Storage.Value].
    exact (decryptionData_encryptionData sound _ _ _ _ _ _ E).
  - unfold handler.WriteRecord.
    cbn [stream.Context stream.ctx middleware.GetTokenFromContext negb
         handler.strm stream.incoming].
    rewrite (recvLoop_chunks chunks tail _ Htail).
    cbn [handler.resp handler.fileName handler.fileType handler.buffer
         handler.strm handler.world app].
    unfold keep. cbn [String.eqb]. fold plaintext. rewrite E.
    cbn [handler.resp handler.fileName handler.fileType handler.buffer
         handler.strm handler.world setRand emit w_db w_rand w_now w_trace].
    match goal with
    | |- context [services.WriteRecord (w_db w) ?u] =>
        pose proof (Hsvc u) as Hu;
        destruct (services.WriteRecord (w_db w) u) as [err db] eqn:Ew
    end.
    cbn [fst] in Hu. subst err.
    cbn [handler.resp handler.fileName handler.fileType handler.buffer
         handler.strm handler.world setDB w_db w_rand w_now w_trace snd].
    unfold stream.SendAndClose.
    cbn [stream.closing stream.ctx stream.incoming stream.closed].
    destruct closing as [|c cl]; [reflexivity|].
    cbn [hd] in Hclose. subst c. reflexivity.
Qed.

Lemma upload_persists_concatenation_witness :
  exists data key,
    @decryptionData xorgcm.instance sample_master_key key data
    = Ok [x61; x62; x63; x64; x65; x66]
    /\ exists st' rnd,
      @handler.WriteRecord xorgcm.instance gorm.DB services.NewStorageService
        sample_handler
        (stream.mk (Some sample_caller) (map inl abc_def ++ [inr io.EOF]) [] [])
        (world_of empty_store)
      = Ok (None,
            (st',
             mkWorld (gorm.mkDB [domain.Storage.mk 1 "n" "text" data key 1] [] 1 0 None 0)
                     rnd 1700000000000000000
                     [CallWriteRecord (domain.Storage.mk 0 "n" "text" data key 1)]))
      /\ stream.closed st' = [proto.WriteRecordResponse.mk ""].
Proof.
  destruct (@upload_persists_concatenation xorgcm.instance xorgcm_sound
              gorm.DB services.NewStorageService sample_handler sample_caller
              abc_def [inr io.EOF] [] [] (world_of empty_store))
    as (data & key & rnd & unit & E & U & D & W).
  - right. exists io.EOF, []. split; reflexivity.
  - simpl. lia.
  - simpl. lia.
  - intros unit. reflexivity.
  - reflexivity.
  - subst unit. exists data, key. split; [exact D|].
    eexists. exists rnd. split; [exact W|reflexivity].
Defined.

Example upload_abc_def :
  answer (@handler.WriteRecord xorgcm.instance gorm.DB services.NewStorageService
            sample_handler
            (stream.mk (Some sample_caller) (map inl abc_def) [] [])
            (world_of empty_store))
  = Ok None
  /\ @decryptionData xorgcm.instance sample_master_key
       "oKGio6Slpqeoqaqr*FjRScJ682vgHJUNhj63L6QYGBgYGBgYGBgYGBgYGBgY="
       "sLGys7S1tre4ubq/*ZWZnYGFiBAQEBAQEBAQEBAQEBAQEBA=="
     = Ok [x61; x62; x63; x64; x65; x66].
Proof. vm_compute. split; reflexivity. Qed.

(** C2. The claim asks that a failed stage lead straight to the one error
    response and the one close.  In the code the block of a failed stage
    returns only when [SendAndClose] itself fails; after a close that
    succeeds the run falls through to the next stage.  With no identity
    claim in the context and a stream that ends at once, the handler
    closes the stream with "invalid token", goes on to encrypt the empty
    buffer, writes a record owned by user 0 into the store, and closes
    the stream a second time.  With an identity and a store that is down,
    the failed write is followed by two closes as well. *)
Theorem WriteRecord_falls_through_after_failure :
  (exists data key rnd,
     @handler.WriteRecord xorgcm.instance gorm.DB services.NewStorageService
       sample_handler (stream.mk None [] [] []) (world_of empty_store)
     = Ok (None,
           (stream.mk None [] []
              [proto.WriteRecordResponse.mk "invalid token";
               proto.WriteRecordResponse.mk "invalid token"],
            mkWorld (gorm.mkDB [domain.Storage.mk 1 "" "" data key 0] [] 1 0 None 0)
                    rnd 1700000000000000000
                    [LogError "invalid token" None;
                     CallWriteRecord (domain.Storage.mk 0 "" "" data key 0)])))
  /\ (exists st' w',
        @handler.WriteRecord xorgcm.instance gorm.DB services.NewStorageService
          sample_handler
          (stream.mk (Some sample_caller) (map inl abc_def) [] [])
          (world_of (gorm.mkDB [] [] 0 0 (Some (errorString "connection refused")) 0))
        = Ok (None, (st', w'))
        /\ stream.closed st'
           = [proto.WriteRecordResponse.mk "failed write record";
              proto.WriteRecordResponse.mk "failed write record"]).
Proof.
  split.
  - do 3 eexists. vm_compute. reflexivity.
  - do 2 eexists. split; vm_compute; reflexivity.
Qed.

(** ** The user handlers *)

Lemma Register_guard
      {H : Sha256} {J : JoseEncoding} {B : Bcrypt}
      {DB : Type} {Svc : services.UserService DB}
      (h : userhandler.UserHandler) (in_ : userhandler.RegiserRequest.t)
      (w : World DB) :
  userhandler.RegiserRequest.Login in_ = ""
  \/ userhandler.RegiserRequest.Password in_ = "" ->
  userhandler.Register h in_ w
  = Ok ((Some (userhandler.RegisterResponse.mk (jwt.Malformed "")
                 "login or password incorrect"), None), w).
Proof.
  intros E. unfold userhandler.Register.
  replace (String.eqb (userhandler.RegiserRequest.Login in_) ""
           || String.eqb (userhandler.RegiserRequest.Password in_) "")
    with true; [reflexivity|].
  symmetry. apply orb_true_iff.
  destruct E as [E|E]; [left|right]; apply String.eqb_eq; exact E.
Qed.

(** C9. A registration with an empty login or an empty password is
    answered with the business error "login or password incorrect" and a
    nil transport error, and the world is left as it was: the trace gains
    no call to the password hash and none to the service's [CreateUser],
    the random source is untouched and the store is unchanged, so no user
    with an empty login or password is created. *)
Theorem Register_rejects_empty_credentials
        {H : Sha256} {J : JoseEncoding} {B : Bcrypt}
        {DB : Type} {Svc : services.UserService DB}
        (h : userhandler.UserHandler) (in_ : userhandler.RegiserRequest.t)
        (w : World DB) :
  userhandler.RegiserRequest.Login in_ = ""
  \/ userhandler.RegiserRequest.Password in_ = "" ->
  userhandler.Register h in_ w
  = Ok ((Some (userhandler.RegisterResponse.mk (jwt.Malformed "")
                 "login or password incorrect"), None), w).
Proof. apply Register_guard. Qed.

Section ContractFacts.
Context {aead : AesGcm} {H : Sha256} {J : JoseEncoding} {B : Bcrypt}
        {DB : Type}
        {SSvc : services.StorageService DB} {USvc : services.UserService DB}.

Lemma ReadAllRecord_returns (s : handler.StorageHandler)
      (ctx : middleware.Context) (w : World DB) :
  exists resp w', handler.ReadAllRecord s ctx w = ((Some resp, None), w').
Proof.
  unfold handler.ReadAllRecord.
  destruct ctx as [caller|]; cbn [middleware.GetTokenFromContext negb].
  - destruct (services.ReadAllRecord _ _) as [rec [e|]]; eauto.
  - eauto.
Qed.

Lemma DeleteRecord_returns (s : handler.StorageHandler)
      (ctx : middleware.Context) (in_ : proto.DeleteRecordRequest.t) (w : World DB) :
  exists resp w', handler.DeleteRecord s ctx in_ w = ((Some resp, None), w').
Proof.
  unfold handler.DeleteRecord.
  destruct ctx as [caller|]; cbn [middleware.GetTokenFromContext negb].
  - destruct (services.DeleteRecord _ _ _) as [[e|] db]; eauto.
  - eauto.
Qed.

Lemma ReadRecord_returns (s : handler.StorageHandler)
      (ctx : middleware.Context) (in_ : proto.ReadRecordRequest.t) (w : World DB)
      (r : option proto.ReadRecordResponse.t) (e : option error) (w' : World DB) :
  handler.ReadRecord s ctx in_ w = Ok ((r, e), w') -> r <> None /\ e = None.
Proof.
  unfold handler.ReadRecord.
  destruct ctx as [caller|]; cbn [middleware.GetTokenFromContext negb].
  - destruct (services.ReadRecord _ _ _) as [[rec|] [err|]];
      try (intros [= <- <- <-]; split; [discriminate|reflexivity]).
    destruct (decryptionData _ _ _);
      try (intros [= <- <- <-]; split; [discriminate|reflexivity]).
    discriminate.
  - intros [= <- <- <-]. split; [discriminate|reflexivity].
Qed.

Lemma getJWT_token (jwtKey : string) (id : Z) (login : string) (now : Z) :
  exists tok,
    userhandler.getJWT jwtKey id login now = Ok (jwt.Compact tok)
    /\ jwt.Claims tok
       = middleware.mkClaims id login
           (Some (jwt.NewNumericDate (now + 30 * userhandler.Minute)))
    /\ jwt.Signature tok
       = hmac.Sum (list_byte_of_string jwtKey) (signingString (jwt.Claims tok)).
Proof. eexists. repeat split. Qed.

Lemma Register_returns (h : userhandler.UserHandler)
      (in_ : userhandler.RegiserRequest.t) (w : World DB)
      (r : option userhandler.RegisterResponse.t) (e : option error)
      (w' : World DB) :
  userhandler.Register h in_ w = Ok ((r, e), w') -> r <> None /\ e = None.
Proof.
  unfold userhandler.Register.
  destruct (_ || _);
    try (intros [= <- <- <-]; split; [discriminate|reflexivity]).
  destruct (bcrypt_GenerateFromPassword _ _ _) as [[hash [err|]] rnd];
    try (intros [= <- <- <-]; split; [discriminate|reflexivity]).
  destruct (services.CreateUser _ _ _) as [[user [err|]] db];
    try (intros [= <- <- <-]; split; [discriminate|reflexivity]).
  destruct user as [user|]; [|discriminate].
  intros [= <- <- <-]. split; [discriminate|reflexivity].
Qed.

Lemma Login_returns (h : userhandler.UserHandler)
      (in_ : userhandler.LoginRequest.t) (w : World DB)
      (r : option userhandler.LoginResponse.t) (e : option error)
      (w' : World DB) :
  userhandler.Login h in_ w = Ok ((r, e), w') -> r <> None /\ e = None.
Proof.
  unfold userhandler.Login.
  destruct (services.FindUserByLogin _ _) as [[user|] [err|]];
    try (intros [= <- <- <-]; split; [discriminate|reflexivity]).
  destruct (bcrypt_CompareHashAndPassword _ _);
    intros [= <- <- <-]; split; solve [discriminate|reflexivity].
Qed.

End ContractFacts.

(** A result that is plainly a response with a message: both parts of
    [businessFailure] by computation. *)
Ltac business :=
  unfold businessFailure; do 2 eexists; (split; [reflexivity|discriminate]).

(** The failures a unary handler is handed as an error become business
    errors: for a missing identity claim, an error returned by the
    service, a lookup that finds nothing, an error returned by
    [decryptionData], an error of the password hash, empty or wrong
    credentials, the handler returns a response with a non-empty error
    field and a nil transport-level error; and a unary handler that
    returns never returns a nil response or a transport-level error.
    This does not cover the failures that reach the handler in another
    way: a query whose error the repository drops, and a panic. *)
Lemma handed_failures_are_business_errors
        {aead : AesGcm} {H : Sha256} {J : JoseEncoding} {B : Bcrypt}
        {DB : Type}
        {SSvc : services.StorageService DB} {USvc : services.UserService DB}
        (s : handler.StorageHandler) (h : userhandler.UserHandler)
        (w : World DB) :
  (* ReadAllRecord *)
  businessFailure proto.ReadAllRecordResponse.Error
                  (Ok (handler.ReadAllRecord s None w))
  /\ (forall caller recs e,
         services.ReadAllRecord (w_db w) (middleware.ID caller) = (recs, Some e) ->
         businessFailure proto.ReadAllRecordResponse.Error
                         (Ok (handler.ReadAllRecord s (Some caller) w)))
  (* ReadRecord *)
  /\ (forall in_,
         businessFailure proto.ReadRecordResponse.Error
                         (handler.ReadRecord s None in_ w))
  /\ (forall caller in_ rec e,
         services.ReadRecord (w_db w) (proto.ReadRecordRequest.Id in_)
                             (middleware.ID caller) = (rec, Some e) ->
         businessFailure proto.ReadRecordResponse.Error
                         (handler.ReadRecord s (Some caller) in_ w))
  /\ (forall caller in_,
         services.ReadRecord (w_db w) (proto.ReadRecordRequest.Id in_)
                             (middleware.ID caller) = (None, None) ->
         businessFailure proto.ReadRecordResponse.Error
                         (handler.ReadRecord s (Some caller) in_ w))
  /\ (forall caller in_ rec e,
         services.ReadRecord (w_db w) (proto.ReadRecordRequest.Id in_)
                             (middleware.ID caller) = (Some rec, None) ->
         decryptionData (handler.MasterKey s) (domain.Storage.Key rec)
                        (domain.Storage.Value rec) = Err e ->
         businessFailure proto.ReadRecordResponse.Error
                         (handler.ReadRecord s (Some caller) in_ w))
  (* DeleteRecord *)
  /\ (forall in_,
         businessFailure proto.DeleteRecordResponse.Error
                         (Ok (handler.DeleteRecord s None in_ w)))
  /\ (forall caller in_ e db,
         services.DeleteRecord (w_db w) (proto.DeleteRecordRequest.Id in_)
                               (middleware.ID caller) = (Some e, db) ->
         businessFailure proto.DeleteRecordResponse.Error
                         (Ok (handler.DeleteRecord s (Some caller) in_ w)))
  (* Register *)
  /\ (forall in_,
         userhandler.RegiserRequest.Login in_ = ""
         \/ userhandler.RegiserRequest.Password in_ = "" ->
         businessFailure userhandler.RegisterResponse.Error
                         (userhandler.Register h in_ w))
  /\ (forall in_ hash e rnd,
         bcrypt_GenerateFromPassword
           (list_byte_of_string (userhandler.RegiserRequest.Password in_))
           bcrypt_DefaultCost (w_rand w) = ((hash, Some e), rnd) ->
         businessFailure userhandler.RegisterResponse.Error
                         (userhandler.Register h in_ w))
  /\ (forall in_ hash rnd user e db,
         bcrypt_GenerateFromPassword
           (list_byte_of_string (userhandler.RegiserRequest.Password in_))
           bcrypt_DefaultCost (w_rand w) = ((hash, None), rnd) ->
         services.CreateUser (w_db w) (userhandler.RegiserRequest.Login in_)
                             (string_of_list_byte hash) = ((user, Some e), db) ->
         businessFailure userhandler.RegisterResponse.Error
                         (userhandler.Register h in_ w))
  (* Login *)
  /\ (forall in_ user e,
         services.FindUserByLogin (w_db w) (userhandler.LoginRequest.Login in_)
         = (user, Some e) ->
         businessFailure userhandler.LoginResponse.Error
                         (userhandler.Login h in_ w))
  /\ (forall in_,
         services.FindUserByLogin (w_db w) (userhandler.LoginRequest.Login in_)
         = (None, None) ->
         businessFailure userhandler.LoginResponse.Error
                         (userhandler.Login h in_ w))
  /\ (forall in_ user e,
         services.FindUserByLogin (w_db w) (userhandler.LoginRequest.Login in_)
         = (Some user, None) ->
         bcrypt_CompareHashAndPassword
           (list_byte_of_string (domain.User.Hash user))
           (list_byte_of_string (userhandler.LoginRequest.Password in_)) = Some e ->
         businessFailure userhandler.LoginResponse.Error
                         (userhandler.Login h in_ w))
  (* no nil response and no transport-level error, whatever happens *)
  /\ (forall ctx, exists resp w',
         handler.ReadAllRecord s ctx w = ((Some resp, None), w'))
  /\ (forall ctx in_, exists resp w',
         handler.DeleteRecord s ctx in_ w = ((Some resp, None), w'))
  /\ (forall ctx in_ r e w',
         handler.ReadRecord s ctx in_ w = Ok ((r, e), w') -> r <> None /\ e = None)
  /\ (forall in_ r e w',
         userhandler.Register h in_ w = Ok ((r, e), w') -> r <> None /\ e = None)
  /\ (forall in_ r e w',
         userhandler.Login h in_ w = Ok ((r, e), w') -> r <> None /\ e = None).
Proof.
  repeat match goal with |- _ /\ _ => split end.
  - business.
  - intros caller recs e E. unfold handler.ReadAllRecord.
    cbn [middleware.GetTokenFromContext negb emit w_db]. rewrite E. business.
  - intros in_. business.
  - intros caller in_ rec e E. unfold handler.ReadRecord.
    cbn [middleware.GetTokenFromContext negb emit w_db]. rewrite E. business.
  - intros caller in_ E. unfold handler.ReadRecord.
    cbn [middleware.GetTokenFromContext negb emit w_db]. rewrite E. business.
  - intros caller in_ rec e E D. unfold handler.ReadRecord.
    cbn [middleware.GetTokenFromContext negb emit w_db]. rewrite E, D. business.
  - intros in_. business.
  - intros caller in_ e db E. unfold handler.DeleteRecord.
    cbn [middleware.GetTokenFromContext negb emit w_db]. rewrite E. business.
  - intros in_ E. rewrite (Register_guard h in_ w E). business.
  - intros in_ hash e rnd E. unfold userhandler.Register.
    destruct (_ || _); [business|].
    cbn [emit w_rand]. rewrite E. business.
  - intros in_ hash rnd user e db E C. unfold userhandler.Register.
    destruct (_ || _); [business|].
    cbn [emit w_rand]. rewrite E. cbn [emit setRand w_db]. rewrite C.
    unfold businessFailure. do 2 eexists. split; [reflexivity|].
    cbn [userhandler.RegisterResponse.Error].
    destruct (errors.AsPgError e) as [code|]; [|discriminate].
    destruct (String.eqb code gorm.UniqueViolation); discriminate.
  - intros in_ user e E. unfold userhandler.Login.
    cbn [emit w_db]. rewrite E. business.
  - intros in_ E. unfold userhandler.Login.
    cbn [emit w_db]. rewrite E. business.
  - intros in_ user e E C. unfold userhandler.Login.
    cbn [emit w_db]. rewrite E, C. business.
  - intros ctx. apply ReadAllRecord_returns.
  - intros ctx in_. apply DeleteRecord_returns.
  - intros ctx in_ r e w'. apply ReadRecord_returns.
  - intros in_ r e w'. apply Register_returns.
  - intros in_ r e w'. apply Login_returns.
Qed.

(** ** Tokens *)

Example sha256_abc :
  map Byte.to_N (sha256.Sum256 [x61; x62; x63])
  = [0xba; 0x78; 0x16; 0xbf; 0x8f; 0x01; 0xcf; 0xea; 0x41; 0x41; 0x40; 0xde;
     0x5d; 0xae; 0x22; 0x23; 0xb0; 0x03; 0x61; 0xa3; 0x96; 0x17; 0x7a; 0x9c;
     0xb4; 0x10; 0xff; 0x61; 0xf2; 0x00; 0x15; 0xad]%N.
Proof. vm_compute. reflexivity. Qed.

(** RFC 4231, test case 2. *)
Example hmac_sha256_rfc4231 :
  map Byte.to_N
      (@hmac.Sum sha256.instance (list_byte_of_string "Jefe")
                 (list_byte_of_string "what do ya want for nothing?"))
  = [0x5b; 0xdc; 0xc1; 0x46; 0xbf; 0x60; 0x75; 0x4e; 0x6a; 0x04; 0x24; 0x26;
     0x08; 0x95; 0x75; 0xc7; 0x5a; 0x00; 0x3f; 0x08; 0x9d; 0x27; 0x39; 0x83;
     0x9d; 0xec; 0x58; 0xb9; 0x64; 0xec; 0x38; 0x43]%N.
Proof. vm_compute. reflexivity. Qed.

Example getJWT_sample :
  exists tok,
    @userhandler.getJWT sha256.instance jose.instance "secret" 1 "test"
                        sample_issue_time = Ok (jwt.Compact tok)
    /\ jose.SigningString (jwt.Claims tok)
       = "eyJhbGciOiJIUzI1NiIsInR5cCI6IkpXVCJ9.eyJpZCI6MSwibG9naW4iOiJ0ZXN0IiwiZXhwIjoxNzAwMDAxODAwfQ"
    /\ jose.RawURLEncode (jwt.Signature tok)
       = "mmms_ITES3BPQg41ZTjRhx5g0gQGdVWonR0ohsKU4Rk".
Proof. eexists. split; [reflexivity|]. split; vm_compute; reflexivity. Qed.

Lemma firstn_app_repeat {A} (a : A) (l : list A) (n m : nat) :
  (length l <= n)%nat -> (n <= length l + m)%nat ->
  firstn n (l ++ repeat a m) = l ++ repeat a (n - length l).
Proof.
  intros Hl Hm. rewrite firstn_app, firstn_all2 by exact Hl. f_equal.
  generalize (n - length l)%nat, (Nat.le_sub_le_add_l n (length l) m).
  intros k Hk. specialize (proj2 Hk Hm) as Hle. clear Hk Hm Hl.
  revert k Hle. induction m as [|m IH]; intros [|k] Hle; try reflexivity.
  - lia.
  - cbn [repeat firstn]. f_equal. apply IH. lia.
Qed.

(** HMAC does not tell a key from the same key followed by a zero byte,
    as long as both fit into the block: whatever the hash. *)
Lemma hmac_Sum_zero_padded {H : Sha256} (key message : bytes) :
  (length key < hmac.blockSize)%nat ->
  hmac.Sum (key ++ [x00]) message = hmac.Sum key message.
Proof.
  intros Hk. unfold hmac.Sum.
  replace (hmac.block (key ++ [x00])) with (hmac.block key); [reflexivity|].
  unfold hmac.block.
  replace (hmac.blockSize <? length key)%nat with false
    by (symmetry; apply Nat.ltb_ge; lia).
  replace (hmac.blockSize <? length (key ++ [x00]))%nat with false
    by (symmetry; apply Nat.ltb_ge; rewrite length_app; simpl; lia).
  rewrite <- app_assoc. change ([x00] ++ repeat x00 hmac.blockSize)
    with (repeat x00 (S hmac.blockSize)).
  rewrite !firstn_app_repeat by lia. reflexivity.
Qed.

Lemma bytes_eqb_eq (a b : bytes) : bytes_eqb a b = true <-> a = b.
Proof.
  unfold bytes_eqb. destruct (list_eq_dec Byte.byte_eq_dec a b); split;
    congruence.
Qed.

Lemma bytes_eqb_refl (a : bytes) : bytes_eqb a a = true.
Proof. apply bytes_eqb_eq. reflexivity. Qed.

Lemma NewNumericDate_bounds (t : Z) :
  (t - jwt.TimePrecision < jwt.NewNumericDate t <= t)%Z.
Proof.
  unfold jwt.NewNumericDate, jwt.TimePrecision.
  pose proof (Z.mod_pos_bound t 1000000000 eq_refl). lia.
Qed.

Section TokenFacts.
Context {H : Sha256} {J : JoseEncoding}.

(** A well-formed token is accepted exactly when its signature is the
    HMAC of its signed text under the verifier's secret and its expiry,
    if it has one, lies in the future. *)
Lemma verify_accepts (jwtKey : string) (tok : jwt.Token) (now : Z) :
  jwt.Signature tok
  = hmac.Sum (list_byte_of_string jwtKey) (signingString (jwt.Claims tok)) ->
  (forall exp, middleware.ExpiresAt (jwt.Claims tok) = Some exp -> (now < exp)%Z) ->
  interceptors.verifyJWTandGetPayload jwtKey (jwt.Compact tok) now
  = (jwt.Claims tok, None).
Proof.
  intros S E. unfold interceptors.verifyJWTandGetPayload, jwt.ParseWithClaims.
  unfold hmac.Equal. rewrite S, bytes_eqb_refl.
  destruct (middleware.ExpiresAt (jwt.Claims tok)) as [exp|]; [|reflexivity].
  specialize (E exp eq_refl). apply Z.ltb_lt in E. rewrite E. reflexivity.
Qed.

Lemma verify_rejects_signature (jwtKey : string) (tok : jwt.Token) (now : Z) :
  jwt.Signature tok
  <> hmac.Sum (list_byte_of_string jwtKey) (signingString (jwt.Claims tok)) ->
  interceptors.verifyJWTandGetPayload jwtKey (jwt.Compact tok) now
  = (jwt.Claims tok,
     Some (Errorf "Ошибка подписи JWT"
             (wrapError "token signature is invalid" jwt.ErrSignatureInvalid))).
Proof.
  intros S. unfold interceptors.verifyJWTandGetPayload, jwt.ParseWithClaims.
  unfold hmac.Equal.
  destruct (bytes_eqb _ _) eqn:E; [apply bytes_eqb_eq in E; contradiction|].
  reflexivity.
Qed.

Lemma verify_rejects_expired (jwtKey : string) (tok : jwt.Token) (exp now : Z) :
  middleware.ExpiresAt (jwt.Claims tok) = Some exp ->
  (exp <= now)%Z ->
  exists e,
    interceptors.verifyJWTandGetPayload jwtKey (jwt.Compact tok) now
    = (jwt.Claims tok, Some e).
Proof.
  intros X E. unfold interceptors.verifyJWTandGetPayload, jwt.ParseWithClaims.
  destruct (hmac.Equal _ _).
  - rewrite X. apply Z.ltb_ge in E. rewrite E. eexists. reflexivity.
  - eexists. reflexivity.
Qed.

End TokenFacts.

(** C5 as stated fails in two places.  A secret different from the
    signing secret can verify the token: HMAC fills a short key with zero
    bytes, so "secret" followed by a zero byte signs like "secret".  And
    a token is not accepted for the full thirty minutes: the expiry is
    cut to the whole second, so a token issued 0.9 s after a full second
    is refused 29 min 59.6 s later. *)
Lemma distinct_secret_accepted_and_last_second_refused :
  "secret" <> secret_with_zero
  /\ (exists tok,
        @userhandler.getJWT sha256.instance jose.instance "secret" 1 "test"
                            sample_issue_time = Ok (jwt.Compact tok)
        /\ @interceptors.verifyJWTandGetPayload sha256.instance jose.instance
             secret_with_zero (jwt.Compact tok) (sample_issue_time + 1)%Z
           = (middleware.mkClaims 1 "test" (Some 1700001800000000000%Z), None))
  /\ (exists tok,
        @userhandler.getJWT sha256.instance jose.instance "secret" 1 "test"
                            (sample_issue_time + 900000000)%Z
        = Ok (jwt.Compact tok)
        /\ ((sample_issue_time + 1800500000000)
            - (sample_issue_time + 900000000) < 30 * userhandler.Minute)%Z
        /\ snd (@interceptors.verifyJWTandGetPayload sha256.instance jose.instance
                  "secret" (jwt.Compact tok)
                  (sample_issue_time + 1800500000000)%Z)
           = Some (Errorf "Недействительный JWT-токен"
                     (wrapError "token has invalid claims" jwt.ErrTokenExpired))).
Proof.
  split; [discriminate|]. split.
  - eexists. split; [reflexivity|]. vm_compute. reflexivity.
  - eexists. split; [reflexivity|]. split; [reflexivity|].
    vm_compute. reflexivity.
Qed.

(** C5, amended. [getJWT] returns a token with the given id and login
    and with the expiry thirty minutes after the issue time, cut to the
    whole second.  [verifyJWTandGetPayload] with the signing secret
    accepts it at every time before the expiry and yields exactly these
    claims; with a secret under which HMAC-SHA256 gives another signature
    for the signed text it fails with the signature error; and every
    token whose expiry is not in the future is refused, whatever the
    secret. *)
Theorem token_issue_and_verify {H : Sha256} {J : JoseEncoding}
        (k : string) (u : Z) (l : string) (t : Z) :
  exists tok exp,
    userhandler.getJWT k u l t = Ok (jwt.Compact tok)
    /\ exp = jwt.NewNumericDate (t + 30 * userhandler.Minute)
    /\ (t + 30 * userhandler.Minute - jwt.TimePrecision < exp
        <= t + 30 * userhandler.Minute)%Z
    /\ (forall now,
           (now < exp)%Z ->
           interceptors.verifyJWTandGetPayload k (jwt.Compact tok) now
           = (middleware.mkClaims u l (Some exp), None))
    /\ (forall k' now,
           hmac.Sum (list_byte_of_string k') (signingString (jwt.Claims tok))
           <> hmac.Sum (list_byte_of_string k) (signingString (jwt.Claims tok)) ->
           exists e,
             snd (interceptors.verifyJWTandGetPayload k' (jwt.Compact tok) now)
             = Some e
             /\ errors.Is e jwt.ErrSignatureInvalid = true)
    /\ (forall k' tok' exp' now,
           middleware.ExpiresAt (jwt.Claims tok') = Some exp' ->
           (exp' <= now)%Z ->
           exists e,
             snd (interceptors.verifyJWTandGetPayload k' (jwt.Compact tok') now)
             = Some e).
Proof.
  destruct (getJWT_token k u l t) as (tok & G & C & S).
  exists tok, (jwt.NewNumericDate (t + 30 * userhandler.Minute)).
  split; [exact G|]. split; [reflexivity|].
  split; [apply NewNumericDate_bounds|]. split; [|split].
  - intros now Hnow. rewrite <- C. apply verify_accepts; [exact S|].
    rewrite C. cbn [middleware.ExpiresAt]. intros exp [= <-]. exact Hnow.
  - intros k' now Hk'. rewrite verify_rejects_signature.
    + eexists. split; reflexivity.
    + rewrite S. intros E. apply Hk'. symmetry. exact E.
  - intros k' tok' exp' now X E.
    destruct (verify_rejects_expired k' tok' exp' now X E) as (e & ->).
    exists e. reflexivity.
Qed.

Lemma token_issue_and_verify_witness :
  exists tok,
    @userhandler.getJWT sha256.instance jose.instance "secret" 1 "test"
                        sample_issue_time = Ok (jwt.Compact tok)
    /\ @interceptors.verifyJWTandGetPayload sha256.instance jose.instance
         "secret" (jwt.Compact tok) (sample_issue_time + 1799000000000)%Z
       = (middleware.mkClaims 1 "test" (Some 1700001800000000000%Z), None)
    /\ (exists e,
          snd (@interceptors.verifyJWTandGetPayload sha256.instance jose.instance
                 "another secret" (jwt.Compact tok) (sample_issue_time + 1)%Z)
          = Some e
          /\ errors.Is e jwt.ErrSignatureInvalid = true)
    /\ (exists e,
          snd (@interceptors.verifyJWTandGetPayload sha256.instance jose.instance
                 "secret" (jwt.Compact tok) (sample_issue_time + 1800000000000)%Z)
          = Some e).
Proof.
  destruct (@token_issue_and_verify sha256.instance jose.instance
              "secret" 1 "test" sample_issue_time)
    as (tok & exp & G & X & _ & A & S & E).
  destruct (@getJWT_token sha256.instance jose.instance
              "secret" 1 "test" sample_issue_time) as (tok' & G' & C & _).
  assert (T : tok' = tok) by congruence. subst tok'.
  exists tok. split; [exact G|]. subst exp. split; [|split].
  - exact (A (sample_issue_time + 1799000000000)%Z eq_refl).
  - apply S. rewrite C. intros D. vm_compute in D. discriminate D.
  - apply (E "secret" _ 1700001800000000000%Z).
    + rewrite C. reflexivity.
    + vm_compute. discriminate.
Defined.

Lemma Register_rejects_empty_credentials_witness :
  @userhandler.Register sha256.instance jose.instance xorcrypt.instance
    gorm.DB services.NewUserService sample_user_handler
    (userhandler.RegiserRequest.mk "" "pw1") (world_of empty_store)
  = Ok ((Some (userhandler.RegisterResponse.mk (jwt.Malformed "")
                 "login or password incorrect"), None),
        world_of empty_store)
  /\ @userhandler.Register sha256.instance jose.instance xorcrypt.instance
       gorm.DB services.NewUserService sample_user_handler
       (userhandler.RegiserRequest.mk "alice" "") (world_of empty_store)
     = Ok ((Some (userhandler.RegisterResponse.mk (jwt.Malformed "")
                    "login or password incorrect"), None),
           world_of empty_store).
Proof.
  split.
  - apply (@Register_rejects_empty_credentials sha256.instance jose.instance
             xorcrypt.instance gorm.DB services.NewUserService).
    left. reflexivity.
  - apply (@Register_rejects_empty_credentials sha256.instance jose.instance
             xorcrypt.instance gorm.DB services.NewUserService).
    right. reflexivity.
Defined.

(** A registration that goes through, for comparison: the password is
    hashed, the user is created and a token is returned. *)
Example Register_alice :
  exists tok w',
    @userhandler.Register sha256.instance jose.instance xorcrypt.instance
      gorm.DB services.NewUserService sample_user_handler
      (userhandler.RegiserRequest.mk "alice" "pw1") (world_of empty_store)
    = Ok ((Some (userhandler.RegisterResponse.mk (jwt.Compact tok) ""), None), w')
    /\ jwt.Claims tok = middleware.mkClaims 1 "alice" (Some 1700001800000000000%Z)
    /\ map domain.User.Login (gorm.users (w_db w')) = ["alice"]
    /\ length (w_trace w') = 2%nat.
Proof. do 2 eexists. split; [vm_compute; reflexivity|]. repeat split. Qed.

Example handed_failures_on_damaged_store :
  businessFailure proto.ReadRecordResponse.Error
    (@handler.ReadRecord xorgcm.instance gorm.DB services.NewStorageService
       sample_handler (Some sample_caller) (proto.ReadRecordRequest.mk 9)
       (world_of damaged_store))
  /\ businessFailure proto.ReadRecordResponse.Error
       (@handler.ReadRecord xorgcm.instance gorm.DB services.NewStorageService
          sample_handler (Some sample_caller) (proto.ReadRecordRequest.mk 1)
          (world_of damaged_store))
  /\ businessFailure userhandler.LoginResponse.Error
       (@userhandler.Login sha256.instance jose.instance xorcrypt.instance
          gorm.DB services.NewUserService sample_user_handler
          (userhandler.LoginRequest.mk "bob" "pw") (world_of damaged_store)).
Proof.
  pose proof (@handed_failures_are_business_errors xorgcm.instance sha256.instance
                jose.instance xorcrypt.instance gorm.DB
                services.NewStorageService services.NewUserService
                sample_handler sample_user_handler (world_of damaged_store))
    as (_ & _ & _ & _ & Hnone & Hdec & _ & _ & _ & _ & _ & _ & Huser & _).
  split; [|split].
  - apply Hnone. reflexivity.
  - eapply Hdec; reflexivity.
  - apply Huser. reflexivity.
Qed.

(** C7. The unary handlers do not turn every failure into a business
    error.  While the database cannot be reached the list query fails,
    yet the list handler answers an identified caller with an empty list
    and an empty error field: the repository tests the number of rows
    before the error of the query, where its documentation promises the
    error, and where [DeleteRecord] on the same store reports the
    failure.  And on a stored key without the separator the read handler
    returns no response at all: [decrypt] panics, whatever the cipher. *)
Theorem unary_failures_escape_the_contract {aead : AesGcm} :
  let Svc := services.NewStorageService in
  let down := world_of unreachable_store in
  let cut := world_of cut_key_store in
  gorm.Error (gorm.FindStorageByOwner unreachable_store
                (middleware.ID sample_caller))
  = Some (errorString "connection refused")
  /\ fst (handler.ReadAllRecord sample_handler (Some sample_caller) down)
     = (Some (proto.ReadAllRecordResponse.mk [] ""), None)
  /\ ~ businessFailure proto.ReadAllRecordResponse.Error
        (Ok (handler.ReadAllRecord sample_handler (Some sample_caller) down))
  /\ businessFailure proto.DeleteRecordResponse.Error
       (Ok (handler.DeleteRecord sample_handler (Some sample_caller)
              (proto.DeleteRecordRequest.mk 1) down))
  /\ handler.ReadRecord sample_handler (Some sample_caller)
       (proto.ReadRecordRequest.mk 1) cut
     = Panic "runtime error: index out of range"
  /\ ~ businessFailure proto.ReadRecordResponse.Error
        (handler.ReadRecord sample_handler (Some sample_caller)
           (proto.ReadRecordRequest.mk 1) cut).
Proof.
  intros Svc down cut.
  assert (P : handler.ReadRecord sample_handler (Some sample_caller)
                (proto.ReadRecordRequest.mk 1) cut
              = Panic "runtime error: index out of range").
  { unfold handler.ReadRecord.
    cbn [middleware.GetTokenFromContext negb emit w_db
         proto.ReadRecordRequest.Id].
    change (services.ReadRecord (w_db cut) 1 (middleware.ID sample_caller))
      with (Some (domain.Storage.mk 1 "note" "text"
                    "sLGys7S1tre4ubq/*bG0EBAQEBAQEBAQEBAQEBAQE" "QUJD" 1),
            @None error).
    cbn [domain.Storage.Key domain.Storage.Value]. unfold decryptionData.
    rewrite decrypt_without_separator by reflexivity. reflexivity. }
  split; [reflexivity|]. split; [reflexivity|]. split; [|split; [|split]].
  - intros (resp & w' & E & N). injection E as <- _. apply N. reflexivity.
  - business.
  - exact P.
  - rewrite P. intros (resp & w' & E & _). discriminate E.
Qed.

(** ** The end-to-end scenario *)

Example scenario_runs :
  scenario
  = Ok ([proto.StorageUnit.mk 1 "note" "" 1],
        Some (proto.ReadRecordResponse.mk "note" "text"
                (list_byte_of_string "hello") ""),
        Some (proto.DeleteRecordResponse.mk ""),
        Some (proto.ReadRecordResponse.mk "" "" [] "record not found")).
Proof. vm_compute. reflexivity. Qed.

(* ================================================================= *)
(** * Further properties of the code *)

(** ** The crypto engine at its edges *)

Section EngineEdges.
Context {aead : AesGcm}.

Lemma valid_key_size_short (n : nat) :
  (n < 16)%nat -> aes.valid_key_size n = false.
Proof.
  intros Hn. unfold aes.valid_key_size.
  destruct (Nat.eqb_spec n 16); [lia|].
  destruct (Nat.eqb_spec n 24); [lia|].
  destruct (Nat.eqb_spec n 32); [lia|reflexivity].
Qed.

Lemma encrypt_short_key (key plaintext : bytes) (rnd : entropy) :
  (length key < sizeRandomKey)%nat ->
  encrypt key plaintext rnd
  = Err (Errorf "failed to create AES cipher" aes.KeySizeError).
Proof.
  intros Hk. unfold encrypt, aes.NewCipher.
  rewrite adjustKeySize_firstn, firstn_all2 by (unfold sizeRandomKey in *; lia).
  rewrite valid_key_size_short by exact Hk. reflexivity.
Qed.

Lemma encrypt_no_panic (key plaintext : bytes) (rnd : entropy) (m : string) :
  encrypt key plaintext rnd <> Panic m.
Proof.
  unfold encrypt, aes.NewCipher, cipher.NewGCM, cipher.Seal.
  destruct (aes.valid_key_size _); cbn [orfail]; [|discriminate].
  destruct (generateRandom cipher.NonceSize rnd) as [[nonce r]| |] eqn:G;
    cbn [orfail]; try discriminate.
  - apply generateRandom_inv in G as (L & _).
    rewrite L, Nat.eqb_refl. discriminate.
  - unfold generateRandom in G. destruct (_ <=? _)%nat; discriminate.
Qed.

Lemma encryptionData_no_panic (mk : string) (data : bytes) (rnd : entropy)
      (m : string) :
  encryptionData mk data rnd <> Panic m.
Proof.
  unfold encryptionData.
  destruct (generateRandom sizeRandomKey rnd) as [[key r1]| |] eqn:G;
    cbn [orfail]; try discriminate.
  - destruct (encrypt (list_byte_of_string mk) key r1) as [[k r2]| |] eqn:E1;
      cbn [orfail]; try discriminate.
    + destruct (encrypt key data r2) as [[d r3]| |] eqn:E2;
        cbn [orfail]; try discriminate.
      intros [= <-]. exact (encrypt_no_panic _ _ _ _ E2).
    + intros [= <-]. exact (encrypt_no_panic _ _ _ _ E1).
  - unfold generateRandom in G. destruct (_ <=? _)%nat; discriminate.
Qed.

Lemma checkMasterKey_length (mk : string) :
  servermain.checkMasterKey mk = None
  <-> (servermain.minimumCharMasterKey <= String.length mk)%nat.
Proof.
  unfold servermain.checkMasterKey.
  destruct (String.eqb_spec mk "") as [->|_].
  - split; [discriminate|]. unfold servermain.minimumCharMasterKey.
    cbn [String.length]. lia.
  - destruct (Nat.ltb_spec (String.length mk) servermain.minimumCharMasterKey);
      split; try discriminate; try reflexivity; lia.
Qed.

End EngineEdges.

(** X1. The start-up check of the server decides whether the write path
    can encrypt: with enough randomness, a master key that passes the
    check (not empty, sixteen bytes or more) always yields a sealed pair,
    and with a master key that would fail it [encryptionData] fails on
    the AES key size while wrapping the record key. *)
Theorem master_key_check_decides_encryption {aead : AesGcm}
        (mk : string) (data : bytes) (rnd : entropy) :
  (sizeRandomKey + 2 * cipher.NonceSize <= length rnd)%nat ->
  (servermain.checkMasterKey mk = None ->
   exists sealed key rnd',
     encryptionData mk data rnd = Ok ((sealed, key), rnd'))
  /\ (servermain.checkMasterKey mk <> None ->
      encryptionData mk data rnd
      = Err (Errorf "failed encript key"
               (Errorf "failed to create AES cipher" aes.KeySizeError))).
Proof.
  intros Hr. split.
  - intros C. apply checkMasterKey_length in C.
    apply encryptionData_total; assumption.
  - intros C. assert (Hm : (String.length mk < sizeRandomKey)%nat).
    { destruct (Nat.ltb_spec (String.length mk) sizeRandomKey) as [L|L];
        [exact L|]. exfalso. apply C. apply checkMasterKey_length. exact L. }
    unfold encryptionData.
    rewrite generateRandom_enough by lia. cbn [orfail].
    rewrite encrypt_short_key by (rewrite list_byte_of_string_length; exact Hm).
    reflexivity.
Qed.

Lemma master_key_check_decides_encryption_witness :
  servermain.checkMasterKey sample_master_key = None
  /\ (exists sealed key rnd',
        @encryptionData xorgcm.instance sample_master_key [x68; x69] sample_entropy
        = Ok ((sealed, key), rnd'))
  /\ servermain.checkMasterKey "fifteen bytes!!" <> None
  /\ @encryptionData xorgcm.instance "fifteen bytes!!" [x68; x69] sample_entropy
     = Err (Errorf "failed encript key"
              (Errorf "failed to create AES cipher" aes.KeySizeError)).
Proof.
  assert (Hr : (sizeRandomKey + 2 * cipher.NonceSize <= length sample_entropy)%nat)
    by (simpl; lia).
  destruct (@master_key_check_decides_encryption xorgcm.instance
              sample_master_key [x68; x69] sample_entropy Hr) as (Hyes & _).
  destruct (@master_key_check_decides_encryption xorgcm.instance
              "fifteen bytes!!" [x68; x69] sample_entropy Hr) as (_ & Hno).
  split; [reflexivity|]. split; [apply Hyes; reflexivity|].
  split; [discriminate|]. apply Hno. discriminate.
Defined.

(** X2. Only the first sixteen bytes of the master key matter: what was
    sealed under one master key is opened by every master key that
    agrees with it on its first sixteen bytes. *)
Theorem master_keys_agreeing_on_16_bytes_open_alike
        {aead : AesGcm} (sound : AesGcm_sound)
        (m1 m2 : string) (p : bytes) (rnd : entropy)
        (sealed key : string) (rnd' : entropy) :
  firstn 16 (list_byte_of_string m1) = firstn 16 (list_byte_of_string m2) ->
  encryptionData m1 p rnd = Ok ((sealed, key), rnd') ->
  decryptionData m2 key sealed = Ok p.
Proof.
  intros Hp E.
  pose proof (decryptionData_encryptionData sound _ _ _ _ _ _ E) as D.
  unfold decryptionData in *.
  rewrite (decrypt_normalized (list_byte_of_string m2)).
  rewrite (decrypt_normalized (list_byte_of_string m1)) in D.
  rewrite !adjustKeySize_firstn in *. unfold sizeRandomKey in *.
  rewrite <- Hp. exact D.
Qed.

Lemma master_keys_agreeing_on_16_bytes_open_alike_witness :
  sample_master_key <> "0123456789abcdef and then something else"
  /\ @decryptionData xorgcm.instance "0123456789abcdef and then something else"
       "oKGio6Slpqeoqaqr*FjRScJ682vgHJUNhj63L6QYGBgYGBgYGBgYGBgYGBgY="
       "sLGys7S1tre4ubq/*bG0EBAQEBAQEBAQEBAQEBAQE"
     = Ok [x68; x69].
Proof.
  split; [discriminate|].
  apply (@master_keys_agreeing_on_16_bytes_open_alike xorgcm.instance
           xorgcm_sound sample_master_key _ [x68; x69] sample_entropy _ _ []).
  - reflexivity.
  - vm_compute. reflexivity.
Defined.

(** ** The repository: rows written, read and deleted *)

Lemma find_none_app {A} (p : A -> bool) (l : list A) (x : A) :
  find p l = None -> find p (l ++ [x]) = if p x then Some x else None.
Proof.
  induction l as [|a l IH]; cbn [find app]; [reflexivity|].
  destruct (p a); [discriminate|exact IH].
Qed.

Lemma find_some_app {A} (p : A -> bool) (l : list A) (x a : A) :
  find p l = Some a -> find p (l ++ [x]) = Some a.
Proof.
  induction l as [|b l IH]; cbn [find app]; [discriminate|].
  destruct (p b); [trivial|exact IH].
Qed.

Lemma find_none_iff {A} (p : A -> bool) (l : list A) :
  find p l = None <-> forall a, In a l -> p a = false.
Proof.
  split.
  - intros F a Hin. exact (find_none p l F a Hin).
  - intros Hall. induction l as [|b l IH]; [reflexivity|]. cbn [find].
    rewrite (Hall b (or_introl eq_refl)). apply IH.
    intros a Hin. apply Hall. right. exact Hin.
Qed.

Lemma find_filter_other {A} (p q : A -> bool) (l : list A) :
  (forall a, p a = true -> q a = true) ->
  find p (filter q l) = find p l.
Proof.
  intros Hpq. induction l as [|a l IH]; [reflexivity|]. cbn [filter find].
  destruct (q a) eqn:Q; cbn [find].
  - rewrite IH. reflexivity.
  - destruct (p a) eqn:P; [|exact IH].
    rewrite (Hpq a P) in Q. discriminate.
Qed.

Lemma numbered_fresh (db : gorm.DB) :
  numbered db ->
  existsb (fun r => (domain.Storage.ID r =? gorm.storage_seq db + 1)%Z)
          (gorm.storages db) = false.
Proof.
  intros N. unfold numbered in N. induction N as [|r rs Hr _ IH]; [reflexivity|].
  cbn [existsb]. rewrite IH.
  destruct (Z.eqb_spec (domain.Storage.ID r) (gorm.storage_seq db + 1));
    [lia|reflexivity].
Qed.

Lemma existsb_false_In {A} (p : A -> bool) (l : list A) :
  (forall a, In a l -> p a = false) -> existsb p l = false.
Proof.
  intros H. induction l as [|a l IH]; [reflexivity|]. cbn [existsb].
  rewrite (H a (or_introl eq_refl)). apply IH.
  intros b Hb. apply H. right. exact Hb.
Qed.

(** The handler's records carry the key zero: in a store that is up and
    numbers its rows the insert succeeds and the row gets the next id. *)
Lemma repository_WriteRecord_healthy (db : gorm.DB) (doc : domain.Storage.t) :
  gorm.fault db = None ->
  numbered db ->
  domain.Storage.ID doc = 0%Z ->
  repository.WriteRecord db doc
  = (None,
     gorm.mkDB (gorm.storages db ++ [row_of db doc]) (gorm.users db)
               (gorm.storage_seq db + 1) (gorm.user_seq db) None
               (gorm.delivered db)).
Proof.
  intros F N Z0. unfold repository.WriteRecord, gorm.CreateStorage.
  rewrite F, Z0. cbn [Z.eqb]. rewrite (numbered_fresh db N). reflexivity.
Qed.

Lemma numbered_no_next (db : gorm.DB) (owner : Z) :
  numbered db ->
  find (fun r => (domain.Storage.ID r =? gorm.storage_seq db + 1)%Z
                 && (domain.Storage.Owner r =? owner)%Z) (gorm.storages db)
  = None.
Proof.
  intros N. apply find_none_iff. intros r Hin.
  unfold numbered in N. rewrite Forall_forall in N. specialize (N r Hin).
  destruct (Z.eqb_spec (domain.Storage.ID r) (gorm.storage_seq db + 1));
    [lia|reflexivity].
Qed.

(** Reading after one more row: the new row answers for its id and
    owner when no earlier row does, and every other answer stays. *)
Lemma repository_ReadRecord_app (db db' : gorm.DB) (row : domain.Storage.t)
      (id owner : Z) :
  gorm.fault db = None -> gorm.fault db' = None ->
  gorm.storages db' = gorm.storages db ++ [row] ->
  repository.ReadRecord db' id owner
  = match repository.ReadRecord db id owner with
    | (Some found, _) => (Some found, None)
    | (None, _) =>
        if ((domain.Storage.ID row =? id)%Z
            && (domain.Storage.Owner row =? owner)%Z)%bool
        then (Some row, None) else (None, None)
    end.
Proof.
  intros F F' S. unfold repository.ReadRecord, gorm.FirstStorage.
  rewrite F, F', S.
  destruct (find _ (gorm.storages db)) as [a|] eqn:Fd.
  - rewrite (find_some_app _ _ _ _ Fd). reflexivity.
  - rewrite (find_none_app _ _ _ Fd).
    destruct (_ && _)%bool; reflexivity.
Qed.

(** X4. A record written through the repository is read back under its
    key.  In a store that is up and numbers its rows from its sequence, a
    record with the key zero (as the handler writes it) gets the next id
    and keeps the numbering: [ReadRecord] with that id and the record's
    owner returns the record as written, with any other owner it finds
    nothing, and the answers for all other ids are what they were
    before.  A record that brings a key of its own which no row carries
    keeps that key: it is read back under it and not under the next id
    of the sequence, which is left alone. *)
Theorem written_record_is_read_back (db : gorm.DB) (doc : domain.Storage.t) :
  gorm.fault db = None ->
  numbered db ->
  (domain.Storage.ID doc = 0%Z ->
   exists db',
     repository.WriteRecord db doc = (None, db')
     /\ numbered db'
     /\ gorm.fault db' = None
     /\ repository.ReadRecord db' (gorm.storage_seq db + 1)
                              (domain.Storage.Owner doc)
        = (Some (row_of db doc), None)
     /\ (forall owner,
            owner <> domain.Storage.Owner doc ->
            repository.ReadRecord db' (gorm.storage_seq db + 1) owner
            = (None, None))
     /\ (forall id owner,
            id <> (gorm.storage_seq db + 1)%Z ->
            repository.ReadRecord db' id owner = repository.ReadRecord db id owner))
  /\ (domain.Storage.ID doc <> 0%Z ->
      (forall row, In row (gorm.storages db) ->
                   domain.Storage.ID row <> domain.Storage.ID doc) ->
      exists db',
        repository.WriteRecord db doc = (None, db')
        /\ gorm.storage_seq db' = gorm.storage_seq db
        /\ repository.ReadRecord db' (domain.Storage.ID doc)
                                 (domain.Storage.Owner doc)
           = (Some doc, None)
        /\ (forall id owner,
               id <> domain.Storage.ID doc ->
               repository.ReadRecord db' id owner
               = repository.ReadRecord db id owner)).
Proof.
  intros F N. split.
  - intros Z0.
    exists (gorm.mkDB (gorm.storages db ++ [row_of db doc]) (gorm.users db)
                      (gorm.storage_seq db + 1) (gorm.user_seq db) None
                      (gorm.delivered db)).
    split; [apply repository_WriteRecord_healthy; assumption|].
    split; [|split; [reflexivity|split; [|split]]].
    + unfold numbered in *. cbn [gorm.storages gorm.storage_seq].
      apply Forall_app. split.
      * eapply Forall_impl; [|exact N]. cbn beta. intros r Hr. lia.
      * constructor; [|constructor]. cbn. lia.
    + unfold repository.ReadRecord, gorm.FirstStorage.
      cbn [gorm.fault gorm.storages].
      rewrite find_none_app by (apply numbered_no_next; exact N).
      cbn [row_of domain.Storage.ID domain.Storage.Owner].
      rewrite !Z.eqb_refl. reflexivity.
    + intros owner Ho. unfold repository.ReadRecord, gorm.FirstStorage.
      cbn [gorm.fault gorm.storages].
      rewrite find_none_app by (apply numbered_no_next; exact N).
      cbn [row_of domain.Storage.ID domain.Storage.Owner].
      destruct (Z.eqb_spec (domain.Storage.Owner doc) owner) as [E|_];
        [congruence|].
      rewrite andb_false_r. reflexivity.
    + intros id owner Hid.
      rewrite repository_ReadRecord_app with (db := db) (row := row_of db doc)
        by (exact F || reflexivity).
      cbn [row_of domain.Storage.ID].
      destruct (Z.eqb_spec (gorm.storage_seq db + 1) id) as [E|_];
        [congruence|].
      cbn [andb]. unfold repository.ReadRecord, gorm.FirstStorage. rewrite F.
      destruct (find _ (gorm.storages db)); reflexivity.
  - intros Z1 Fresh.
    assert (Own : domain.Storage.mk (domain.Storage.ID doc)
                    (domain.Storage.Name doc) (domain.Storage.Type_ doc)
                    (domain.Storage.Value doc) (domain.Storage.Key doc)
                    (domain.Storage.Owner doc) = doc) by (destruct doc; reflexivity).
    assert (W : repository.WriteRecord db doc
                = (None,
                   gorm.mkDB (gorm.storages db ++ [doc]) (gorm.users db)
                             (gorm.storage_seq db) (gorm.user_seq db) None
                             (gorm.delivered db))).
    { unfold repository.WriteRecord, gorm.CreateStorage. rewrite F.
      destruct (Z.eqb_spec (domain.Storage.ID doc) 0) as [E|_]; [contradiction|].
      rewrite existsb_false_In.
      - rewrite Own. reflexivity.
      - intros r Hr. apply Z.eqb_neq. apply Fresh. exact Hr. }
    exists (gorm.mkDB (gorm.storages db ++ [doc]) (gorm.users db)
                      (gorm.storage_seq db) (gorm.user_seq db) None
                      (gorm.delivered db)).
    split; [exact W|]. split; [reflexivity|]. split.
    + rewrite repository_ReadRecord_app with (db := db) (row := doc)
        by (exact F || reflexivity).
      rewrite repository_ReadRecord_absent.
      * rewrite !Z.eqb_refl. reflexivity.
      * intros row Hin Hid. destruct (Fresh row Hin Hid).
    + intros id owner Hid.
      rewrite repository_ReadRecord_app with (db := db) (row := doc)
        by (exact F || reflexivity).
      destruct (Z.eqb_spec (domain.Storage.ID doc) id) as [E|_];
        [congruence|].
      cbn [andb]. unfold repository.ReadRecord, gorm.FirstStorage. rewrite F.
      destruct (find _ (gorm.storages db)); reflexivity.
Qed.

Lemma written_record_is_read_back_witness :
  repository.ReadRecord
    (snd (repository.WriteRecord sample_store
            (domain.Storage.mk 0 "pin" "text" "v" "k" 1))) 3 1
  = (Some (domain.Storage.mk 3 "pin" "text" "v" "k" 1), None)
  /\ repository.ReadRecord
       (snd (repository.WriteRecord sample_store
               (domain.Storage.mk 0 "pin" "text" "v" "k" 1))) 3 2
     = (None, None)
  /\ repository.ReadRecord
       (snd (repository.WriteRecord sample_store
               (domain.Storage.mk 7 "pin" "text" "v" "k" 1))) 7 1
     = (Some (domain.Storage.mk 7 "pin" "text" "v" "k" 1), None)
  /\ repository.ReadRecord
       (snd (repository.WriteRecord sample_store
               (domain.Storage.mk 7 "pin" "text" "v" "k" 1))) 3 1
     = (None, None).
Proof.
  assert (N : numbered sample_store) by (repeat constructor; cbn; lia).
  destruct (written_record_is_read_back sample_store
              (domain.Storage.mk 0 "pin" "text" "v" "k" 1) eq_refl N)
    as (Zero & _).
  destruct (written_record_is_read_back sample_store
              (domain.Storage.mk 7 "pin" "text" "v" "k" 1) eq_refl N)
    as (_ & Own).
  destruct (Zero eq_refl) as (db' & W & _ & _ & R & O & _).
  destruct Own as (db7 & W7 & _ & R7 & O7).
  - cbn. lia.
  - intros row [<-|[<-|[]]]; cbn; lia.
  - rewrite W, W7. cbn [snd]. split; [exact R|]. split; [apply O; cbn; lia|].
    split; [exact R7|]. rewrite O7 by (cbn; lia). reflexivity.
Defined.

(** X5. Deleting through the handler removes the caller's record and
    nothing else: in a store that is up, [DeleteRecord] answers without
    an error whether or not a row matched; afterwards the rows of the
    store are exactly the earlier rows that do not carry both the id and
    the caller as owner, so a record of another owner stays, and reading
    the id as the caller finds nothing. *)
Theorem DeleteRecord_removes_only_the_callers_record
        (s : handler.StorageHandler) (caller : middleware.JWTclaims)
        (id : Z) (w : World gorm.DB) :
  gorm.fault (w_db w) = None ->
  let Svc := services.NewStorageService in
  exists w',
    handler.DeleteRecord s (Some caller) (proto.DeleteRecordRequest.mk id) w
    = ((Some (proto.DeleteRecordResponse.mk ""), None), w')
    /\ gorm.fault (w_db w') = None
    /\ (forall row,
           In row (gorm.storages (w_db w'))
           <-> In row (gorm.storages (w_db w))
               /\ ~ (domain.Storage.ID row = id
                     /\ domain.Storage.Owner row = middleware.ID caller))
    /\ repository.ReadRecord (w_db w') id (middleware.ID caller) = (None, None)
    /\ (numbered (w_db w) -> numbered (w_db w')).
Proof.
  intros F Svc. eexists. split; [|split; [|split; [|split]]].
  - unfold handler.DeleteRecord.
    cbn [middleware.GetTokenFromContext negb emit w_db
         proto.DeleteRecordRequest.Id].
    cbn [services.DeleteRecord Svc services.NewStorageService].
    unfold repository.DeleteRecord, gorm.DeleteStorage. rewrite F.
    cbn [gorm.Error]. reflexivity.
  - reflexivity.
  - intros row. cbn [setDB w_db gorm.storages]. rewrite filter_In.
    rewrite negb_true_iff, andb_false_iff, !Z.eqb_neq.
    destruct (Z.eq_dec (domain.Storage.ID row) id);
      destruct (Z.eq_dec (domain.Storage.Owner row) (middleware.ID caller));
      tauto.
  - apply repository_ReadRecord_absent. intros row Hin Hid Ho.
    cbn [setDB w_db gorm.storages] in Hin. apply filter_In in Hin as (_ & Hk).
    apply Z.eqb_eq in Hid, Ho. rewrite Hid, Ho in Hk. discriminate.
  - unfold numbered. cbn [setDB w_db gorm.storages gorm.storage_seq].
    rewrite !Forall_forall. intros N row Hin. apply N.
    apply filter_In in Hin as (Hin & _). exact Hin.
Qed.

Lemma DeleteRecord_removes_only_the_callers_record_witness :
  exists w',
    @handler.DeleteRecord gorm.DB services.NewStorageService sample_handler
      (Some sample_caller) (proto.DeleteRecordRequest.mk 2) (world_of sample_store)
    = ((Some (proto.DeleteRecordResponse.mk ""), None), w')
    /\ map domain.Storage.ID (gorm.storages (w_db w')) = [1; 2]%Z.
Proof.
  destruct (DeleteRecord_removes_only_the_callers_record sample_handler
              sample_caller 2 (world_of sample_store) eq_refl)
    as (w' & D & _).
  exists w'. split; [exact D|].
  cbv in D. injection D as <-. reflexivity.
Defined.

(** X6. The read queries of the repository test the number of rows
    before the error.  A query that fails without delivering a row reads
    as absence: while the store cannot be reached a read-one answers
    "record not found", the list is empty with an empty error field and a
    login answers "user not found".  A query that fails after a row of
    the caller was delivered is reported as the failure of the store, and
    a delete reports its failure in every case. *)
Theorem store_outage_reads_as_absence
        {aead : AesGcm} {H : Sha256} {J : JoseEncoding} {B : Bcrypt}
        (s : handler.StorageHandler) (h : userhandler.UserHandler)
        (caller : middleware.JWTclaims) (w : World gorm.DB) (e : error) :
  gorm.fault (w_db w) = Some e ->
  let SSvc := services.NewStorageService in
  let USvc := services.NewUserService in
  (gorm.delivered (w_db w) = 0%nat ->
   (forall id,
       answer (handler.ReadRecord s (Some caller)
                 (proto.ReadRecordRequest.mk id) w)
       = Ok (Some (proto.ReadRecordResponse.mk "" "" [] "record not found"),
             None))
   /\ fst (handler.ReadAllRecord s (Some caller) w)
      = (Some (proto.ReadAllRecordResponse.mk [] ""), None)
   /\ (forall in_,
          answer (userhandler.Login h in_ w)
          = Ok (Some (userhandler.LoginResponse.mk (jwt.Malformed "")
                        "user not found"), None)))
  /\ (gorm.delivered (w_db w) <> 0%nat ->
      (forall row,
          In row (gorm.storages (w_db w)) ->
          domain.Storage.Owner row = middleware.ID caller ->
          answer (handler.ReadRecord s (Some caller)
                    (proto.ReadRecordRequest.mk (domain.Storage.ID row)) w)
          = Ok (Some (proto.ReadRecordResponse.mk "" "" [] "failed read record"),
                None)
          /\ fst (handler.ReadAllRecord s (Some caller) w)
             = (Some (proto.ReadAllRecordResponse.mk [] "failed get all records"),
                None))
      /\ (forall user password,
             In user (gorm.users (w_db w)) ->
             answer (userhandler.Login h
                       (userhandler.LoginRequest.mk (domain.User.Login user)
                                                    password) w)
             = Ok (Some (userhandler.LoginResponse.mk (jwt.Malformed "")
                           "failed get user"), None)))
  /\ (forall id,
         fst (handler.DeleteRecord s (Some caller)
                (proto.DeleteRecordRequest.mk id) w)
         = (Some (proto.DeleteRecordResponse.mk "failed delete record"), None)).
Proof.
  intros F SSvc USvc. split; [|split].
  - intros D. split; [|split].
    + intros id. unfold handler.ReadRecord.
      cbn [middleware.GetTokenFromContext negb emit w_db
           proto.ReadRecordRequest.Id].
      cbn [services.ReadRecord SSvc services.NewStorageService].
      unfold repository.ReadRecord, gorm.FirstStorage. rewrite F, D.
      reflexivity.
    + unfold handler.ReadAllRecord.
      cbn [middleware.GetTokenFromContext negb emit w_db].
      cbn [services.ReadAllRecord SSvc services.NewStorageService].
      rewrite (repository_ReadAllRecord_fault _ _ e F D). reflexivity.
    + intros in_. unfold userhandler.Login. cbn [emit w_db].
      cbn [services.FindUserByLogin USvc services.NewUserService].
      unfold repository.FindUserByLogin, gorm.FirstUser. rewrite F, D.
      reflexivity.
  - intros D. destruct (gorm.delivered (w_db w)) as [|n] eqn:Dn;
      [contradiction|]. split.
    + intros row Hin Ho. split.
      * unfold handler.ReadRecord.
        cbn [middleware.GetTokenFromContext negb emit w_db
             proto.ReadRecordRequest.Id].
        cbn [services.ReadRecord SSvc services.NewStorageService].
        unfold repository.ReadRecord, gorm.FirstStorage. rewrite F, Dn.
        destruct (find _ (gorm.storages (w_db w))) as [found|] eqn:Fd;
          [reflexivity|].
        exfalso. apply (find_none _ _ Fd) in Hin.
        rewrite Ho, !Z.eqb_refl in Hin. discriminate.
      * unfold handler.ReadAllRecord.
        cbn [middleware.GetTokenFromContext negb emit w_db].
        cbn [services.ReadAllRecord SSvc services.NewStorageService].
        unfold repository.ReadAllRecord, gorm.FindStorageByOwner.
        rewrite F, Dn.
        destruct (filter _ (gorm.storages (w_db w))) as [|r rs] eqn:Fl.
        -- exfalso.
           assert (In row (filter (fun r => (domain.Storage.Owner r
                                             =? middleware.ID caller)%Z)
                                  (gorm.storages (w_db w)))) as Hf.
           { apply filter_In. split; [exact Hin|]. apply Z.eqb_eq. exact Ho. }
           rewrite Fl in Hf. destruct Hf.
        -- reflexivity.
    + intros user password Hin. unfold userhandler.Login. cbn [emit w_db].
      cbn [services.FindUserByLogin USvc services.NewUserService
           userhandler.LoginRequest.Login].
      unfold repository.FindUserByLogin, gorm.FirstUser. rewrite F, Dn.
      destruct (find _ (gorm.users (w_db w))) as [found|] eqn:Fd;
        [reflexivity|].
      exfalso. apply (find_none _ _ Fd) in Hin.
      rewrite String.eqb_refl in Hin. discriminate.
  - intros id. unfold handler.DeleteRecord.
    cbn [middleware.GetTokenFromContext negb emit w_db
         proto.DeleteRecordRequest.Id].
    cbn [services.DeleteRecord SSvc services.NewStorageService].
    unfold repository.DeleteRecord, gorm.DeleteStorage. rewrite F. reflexivity.
Qed.

Lemma store_outage_reads_as_absence_witness :
  let down := world_of (gorm.mkDB (gorm.storages sample_store) [] 2 0
                          (Some (errorString "connection refused")) 0) in
  let broken := world_of (gorm.mkDB (gorm.storages sample_store) [] 2 0
                            (Some (errorString "unexpected EOF")) 1) in
  answer (@handler.ReadRecord xorgcm.instance gorm.DB services.NewStorageService
            sample_handler (Some sample_caller) (proto.ReadRecordRequest.mk 1) down)
  = Ok (Some (proto.ReadRecordResponse.mk "" "" [] "record not found"), None)
  /\ fst (@handler.ReadAllRecord gorm.DB services.NewStorageService
            sample_handler (Some sample_caller) down)
     = (Some (proto.ReadAllRecordResponse.mk [] ""), None)
  /\ fst (@handler.DeleteRecord gorm.DB services.NewStorageService
            sample_handler (Some sample_caller) (proto.DeleteRecordRequest.mk 1) down)
     = (Some (proto.DeleteRecordResponse.mk "failed delete record"), None)
  /\ fst (@handler.ReadAllRecord gorm.DB services.NewStorageService
            sample_handler (Some sample_caller) broken)
     = (Some (proto.ReadAllRecordResponse.mk [] "failed get all records"), None).
Proof.
  intros down broken.
  destruct (@store_outage_reads_as_absence xorgcm.instance sha256.instance
              jose.instance xorcrypt.instance sample_handler sample_user_handler
              sample_caller down (errorString "connection refused") eq_refl)
    as (Down & _ & D).
  destruct (@store_outage_reads_as_absence xorgcm.instance sha256.instance
              jose.instance xorcrypt.instance sample_handler sample_user_handler
              sample_caller broken (errorString "unexpected EOF") eq_refl)
    as (_ & Broken & _).
  destruct (Down eq_refl) as (R & A & _).
  destruct Broken as (S & _); [discriminate|].
  destruct (S (domain.Storage.mk 1 "note" "text"
                 "sLGys7S1tre4ubq/*bG0EBAQEBAQEBAQEBAQEBAQE"
                 "oKGio6Slpqeoqaqr*FjRScJ682vgHJUNhj63L6QYGBgYGBgYGBgYGBgYGBgY=" 1)
              (or_introl eq_refl) eq_refl) as (_ & L).
  split; [apply R|]. split; [exact A|]. split; [apply D|exact L].
Defined.

(** ** Upload and download *)

Section UploadDownload.
Context {aead : AesGcm}.

Lemma repository_ReadRecord_written (db : gorm.DB) (doc : domain.Storage.t) :
  numbered db ->
  repository.ReadRecord
    (gorm.mkDB (gorm.storages db ++ [row_of db doc]) (gorm.users db)
               (gorm.storage_seq db + 1) (gorm.user_seq db) None
               (gorm.delivered db))
    (gorm.storage_seq db + 1) (domain.Storage.Owner doc)
  = (Some (row_of db doc), None).
Proof.
  intros N. unfold repository.ReadRecord, gorm.FirstStorage.
  cbn [gorm.fault gorm.storages].
  rewrite find_none_app by (apply numbered_no_next; exact N).
  cbn [row_of domain.Storage.ID domain.Storage.Owner].
  rewrite !Z.eqb_refl. reflexivity.
Qed.

Lemma repository_ReadRecord_written_other (db : gorm.DB)
      (doc : domain.Storage.t) (owner : Z) :
  numbered db ->
  owner <> domain.Storage.Owner doc ->
  repository.ReadRecord
    (gorm.mkDB (gorm.storages db ++ [row_of db doc]) (gorm.users db)
               (gorm.storage_seq db + 1) (gorm.user_seq db) None
               (gorm.delivered db))
    (gorm.storage_seq db + 1) owner
  = (None, None).
Proof.
  intros N Ho. unfold repository.ReadRecord, gorm.FirstStorage.
  cbn [gorm.fault gorm.storages].
  rewrite find_none_app by (apply numbered_no_next; exact N).
  cbn [row_of domain.Storage.ID domain.Storage.Owner].
  destruct (Z.eqb_spec (domain.Storage.Owner doc) owner) as [E|_];
    [congruence|].
  rewrite andb_false_r. reflexivity.
Qed.

(** The run of [WriteRecord] on an upload without errors, for any
    service that accepts the record. *)
Lemma WriteRecord_upload {DB : Type} {Svc : services.StorageService DB}
      (s : handler.StorageHandler) (caller : middleware.JWTclaims)
      (chunks : list proto.WriteRecordRequest.t)
      (tail : list (proto.WriteRecordRequest.t + error))
      (closing : list (option error))
      (closed : list proto.WriteRecordResponse.t) (w : World DB)
      (sealed key : string) (rnd : entropy) :
  ends tail ->
  hd None closing = None ->
  encryptionData (handler.MasterKey s)
                 (concat (map proto.WriteRecordRequest.Data chunks)) (w_rand w)
  = Ok ((sealed, key), rnd) ->
  let unit := domain.Storage.mk 0
                (firstNonEmpty (map proto.WriteRecordRequest.Name chunks))
                (firstNonEmpty (map proto.WriteRecordRequest.Type_ chunks))
                sealed key (middleware.ID caller) in
  fst (services.WriteRecord (w_db w) unit) = None ->
  handler.WriteRecord s
    (stream.mk (Some caller) (map inl chunks ++ tail) closing closed) w
  = Ok (None,
        (stream.mk (Some caller) (tl tail) (tl closing)
                   (closed ++ [proto.WriteRecordResponse.zero]),
         mkWorld (snd (services.WriteRecord (w_db w) unit)) rnd (w_now w)
                 (w_trace w ++ [CallWriteRecord unit]))).
Proof.
  intros Htail Hclose E unit Hsvc. unfold handler.WriteRecord.
  cbn [stream.Context stream.ctx middleware.GetTokenFromContext negb
       handler.strm stream.incoming].
  rewrite (recvLoop_chunks chunks tail _ Htail).
  cbn [handler.resp handler.fileName handler.fileType handler.buffer
       handler.strm handler.world app].
  unfold keep. cbn [String.eqb]. rewrite E.
  cbn [handler.resp handler.fileName handler.fileType handler.buffer
       handler.strm handler.world setRand emit w_db w_rand w_now w_trace].
  fold unit. destruct (services.WriteRecord (w_db w) unit) as [err db].
  cbn [fst] in Hsvc. subst err.
  cbn [handler.resp handler.fileName handler.fileType handler.buffer
       handler.strm handler.world setDB w_db w_rand w_now w_trace snd].
  unfold stream.SendAndClose.
  cbn [stream.closing stream.ctx stream.incoming stream.closed].
  destruct closing as [|c cl]; [reflexivity|].
  cbn [hd] in Hclose. subst c. reflexivity.
Qed.

End UploadDownload.

(** X7. What is uploaded is what is downloaded: after an upload without
    errors into a store that is up and numbers its rows, reading the new
    id as the same caller returns the first non-empty name and kind of
    the chunks and, as data, the chunks' data concatenated in order;
    reading the same id as any other caller answers "record not found". *)
Theorem uploaded_record_is_downloaded
        {aead : AesGcm} (sound : AesGcm_sound)
        (s : handler.StorageHandler) (caller : middleware.JWTclaims)
        (chunks : list proto.WriteRecordRequest.t)
        (tail : list (proto.WriteRecordRequest.t + error))
        (closing : list (option error))
        (closed : list proto.WriteRecordResponse.t) (w : World gorm.DB) :
  ends tail ->
  (16 <= String.length (handler.MasterKey s))%nat ->
  (sizeRandomKey + 2 * cipher.NonceSize <= length (w_rand w))%nat ->
  gorm.fault (w_db w) = None ->
  numbered (w_db w) ->
  hd None closing = None ->
  let Svc := services.NewStorageService in
  let id := (gorm.storage_seq (w_db w) + 1)%Z in
  exists st' w',
    handler.WriteRecord s
      (stream.mk (Some caller) (map inl chunks ++ tail) closing closed) w
    = Ok (None, (st', w'))
    /\ answer (handler.ReadRecord s (Some caller)
                 (proto.ReadRecordRequest.mk id) w')
       = Ok (Some (proto.ReadRecordResponse.mk
                     (firstNonEmpty (map proto.WriteRecordRequest.Name chunks))
                     (firstNonEmpty (map proto.WriteRecordRequest.Type_ chunks))
                     (concat (map proto.WriteRecordRequest.Data chunks)) ""),
             None)
    /\ (forall other,
           middleware.ID other <> middleware.ID caller ->
           answer (handler.ReadRecord s (Some other)
                     (proto.ReadRecordRequest.mk id) w')
           = Ok (Some (proto.ReadRecordResponse.mk "" "" [] "record not found"),
                 None)).
Proof.
  intros Htail Hm Hr F N Hclose Svc id.
  destruct (encryptionData_total (handler.MasterKey s)
              (concat (map proto.WriteRecordRequest.Data chunks)) (w_rand w) Hm Hr)
    as (sealed & key & rnd & E).
  pose proof (decryptionData_encryptionData sound _ _ _ _ _ _ E) as D.
  set (unit := domain.Storage.mk 0
                 (firstNonEmpty (map proto.WriteRecordRequest.Name chunks))
                 (firstNonEmpty (map proto.WriteRecordRequest.Type_ chunks))
                 sealed key (middleware.ID caller)).
  assert (W : services.WriteRecord (w_db w) unit
              = (None,
                 gorm.mkDB (gorm.storages (w_db w) ++ [row_of (w_db w) unit])
                           (gorm.users (w_db w)) (gorm.storage_seq (w_db w) + 1)
                           (gorm.user_seq (w_db w)) None
                           (gorm.delivered (w_db w)))).
  { apply repository_WriteRecord_healthy; [exact F|exact N|reflexivity]. }
  do 2 eexists. split; [|split].
  - apply (WriteRecord_upload s caller chunks tail closing closed w sealed key rnd
             Htail Hclose E).
    fold unit. rewrite W. reflexivity.
  - fold unit. rewrite W. cbn [snd]. unfold handler.ReadRecord.
    cbn [middleware.GetTokenFromContext negb emit w_db
         proto.ReadRecordRequest.Id].
    cbn [services.ReadRecord Svc services.NewStorageService].
    change (middleware.ID caller) with (domain.Storage.Owner unit).
    unfold id. rewrite (repository_ReadRecord_written _ unit N).
    cbn [row_of unit domain.Storage.Key domain.Storage.Value
         domain.Storage.Name domain.Storage.Type_].
    rewrite D. reflexivity.
  - intros other Ho. fold unit. rewrite W. cbn [snd].
    unfold handler.ReadRecord.
    cbn [middleware.GetTokenFromContext negb emit w_db
         proto.ReadRecordRequest.Id].
    cbn [services.ReadRecord Svc services.NewStorageService].
    unfold id. rewrite (repository_ReadRecord_written_other _ unit _ N Ho).
    reflexivity.
Qed.

Lemma uploaded_record_is_downloaded_witness :
  exists st' w',
    @handler.WriteRecord xorgcm.instance gorm.DB services.NewStorageService
      sample_handler
      (stream.mk (Some sample_caller) (map inl abc_def ++ []) [] [])
      (world_of sample_store)
    = Ok (None, (st', w'))
    /\ answer (@handler.ReadRecord xorgcm.instance gorm.DB
                 services.NewStorageService sample_handler (Some sample_caller)
                 (proto.ReadRecordRequest.mk 3) w')
       = Ok (Some (proto.ReadRecordResponse.mk "n" "text"
                     [x61; x62; x63; x64; x65; x66] ""), None).
Proof.
  destruct (@uploaded_record_is_downloaded xorgcm.instance xorgcm_sound
              sample_handler sample_caller abc_def [] [] []
              (world_of sample_store))
    as (st' & w' & W & R & _).
  - left. reflexivity.
  - simpl. lia.
  - simpl. lia.
  - reflexivity.
  - repeat constructor; cbn; lia.
  - reflexivity.
  - exists st', w'. split; [exact W|exact R].
Defined.

(** ** Registration and login *)

Lemma existsb_false_find {A} (p : A -> bool) (l : list A) :
  existsb p l = false -> find p l = None.
Proof.
  induction l as [|a l IH]; cbn [existsb find]; [reflexivity|].
  destruct (p a); [discriminate|exact IH].
Qed.

Section UserFacts.
Context {H : Sha256} {J : JoseEncoding} {B : Bcrypt}.

Lemma Register_runs (h : userhandler.UserHandler) (login password : string)
      (w : World gorm.DB) (hash : bytes) (rnd : entropy) :
  login <> "" -> password <> "" ->
  bcrypt_GenerateFromPassword (list_byte_of_string password) bcrypt_DefaultCost
                              (w_rand w) = ((hash, None), rnd) ->
  @userhandler.Register H J B gorm.DB services.NewUserService h
    (userhandler.RegiserRequest.mk login password) w
  = let hashed := string_of_list_byte hash in
    let w1 := emit (CallCreateUser login hashed)
                (setRand rnd (emit (CallGenerateFromPassword
                                      (list_byte_of_string password)) w)) in
    let '((user, err), db) := repository.CreateUser (w_db w) login hashed in
    let w2 := setDB db w1 in
    match err with
    | Some e =>
        Ok ((Some (userhandler.RegisterResponse.mk (jwt.Malformed "")
                     match errors.AsPgError e with
                     | Some code =>
                         if String.eqb code gorm.UniqueViolation
                         then "this user exists" else "failed create user"
                     | None => "failed create user"
                     end), None),
            emit (LogError "failed create user" (Some e)) w2)
    | None =>
        match user with
        | None => Panic "runtime error: invalid memory address or nil pointer dereference"
        | Some user =>
            match userhandler.getJWT (userhandler.JWTkey h) (domain.User.ID user)
                                     (domain.User.Login user) (w_now w) with
            | Ok token =>
                Ok ((Some (userhandler.RegisterResponse.mk token ""), None), w2)
            | Err e =>
                Ok ((Some (userhandler.RegisterResponse.mk (jwt.Malformed "")
                             "failed create jwt token"), None),
                    emit (LogError "failed create jwt token" (Some e)) w2)
            | Panic m => Panic m
            end
        end
    end.
Proof.
  intros Hl Hp G. unfold userhandler.Register.
  cbn [userhandler.RegiserRequest.Login userhandler.RegiserRequest.Password].
  apply String.eqb_neq in Hl, Hp. rewrite Hl, Hp. cbn [orb emit w_rand].
  rewrite G. cbn [setRand emit w_db].
  cbn [services.CreateUser services.NewUserService].
  destruct (repository.CreateUser (w_db w) login (string_of_list_byte hash))
    as [[user [e|]] db]; reflexivity.
Qed.

End UserFacts.

Lemma repository_CreateUser_fresh (db : gorm.DB) (login hash : string) :
  gorm.fault db = None -> known db login = false ->
  repository.CreateUser db login hash
  = ((Some (domain.User.mk (gorm.user_seq db + 1) login hash), None),
     gorm.mkDB (gorm.storages db)
               (gorm.users db ++ [domain.User.mk (gorm.user_seq db + 1) login hash])
               (gorm.storage_seq db) (gorm.user_seq db + 1) None
               (gorm.delivered db)).
Proof.
  intros F K. unfold repository.CreateUser, gorm.CreateUser. rewrite F.
  cbn [domain.User.Login]. unfold known in K. rewrite K. reflexivity.
Qed.

Lemma repository_CreateUser_known (db : gorm.DB) (login hash : string) :
  gorm.fault db = None -> known db login = true ->
  repository.CreateUser db login hash
  = ((None, Some (PgError gorm.UniqueViolation)), db).
Proof.
  intros F K. unfold repository.CreateUser, gorm.CreateUser. rewrite F.
  cbn [domain.User.Login]. unfold known in K. rewrite K. reflexivity.
Qed.

(** X8. Registering and then logging in: in a store that is up and does
    not know the login, a registration with a non-empty login and
    password whose hash is generated creates exactly one user, with the
    next id, the login and the hash (not the password), and returns a
    token for that id and login.  If the hash obeys its law, a login with
    the same credentials afterwards returns a token for the same id and
    login, and a login with a password the hash does not match answers
    "login or password incorrect". *)
Theorem Register_then_Login
        {H : Sha256} {J : JoseEncoding} {B : Bcrypt} (lawful : Bcrypt_sound)
        (h : userhandler.UserHandler) (login password : string)
        (w : World gorm.DB) (hash : bytes) (rnd : entropy) :
  login <> "" -> password <> "" ->
  gorm.fault (w_db w) = None ->
  known (w_db w) login = false ->
  bcrypt_GenerateFromPassword (list_byte_of_string password) bcrypt_DefaultCost
                              (w_rand w) = ((hash, None), rnd) ->
  let Svc := services.NewUserService in
  let id := (gorm.user_seq (w_db w) + 1)%Z in
  exists tok w1,
    userhandler.Register h (userhandler.RegiserRequest.mk login password) w
    = Ok ((Some (userhandler.RegisterResponse.mk (jwt.Compact tok) ""), None), w1)
    /\ middleware.ID (jwt.Claims tok) = id
    /\ middleware.Login (jwt.Claims tok) = login
    /\ gorm.users (w_db w1)
       = gorm.users (w_db w) ++ [domain.User.mk id login (string_of_list_byte hash)]
    /\ (forall w2,
           w_db w2 = w_db w1 ->
           exists tok2 w3,
             userhandler.Login h (userhandler.LoginRequest.mk login password) w2
             = Ok ((Some (userhandler.LoginResponse.mk (jwt.Compact tok2) ""),
                    None), w3)
             /\ middleware.ID (jwt.Claims tok2) = id
             /\ middleware.Login (jwt.Claims tok2) = login)
    /\ (forall w2 other,
           w_db w2 = w_db w1 ->
           bcrypt_CompareHashAndPassword hash (list_byte_of_string other) <> None ->
           answer (userhandler.Login h (userhandler.LoginRequest.mk login other) w2)
           = Ok (Some (userhandler.LoginResponse.mk (jwt.Malformed "")
                         "login or password incorrect"), None)).
Proof.
  intros Hl Hp F K G Svc id.
  pose proof (repository_CreateUser_fresh (w_db w) login
                (string_of_list_byte hash) F K) as C.
  assert (Find : forall w2,
             w_db w2
             = gorm.mkDB (gorm.storages (w_db w))
                 (gorm.users (w_db w)
                    ++ [domain.User.mk id login (string_of_list_byte hash)])
                 (gorm.storage_seq (w_db w)) id None
                 (gorm.delivered (w_db w)) ->
             repository.FindUserByLogin (w_db w2) login
             = (Some (domain.User.mk id login (string_of_list_byte hash)), None)).
  { intros w2 E. rewrite E. unfold repository.FindUserByLogin, gorm.FirstUser.
    cbn [gorm.fault gorm.users].
    rewrite find_none_app by (apply existsb_false_find; exact K).
    cbn [domain.User.Login]. rewrite String.eqb_refl. reflexivity. }
  do 2 eexists.
  split; [rewrite (Register_runs h login password w hash rnd Hl Hp G);
          cbv zeta; rewrite C; reflexivity|].
  split; [reflexivity|]. split; [reflexivity|]. split; [reflexivity|]. split.
  - intros w2 E. cbn [setDB w_db] in E. unfold userhandler.Login.
    cbn [emit w_db userhandler.LoginRequest.Login
         userhandler.LoginRequest.Password].
    cbn [services.FindUserByLogin Svc services.NewUserService].
    rewrite (Find w2 E). cbn [domain.User.Hash].
    rewrite list_byte_of_string_of_list_byte.
    rewrite (lawful _ _ _ _ _ G). do 2 eexists. repeat split.
  - intros w2 other E Hne. cbn [setDB w_db] in E. unfold userhandler.Login.
    cbn [emit w_db userhandler.LoginRequest.Login
         userhandler.LoginRequest.Password].
    cbn [services.FindUserByLogin Svc services.NewUserService].
    rewrite (Find w2 E). cbn [domain.User.Hash].
    rewrite list_byte_of_string_of_list_byte.
    destruct (bcrypt_CompareHashAndPassword hash (list_byte_of_string other));
      [reflexivity|contradiction].
Qed.

(** X9. A login that is taken cannot be registered again: in a store
    that is up and knows the login, a registration with non-empty
    credentials whose hash is generated answers "this user exists" with
    no token, and leaves the store as it was. *)
Theorem Register_taken_login
        {H : Sha256} {J : JoseEncoding} {B : Bcrypt}
        (h : userhandler.UserHandler) (login password : string)
        (w : World gorm.DB) (hash : bytes) (rnd : entropy) :
  login <> "" -> password <> "" ->
  gorm.fault (w_db w) = None ->
  known (w_db w) login = true ->
  bcrypt_GenerateFromPassword (list_byte_of_string password) bcrypt_DefaultCost
                              (w_rand w) = ((hash, None), rnd) ->
  let Svc := services.NewUserService in
  exists w1,
    userhandler.Register h (userhandler.RegiserRequest.mk login password) w
    = Ok ((Some (userhandler.RegisterResponse.mk (jwt.Malformed "")
                   "this user exists"), None), w1)
    /\ w_db w1 = w_db w.
Proof.
  intros Hl Hp F K G Svc. eexists.
  rewrite (Register_runs h login password w hash rnd Hl Hp G). cbv zeta.
  rewrite (repository_CreateUser_known _ _ _ F K). split; reflexivity.
Qed.

Lemma xorcrypt_sound : @Bcrypt_sound xorcrypt.instance.
Proof.
  intros password cost rnd hash rnd'.
  cbn [bcrypt_GenerateFromPassword bcrypt_CompareHashAndPassword
       xorcrypt.instance].
  unfold xorcrypt.GenerateFromPassword, xorcrypt.CompareHashAndPassword.
  destruct (72 <? length password)%nat; [discriminate|].
  destruct (Nat.leb_spec 16 (length rnd)) as [L|L]; [|discriminate].
  assert (Ls : length (firstn 16 rnd) = 16%nat)
    by (rewrite length_firstn; apply Nat.min_l; exact L).
  remember (firstn 16 rnd) as salt eqn:Es. clear Es.
  intros E. injection E as <- _.
  assert (S : firstn 16 (xorcrypt.seal salt password) = salt).
  { unfold xorcrypt.seal.
    rewrite firstn_app, Ls, Nat.sub_diag, firstn_all2 by lia.
    cbn [firstn]. apply app_nil_r. }
  rewrite S, bytes_eqb_refl. reflexivity.
Qed.

Lemma Register_then_Login_witness :
  exists tok w1,
    @userhandler.Register sha256.instance jose.instance xorcrypt.instance
      gorm.DB services.NewUserService sample_user_handler
      (userhandler.RegiserRequest.mk "alice" "pw1") (world_of empty_store)
    = Ok ((Some (userhandler.RegisterResponse.mk (jwt.Compact tok) ""), None), w1)
    /\ map domain.User.Login (gorm.users (w_db w1)) = ["alice"]
    /\ (exists tok2 w3,
          @userhandler.Login sha256.instance jose.instance xorcrypt.instance
            gorm.DB services.NewUserService sample_user_handler
            (userhandler.LoginRequest.mk "alice" "pw1") w1
          = Ok ((Some (userhandler.LoginResponse.mk (jwt.Compact tok2) ""), None),
                w3)
          /\ middleware.ID (jwt.Claims tok2) = 1%Z)
    /\ answer (@userhandler.Login sha256.instance jose.instance xorcrypt.instance
                 gorm.DB services.NewUserService sample_user_handler
                 (userhandler.LoginRequest.mk "alice" "pw2") w1)
       = Ok (Some (userhandler.LoginResponse.mk (jwt.Malformed "")
                     "login or password incorrect"), None).
Proof.
  destruct (@Register_then_Login sha256.instance jose.instance xorcrypt.instance
              xorcrypt_sound sample_user_handler "alice" "pw1"
              (world_of empty_store)
              (xorcrypt.seal (firstn 16 sample_entropy) (list_byte_of_string "pw1"))
              (skipn 16 sample_entropy))
    as (tok & w1 & R & _ & _ & U & L & Wrong);
    try reflexivity; try discriminate.
  exists tok, w1. split; [exact R|]. split; [rewrite U; reflexivity|]. split.
  - destruct (L w1 eq_refl) as (tok2 & w3 & E & I & _).
    exists tok2, w3. split; [exact E|exact I].
  - apply Wrong; [reflexivity|]. vm_compute. discriminate.
Defined.

Lemma Register_taken_login_witness :
  let taken :=
    world_of (gorm.mkDB [] [domain.User.mk 1 "alice" "hash"] 0 1 None 0) in
  exists w1,
    @userhandler.Register sha256.instance jose.instance xorcrypt.instance
      gorm.DB services.NewUserService sample_user_handler
      (userhandler.RegiserRequest.mk "alice" "pw9") taken
    = Ok ((Some (userhandler.RegisterResponse.mk (jwt.Malformed "")
                   "this user exists"), None), w1)
    /\ w_db w1 = w_db taken.
Proof.
  intros taken.
  apply (@Register_taken_login sha256.instance jose.instance xorcrypt.instance
           sample_user_handler "alice" "pw9" taken
           (xorcrypt.seal (firstn 16 sample_entropy) (list_byte_of_string "pw9"))
           (skipn 16 sample_entropy));
    try reflexivity; discriminate.
Defined.

(** ** The authenticator *)

(** X11. The authenticator attaches an identity only after a successful
    verification, and the handlers act for it.  Whenever
    [GetAuthenticator] returns a context, the call carried a bearer
    token, [verifyJWTandGetPayload] returned no error for it, and the
    claims the handlers read from the context are the ones it returned;
    without bearer metadata no context is returned.  For a token issued
    by [getJWT] and presented before its expiry a context is returned,
    and the list and delete handlers query the store for exactly the
    issued user id. *)
Theorem authenticator_passes_the_issued_identity
        {H : Sha256} {J : JoseEncoding}
        {DB : Type} {Svc : services.StorageService DB}
        (k : string) (u : Z) (l : string) (t now : Z) :
  (now < jwt.NewNumericDate (t + 30 * userhandler.Minute))%Z ->
  (exists tok ctx,
      userhandler.getJWT k u l t = Ok tok
      /\ interceptors.GetAuthenticator k (Some tok) now None = Ok ctx
      /\ middleware.ID (fst (middleware.GetTokenFromContext ctx)) = u
      /\ snd (middleware.GetTokenFromContext ctx) = true
      /\ (forall s (w : World DB),
             exists more,
               w_trace (snd (handler.ReadAllRecord s ctx w))
               = w_trace w ++ CallReadAllRecord u :: more)
      /\ (forall s id (w : World DB),
             exists more,
               w_trace (snd (handler.DeleteRecord s ctx
                               (proto.DeleteRecordRequest.mk id) w))
               = w_trace w ++ CallDeleteRecord id u :: more))
  /\ (forall bearer at_ ctx0 ctx,
         interceptors.GetAuthenticator k bearer at_ ctx0 = Ok ctx ->
         exists tok,
           bearer = Some tok
           /\ snd (interceptors.verifyJWTandGetPayload k tok at_) = None
           /\ middleware.GetTokenFromContext ctx
              = (fst (interceptors.verifyJWTandGetPayload k tok at_), true))
  /\ (forall at_ ctx0,
         exists e, interceptors.GetAuthenticator k None at_ ctx0 = Err e).
Proof.
  intros Hnow. split; [|split].
  - destruct (getJWT_token k u l t) as (tok & G & C & S).
    exists (jwt.Compact tok), (Some (jwt.Claims tok)).
    split; [exact G|]. split.
    { unfold interceptors.GetAuthenticator. rewrite verify_accepts.
      - reflexivity.
      - exact S.
      - rewrite C. cbn [middleware.ExpiresAt]. intros exp [= <-]. exact Hnow. }
    rewrite C. split; [reflexivity|]. split; [reflexivity|]. split.
    + intros s w. unfold handler.ReadAllRecord.
      cbn [middleware.GetTokenFromContext negb middleware.ID emit w_db].
      destruct (services.ReadAllRecord _ _) as [rec [e|]];
        cbn [snd emit w_trace]; rewrite <- ?app_assoc; eexists; reflexivity.
    + intros s id w. unfold handler.DeleteRecord.
      cbn [middleware.GetTokenFromContext negb middleware.ID emit w_db
           proto.DeleteRecordRequest.Id].
      destruct (services.DeleteRecord _ _ _) as [[e|] db];
        cbn [snd emit setDB w_trace]; rewrite <- ?app_assoc; eexists;
        reflexivity.
  - intros bearer at_ ctx0 ctx. unfold interceptors.GetAuthenticator.
    destruct bearer as [tok|]; [|discriminate].
    destruct (interceptors.verifyJWTandGetPayload k tok at_) as [pl [e|]] eqn:V;
      [discriminate|].
    intros [= <-]. exists tok. rewrite V.
    split; [reflexivity|split; reflexivity].
  - intros at_ ctx0. eexists. reflexivity.
Qed.

Lemma authenticator_passes_the_issued_identity_witness :
  exists tok ctx,
    @userhandler.getJWT sha256.instance jose.instance "secret" 1 "test"
                        sample_issue_time = Ok tok
    /\ @interceptors.GetAuthenticator sha256.instance jose.instance
         "secret" (Some tok) (sample_issue_time + 1)%Z None = Ok ctx
    /\ middleware.ID (fst (middleware.GetTokenFromContext ctx)) = 1%Z
    /\ exists more,
         w_trace (snd (@handler.ReadAllRecord gorm.DB services.NewStorageService
                         sample_handler ctx (world_of sample_store)))
         = CallReadAllRecord 1 :: more.
Proof.
  destruct (@authenticator_passes_the_issued_identity sha256.instance jose.instance
              gorm.DB services.NewStorageService
              "secret" 1 "test" sample_issue_time (sample_issue_time + 1)%Z)
    as ((tok & ctx & G & A & I & _ & R & _) & _).
  - vm_compute. reflexivity.
  - exists tok, ctx. split; [exact G|]. split; [exact A|]. split; [exact I|].
    exact (R sample_handler (world_of sample_store)).
Defined.

(** ** The upload handler and its stream *)

Section StreamFacts.
Context {aead : AesGcm} {DB : Type} {Svc : services.StorageService DB}.

Lemma answered_refl (a : stream.t) : answered a a [].
Proof. split; [symmetry; apply app_nil_r|apply incl_refl]. Qed.

Lemma answered_trans (a b c : stream.t)
      (m1 m2 : list proto.WriteRecordResponse.t) :
  answered a b m1 -> answered b c m2 -> answered a c (m1 ++ m2).
Proof.
  intros (C1 & I1) (C2 & I2). split.
  - rewrite C2, C1, app_assoc. reflexivity.
  - eapply incl_tran; eassumption.
Qed.

Lemma close_error_incl (a b : stream.t)
      (m : list proto.WriteRecordResponse.t) (e : error) :
  answered a b m -> close_error b e -> close_error a e.
Proof. intros (_ & I) (c & Hin & ->). exists c. split; [apply I, Hin|reflexivity]. Qed.

Lemma SendAndClose_answered (resp : proto.WriteRecordResponse.t) (a : stream.t) :
  answered a (snd (stream.SendAndClose resp a)) [resp]
  /\ forall c, fst (stream.SendAndClose resp a) = Some c ->
               In (Some c) (stream.closing a).
Proof.
  unfold stream.SendAndClose, answered.
  destruct (stream.closing a) as [|r rest].
  - cbn [fst snd]. split; [|discriminate]. split; [reflexivity|].
    cbn [stream.closing]. apply incl_nil_l.
  - cbn [fst snd]. split.
    + split; [reflexivity|]. cbn [stream.closing]. apply incl_tl, incl_refl.
    + intros c ->. left. reflexivity.
Qed.

Lemma stage_ok_idle (a : stream.t) (f : @handler.frame DB) :
  handler.strm f = a -> stage_ok a (None, f).
Proof. intros <-. exists []. split; [apply answered_refl|discriminate]. Qed.

Lemma stage_ok_seq (a : stream.t) (f : @handler.frame DB)
      (R : option error * @handler.frame DB) :
  stage_ok a (None, f) -> stage_ok (handler.strm f) R -> stage_ok a R.
Proof.
  intros (m1 & A1 & _) (m2 & A2 & E2). cbn [snd] in A1.
  exists (m1 ++ m2). split; [eapply answered_trans; eassumption|].
  intros e He. destruct (E2 e He) as (N & C). split.
  - intros Z. apply app_eq_nil in Z as (_ & Z). contradiction.
  - eapply close_error_incl; eassumption.
Qed.

Lemma failStage_stage (msg : string) (cause : option error)
      (f : @handler.frame DB) :
  stage_ok (handler.strm f) (handler.failStage msg cause f).
Proof.
  unfold handler.failStage.
  pose proof (SendAndClose_answered (proto.WriteRecordResponse.mk msg)
                                    (handler.strm f)) as (A & C).
  destruct (stream.SendAndClose _ _) as [[c|] st]; cbn [fst snd] in A, C.
  - exists [proto.WriteRecordResponse.mk msg]. split; [exact A|].
    intros e [= <-]. split; [discriminate|]. exists c. split; [|reflexivity].
    apply C. reflexivity.
  - exists [proto.WriteRecordResponse.mk msg]. split; [exact A|]. discriminate.
Qed.

Lemma recvBody_stage (chunk : option proto.WriteRecordRequest.t)
      (err : option error) (f : @handler.frame DB) :
  stage_ok (handler.strm f) (handler.recvBody chunk err f).
Proof.
  unfold handler.recvBody, Buffer_Write.
  destruct err as [e|].
  - pose proof (failStage_stage "failed recive chunk" (Some e) f) as S.
    destruct (handler.failStage _ _ f) as [[r|] f1]; [exact S|].
    eapply stage_ok_seq; [exact S|]. apply stage_ok_idle. reflexivity.
  - apply stage_ok_idle. reflexivity.
Qed.

Lemma setIncoming_stage (rest : list (proto.WriteRecordRequest.t + error))
      (f : @handler.frame DB) :
  stage_ok (handler.strm f) (None, handler.setIncoming rest f).
Proof.
  exists []. split; [|discriminate].
  split; [symmetry; apply app_nil_r|apply incl_refl].
Qed.

Lemma recvLoop_stage (incoming : list (proto.WriteRecordRequest.t + error))
      (f : @handler.frame DB) :
  stage_ok (handler.strm f) (handler.recvLoop incoming f).
Proof.
  revert f. induction incoming as [|r rest IH]; intros f.
  - cbn [handler.recvLoop]. apply setIncoming_stage.
  - cbn [handler.recvLoop].
    pose proof (setIncoming_stage rest f) as S0.
    destruct (stream.received r) as [chunk err].
    destruct (handler.is_EOF err); [exact S0|].
    pose proof (recvBody_stage chunk err (handler.setIncoming rest f)) as S1.
    destruct (handler.recvBody _ _ _) as [[ret|] f1].
    + eapply stage_ok_seq; [exact S0|exact S1].
    + eapply stage_ok_seq; [|apply IH].
      eapply stage_ok_seq; [exact S0|exact S1].
Qed.

End StreamFacts.

Lemma stage_returns {DB : Type} (a : stream.t) (r : error)
      (f : @handler.frame DB) :
  stage_ok a (Some r, f) ->
  (exists resp more,
      stream.closed (handler.strm f) = stream.closed a ++ resp :: more)
  /\ (forall e, Some r = Some e -> close_error a e).
Proof.
  intros (m & (C & _) & E). destruct (E r eq_refl) as (N & X).
  cbn [snd] in C. split.
  - destruct m as [|resp more]; [contradiction|]. exists resp, more. exact C.
  - intros e [= <-]. exact X.
Qed.

Lemma stage_closes {DB : Type} (a : stream.t) (f : @handler.frame DB)
      (resp : proto.WriteRecordResponse.t) (st1 : stream.t) :
  stage_ok a (None, f) -> handler.strm f = st1 ->
  (exists r more,
      stream.closed (snd (stream.SendAndClose resp st1))
      = stream.closed a ++ r :: more)
  /\ (forall c, fst (stream.SendAndClose resp st1) = Some c ->
                close_error a (Errorf handler.errorCloseStream c)).
Proof.
  intros (m & A & _) <-. cbn [snd] in A.
  destruct (SendAndClose_answered resp (handler.strm f)) as (A1 & C1).
  pose proof (answered_trans _ _ _ _ _ A A1) as (C & _). split.
  - rewrite C. destruct m as [|r more]; cbn [app]; eauto.
  - intros c Hc. apply (close_error_incl _ _ _ _ A).
    exists c. split; [apply C1, Hc|reflexivity].
Qed.

(** X12. Every run of the upload handler answers the client, and the
    only error it ever returns is a failure to close the stream: for every
    stream, store and world [WriteRecord] returns, at least one response
    was sent with [SendAndClose], and a returned error wraps one of the
    failures of [SendAndClose]; a missing identity, a failed receive, a
    failed encryption and a failed store are reported in the response
    only.  On a stream that closes without failure the handler returns
    [nil] whatever happened. *)
Theorem WriteRecord_answers_and_returns_only_close_failures
        {aead : AesGcm} {DB : Type} {Svc : services.StorageService DB}
        (s : handler.StorageHandler) (st : stream.t) (w : World DB) :
  exists ret st' w',
    handler.WriteRecord s st w = Ok (ret, (st', w'))
    /\ (exists resp more,
           stream.closed st' = stream.closed st ++ resp :: more)
    /\ (forall e, ret = Some e -> close_error st e)
    /\ (Forall (fun c => c = None) (stream.closing st) -> ret = None).
Proof.
  assert (G : exists ret st' w',
             handler.WriteRecord s st w = Ok (ret, (st', w'))
             /\ (exists resp more,
                    stream.closed st' = stream.closed st ++ resp :: more)
             /\ (forall e, ret = Some e -> close_error st e)).
  2:{ destruct G as (ret & st' & w' & E & A & C).
      exists ret, st', w'. repeat split; try assumption.
      intros F. destruct ret as [e|]; [|reflexivity].
      destruct (C e eq_refl) as (c & Hin & _).
      rewrite Forall_forall in F. specialize (F _ Hin). discriminate. }
  unfold handler.WriteRecord.
  set (f0 := handler.mkFrame proto.WriteRecordResponse.zero "" "" [] st w).
  destruct (middleware.GetTokenFromContext (stream.Context st)) as [token ok].
  assert (S1 : stage_ok st (if negb ok
                            then handler.failStage handler.errorInvalidToken None f0
                            else (None, f0))).
  { destruct (negb ok); [apply (failStage_stage _ _ f0)|].
    apply stage_ok_idle. reflexivity. }
  destruct (if negb ok then _ else _) as [[r|] f1].
  { do 3 eexists. split; [reflexivity|]. apply stage_returns, S1. }
  pose proof (stage_ok_seq _ _ _ S1
                (recvLoop_stage (stream.incoming (handler.strm f1)) f1)) as S2.
  destruct (handler.recvLoop _ f1) as [[r|] f2].
  { do 3 eexists. split; [reflexivity|]. apply stage_returns, S2. }
  assert (Tail : forall (f3 : @handler.frame DB) (err : option error),
             stage_ok st (None, f3) ->
             exists ret st' w',
               (let '(ret, f) :=
                  match err with
                  | Some e => handler.failStage "failed write record" (Some e) f3
                  | None => (None, f3)
                  end in
                match ret with
                | Some r => Ok (Some r, (handler.strm f, handler.world f))
                | None =>
                    let (err, st) :=
                      stream.SendAndClose (handler.resp f) (handler.strm f) in
                    match err with
                    | Some e =>
                        Ok (Some (Errorf handler.errorCloseStream e),
                            (st, handler.world f))
                    | None => Ok (None, (st, handler.world f))
                    end
                end) = Ok (ret, (st', w'))
               /\ (exists resp more,
                      stream.closed st' = stream.closed st ++ resp :: more)
               /\ (forall e, ret = Some e -> close_error st e)).
  { intros f3 err S3.
    assert (S4 : stage_ok st
                   match err with
                   | Some e => handler.failStage "failed write record" (Some e) f3
                   | None => (None, f3)
                   end).
    { destruct err as [e|]; [|exact S3].
      eapply stage_ok_seq; [exact S3|]. apply failStage_stage. }
    destruct (match err with Some e => _ | None => _ end) as [[r|] f4].
    { do 3 eexists. split; [reflexivity|]. apply stage_returns, S4. }
    destruct (stage_closes st f4 (handler.resp f4) (handler.strm f4) S4 eq_refl)
      as (A & C).
    destruct (stream.SendAndClose _ _) as [[c|] st2]; cbn [fst snd] in A, C.
    - do 3 eexists. split; [reflexivity|]. split; [exact A|].
      intros e [= <-]. apply C. reflexivity.
    - do 3 eexists. split; [reflexivity|]. split; [exact A|]. discriminate. }
  destruct (encryptionData _ _ _) as [[[data key] rnd]|e|m] eqn:E.
  - cbn zeta. destruct (services.WriteRecord _ _) as [err db].
    apply Tail. eapply stage_ok_seq; [exact S2|].
    apply stage_ok_idle. reflexivity.
  - pose proof (stage_ok_seq _ _ _ S2
                  (failStage_stage "failed encrypt data" (Some e) f2)) as S3.
    destruct (handler.failStage "failed encrypt data" (Some e) f2) as [[r|] f3].
    { do 3 eexists. split; [reflexivity|]. apply stage_returns, S3. }
    cbn zeta. destruct (services.WriteRecord _ _) as [err db].
    apply Tail. eapply stage_ok_seq; [exact S3|].
    apply stage_ok_idle. reflexivity.
  - exfalso. exact (encryptionData_no_panic _ _ _ _ E).
Qed.

Lemma WriteRecord_answers_and_returns_only_close_failures_witness :
  exists st' w',
    @handler.WriteRecord xorgcm.instance gorm.DB services.NewStorageService
      sample_handler (stream.mk None [] [None; None; None; None] [])
      (world_of sample_store)
    = Ok (None, (st', w')).
Proof.
  destruct (@WriteRecord_answers_and_returns_only_close_failures
              xorgcm.instance gorm.DB services.NewStorageService
              sample_handler (stream.mk None [] [None; None; None; None] [])
              (world_of sample_store))
    as (ret & st' & w' & E & _ & _ & N).
  exists st', w'. rewrite E, N; [reflexivity|].
  cbn [stream.closing]. repeat constructor.
Defined.

(** ** The logger of the interceptors *)

Lemma list_pair_ind {A} (P : list A -> Prop) :
  P [] -> (forall a, P [a]) ->
  (forall a b rest, P rest -> P (a :: b :: rest)) ->
  forall l, P l.
Proof.
  intros H0 H1 H2.
  fix IH 1. intros [|a [|b rest]].
  - exact H0.
  - apply H1.
  - apply H2, IH.
Qed.

Lemma pairFields_ofPairs (kvs : list (string * zaplog.any)) :
  exists fs,
    zaplog.pairFields (zaplog.ofPairs kvs) = Ok fs
    /\ map zaplog.Key fs = map fst kvs
    /\ map zaplog.Value fs = map snd kvs.
Proof.
  induction kvs as [|[k v] kvs (fs & E & K & V)].
  - exists []. repeat split.
  - unfold zaplog.ofPairs. cbn [flat_map app fst snd zaplog.pairFields].
    fold (zaplog.ofPairs kvs). rewrite E. cbn [bind].
    eexists. split; [reflexivity|]. cbn [map]. rewrite K, V.
    destruct v; split; reflexivity.
Qed.

Lemma pairFields_shape (fields : list zaplog.any) :
  match zaplog.pairFields fields with
  | Ok _ => exists kvs, fields = zaplog.ofPairs kvs
  | Err _ => False
  | Panic _ => True
  end.
Proof.
  induction fields as [|a|a b rest IH] using list_pair_ind.
  - exists []. reflexivity.
  - exact I.
  - cbn [zaplog.pairFields]. destruct a as [k| | | |]; try exact I.
    destruct (zaplog.pairFields rest) as [fs|e|m]; cbn [bind];
      [|contradiction|exact I].
    destruct IH as (kvs & ->). exists ((k, b) :: kvs). reflexivity.
Qed.

Lemma pairFields_odd (fields : list zaplog.any) :
  Nat.odd (length fields) = true ->
  exists m, zaplog.pairFields fields = Panic m.
Proof.
  induction fields as [|a|a b rest IH] using list_pair_ind.
  - discriminate.
  - intros _. eexists. reflexivity.
  - cbn [length]. rewrite Nat.odd_succ_succ. intros O.
    destruct (IH O) as (m & E). cbn [zaplog.pairFields]. rewrite E.
    destruct a; eexists; reflexivity.
Qed.

(** X13. The logger of the interceptors takes its fields as string-keyed
    pairs and panics on anything else: the call returns exactly when the
    fields are [k1, v1, k2, v2, ...] with string keys, it panics on every
    other list, in particular on every list of odd length, and it never
    fails otherwise.  On pairs, every entry it logs begins with one field
    per pair, in order, under the pair's key and with the pair's value,
    and the message is kept: as the entry's message at the four named
    levels, as the field "msg" at any other level. *)
Theorem InterceptorLogger_takes_string_keyed_pairs
        (lvl : zaplog.Level) (msg : string) (fields : list zaplog.any) :
  ((exists entries, zaplog.InterceptorLogger lvl msg fields = Ok entries)
   <-> exists kvs, fields = zaplog.ofPairs kvs)
  /\ ((forall kvs, fields <> zaplog.ofPairs kvs) ->
      exists m, zaplog.InterceptorLogger lvl msg fields = Panic m)
  /\ (Nat.odd (length fields) = true ->
      exists m, zaplog.InterceptorLogger lvl msg fields = Panic m)
  /\ (forall kvs,
         fields = zaplog.ofPairs kvs ->
         exists entries,
           zaplog.InterceptorLogger lvl msg fields = Ok entries
           /\ Forall (fun e =>
                        map zaplog.Key (firstn (length kvs) (zaplog.fields e))
                        = map fst kvs
                        /\ map zaplog.Value
                               (firstn (length kvs) (zaplog.fields e))
                           = map snd kvs) entries
           /\ Exists (fun e =>
                        zaplog.message e = msg
                        \/ In (zaplog.String_ "msg" msg) (zaplog.fields e))
                     entries).
Proof.
  assert (Pairs : forall kvs,
             fields = zaplog.ofPairs kvs ->
             exists entries,
               zaplog.InterceptorLogger lvl msg fields = Ok entries
               /\ Forall (fun e =>
                            map zaplog.Key (firstn (length kvs) (zaplog.fields e))
                            = map fst kvs
                            /\ map zaplog.Value
                                   (firstn (length kvs) (zaplog.fields e))
                               = map snd kvs) entries
               /\ Exists (fun e =>
                            zaplog.message e = msg
                            \/ In (zaplog.String_ "msg" msg) (zaplog.fields e))
                         entries).
  { intros kvs ->. destruct (pairFields_ofPairs kvs) as (fs & E & K & V).
    assert (L : length fs = length kvs).
    { rewrite <- (length_map zaplog.Key fs), K. apply length_map. }
    unfold zaplog.InterceptorLogger. rewrite E. cbn [bind].
    assert (F0 : firstn (length kvs) fs = fs)
      by (rewrite <- L; apply firstn_all).
    assert (F1 : forall extra, firstn (length kvs) (fs ++ extra) = fs).
    { intros extra. rewrite <- L, firstn_app, Nat.sub_diag, firstn_all.
      cbn [firstn]. apply app_nil_r. }
    destruct lvl; eexists; (split; [reflexivity|]); split;
      repeat (apply Forall_cons || apply Forall_nil);
      cbn [zaplog.fields]; rewrite ?F0, ?F1; try (split; assumption);
      try (apply Exists_cons_hd; left; reflexivity).
    apply Exists_cons_tl, Exists_cons_hd. right. cbn [zaplog.fields].
    apply in_or_app. right. left. reflexivity. }
  pose proof (pairFields_shape fields) as Sh.
  split; [|split; [|split]].
  - split.
    + intros (entries & E). unfold zaplog.InterceptorLogger in E.
      destruct (zaplog.pairFields fields) as [fs|e|m]; cbn [bind] in E;
        [exact Sh|discriminate|discriminate].
    + intros (kvs & E). destruct (Pairs kvs E) as (entries & R & _).
      exists entries. exact R.
  - intros N. unfold zaplog.InterceptorLogger.
    destruct (zaplog.pairFields fields) as [fs|e|m]; cbn [bind].
    + destruct Sh as (kvs & E). destruct (N kvs E).
    + contradiction.
    + eexists. reflexivity.
  - intros O. destruct (pairFields_odd fields O) as (m & E).
    unfold zaplog.InterceptorLogger. rewrite E. eexists. reflexivity.
  - exact Pairs.
Qed.

Lemma InterceptorLogger_takes_string_keyed_pairs_witness :
  exists m,
    zaplog.InterceptorLogger zaplog.LevelInfo "started call"
      [zaplog.AString "grpc.service"; zaplog.AString "Storage";
       zaplog.AString "grpc.code"] = Panic m.
Proof.
  apply (proj1 (proj2 (proj2
           (InterceptorLogger_takes_string_keyed_pairs zaplog.LevelInfo
              "started call"
              [zaplog.AString "grpc.service"; zaplog.AString "Storage";
               zaplog.AString "grpc.code"])))).
  reflexivity.
Defined.

(** ** The agent's upload *)

Lemma Send_facts (m : proto.WriteRecordRequest.t) (s : client.Stream) :
  client.reply (snd (client.Send m s)) = client.reply s
  /\ client.closes (snd (client.Send m s)) = client.closes s
  /\ (fst (client.Send m s) = None ->
      client.sent (snd (client.Send m s)) = client.sent s ++ [m])
  /\ (fst (client.Send m s) <> None ->
      client.sent (snd (client.Send m s)) = client.sent s).
Proof.
  unfold client.Send. destruct (client.sending s) as [|[e|] rest];
    cbn [fst snd client.reply client.closes client.sent];
    repeat split; congruence.
Qed.

Lemma closeUpload_facts (format : string) (s : client.Stream) :
  client.sent (snd (client.closeUpload format s)) = client.sent s
  /\ client.closes (snd (client.closeUpload format s)) = S (client.closes s)
  /\ (forall resp,
         fst (fst (client.closeUpload format s)) = Some resp ->
         snd (fst (client.closeUpload format s)) = None
         /\ client.reply s = inl resp
         /\ proto.WriteRecordResponse.Error resp = "")
  /\ (fst (fst (client.closeUpload format s)) = None ->
      snd (fst (client.closeUpload format s)) <> None).
Proof.
  unfold client.closeUpload, client.CloseAndRecv.
  destruct (client.reply s) as [resp|e].
  - destruct (String.eqb_spec (proto.WriteRecordResponse.Error resp) "") as [E|E];
      cbn [negb fst snd client.sent client.closes];
      repeat split; try discriminate; congruence.
  - cbn [fst snd client.sent client.closes]. repeat split; discriminate.
Qed.

(** The loop of the file case: what it sends is a piece of what was
    read, under the name and the type "file"; it closes the stream at
    most once, and returns a response only after everything that was read
    has been sent. *)
Lemma sendLoop_facts (pending : list (bytes + error)) (name : string)
      (s : client.Stream) :
  let R := client.sendLoop pending name s in
  client.reply (snd R) = client.reply s
  /\ (client.closes (snd R) <= S (client.closes s))%nat
  /\ (exists new,
         client.sent (snd R) = client.sent s ++ new
         /\ Forall (fun m => proto.WriteRecordRequest.Name m = name
                             /\ proto.WriteRecordRequest.Type_ m = "file") new)
  /\ (forall resp,
         fst (fst R) = Some resp ->
         snd (fst R) = None
         /\ client.reply s = inl resp
         /\ proto.WriteRecordResponse.Error resp = ""
         /\ client.closes (snd R) = S (client.closes s)
         /\ exists pieces tail,
              pending = map inl pieces ++ tail
              /\ client.finished tail
              /\ client.sent (snd R)
                 = client.sent s
                   ++ map (proto.WriteRecordRequest.mk name "file") pieces)
  /\ (fst (fst R) = None -> snd (fst R) <> None).
Proof.
  assert (Close : forall s0 : client.Stream,
             forall tail, client.finished tail ->
             let R := client.closeUpload "ошибка CloseAndRecv" s0 in
             client.reply (snd R) = client.reply s0
             /\ (client.closes (snd R) <= S (client.closes s0))%nat
             /\ (exists new,
                    client.sent (snd R) = client.sent s0 ++ new
                    /\ Forall (fun m => proto.WriteRecordRequest.Name m = name
                                        /\ proto.WriteRecordRequest.Type_ m = "file")
                              new)
             /\ (forall resp,
                    fst (fst R) = Some resp ->
                    snd (fst R) = None
                    /\ client.reply s0 = inl resp
                    /\ proto.WriteRecordResponse.Error resp = ""
                    /\ client.closes (snd R) = S (client.closes s0)
                    /\ exists pieces tail',
                         tail = map inl pieces ++ tail'
                         /\ client.finished tail'
                         /\ client.sent (snd R)
                            = client.sent s0
                              ++ map (proto.WriteRecordRequest.mk name "file") pieces)
             /\ (fst (fst R) = None -> snd (fst R) <> None)).
  { intros s0 tail Ft R. subst R.
    destruct (closeUpload_facts "ошибка CloseAndRecv" s0) as (St & Cl & Ok_ & No).
    split; [|split; [|split; [|split]]].
    - unfold client.closeUpload, client.CloseAndRecv.
      destruct (client.reply s0) as [resp|e]; [|reflexivity].
      destruct (negb _); reflexivity.
    - rewrite Cl. apply Nat.le_refl.
    - exists []. rewrite St, app_nil_r. split; [reflexivity|constructor].
    - intros resp E. destruct (Ok_ resp E) as (A & B & C).
      repeat split; try assumption.
      exists [], tail. split; [reflexivity|]. split; [exact Ft|].
      rewrite St, app_nil_r. reflexivity.
    - exact No. }
  revert s. induction pending as [|[piece|e] rest IH]; intros s R; subst R.
  - cbn [client.sendLoop]. apply (Close s []). left. reflexivity.
  - cbn [client.sendLoop].
    destruct (Send_facts (proto.WriteRecordRequest.mk name "file" piece) s)
      as (Rp & Cl & Sok & Serr).
    destruct (client.Send _ s) as [[e|] s1]; cbn [fst snd] in Rp, Cl, Sok, Serr.
    + cbn [fst snd]. split; [exact Rp|]. split; [rewrite Cl; auto|].
      split; [|split; [discriminate|discriminate]].
      exists []. rewrite app_nil_r. split; [apply Serr; discriminate|constructor].
    + specialize (Sok eq_refl).
      destruct (IH s1) as (Rp1 & Cl1 & (new & Sn & Fn) & Ok1 & No1).
      split; [congruence|]. split; [rewrite <- Cl; exact Cl1|].
      split; [|split; [|exact No1]].
      * exists (proto.WriteRecordRequest.mk name "file" piece :: new).
        split.
        -- rewrite Sn, Sok, <- app_assoc. reflexivity.
        -- constructor; [split; reflexivity|exact Fn].
      * intros resp E.
        destruct (Ok1 resp E) as (A & B & C & D & pieces & tail & P & Ft & Q).
        split; [exact A|]. split; [congruence|]. split; [exact C|].
        split; [congruence|]. exists (piece :: pieces), tail. split; [|split].
        -- cbn [map app]. rewrite P. reflexivity.
        -- exact Ft.
        -- rewrite Q, Sok, <- app_assoc. reflexivity.
  - cbn [client.sendLoop]. destruct (errors.Is e io.EOF) eqn:Eof.
    + apply (Close s (inr e :: rest)). right. exists e, rest.
      split; [reflexivity|exact Eof].
    + cbn [fst snd]. split; [reflexivity|]. split; [auto|].
      split; [|split; [discriminate|discriminate]].
      exists []. rewrite app_nil_r. split; [reflexivity|constructor].
Qed.

(** When every [Send] succeeds, the loop sends all the pieces and then
    closes the stream. *)
Lemma sendLoop_sends_all (pieces : list bytes) (tail : list (bytes + error))
      (name : string) (s : client.Stream) :
  client.finished tail ->
  Forall (fun r => r = None) (client.sending s) ->
  client.sent (snd (client.sendLoop (map inl pieces ++ tail) name s))
  = client.sent s ++ map (proto.WriteRecordRequest.mk name "file") pieces.
Proof.
  intros Ft. revert s. induction pieces as [|piece rest IH]; intros s F.
  - cbn [map app].
    destruct (closeUpload_facts "ошибка CloseAndRecv" s) as (St & _).
    destruct Ft as [->|(e & more & -> & Eof)]; cbn [client.sendLoop];
      rewrite ?Eof, St, app_nil_r; reflexivity.
  - cbn [map app client.sendLoop]. unfold client.Send.
    destruct (client.sending s) as [|r rs] eqn:E.
    + rewrite IH by (cbn [client.sending]; constructor).
      cbn [client.sent]. rewrite <- app_assoc. reflexivity.
    + inversion F as [|? ? Hr Hrs]; subst.
      rewrite IH by (cbn [client.sending]; exact Hrs).
      cbn [client.sent]. rewrite <- app_assoc. reflexivity.
Qed.

(** X14. What the agent's upload returns and sends.  A response is
    returned only when the stream was closed once and the server's answer
    carried no error text, and then everything was sent: the text in one
    message, or every piece read from the file, in order, after the file
    was closed without error.  The call returns neither a response nor an
    error exactly when the stream was opened and the kind is neither
    "text" nor "file"; nothing is sent then and the stream is never
    closed.  Whatever happens, the stream is closed at most once and every
    message sent carries the given name and kind. *)
Theorem WriteFile_outcomes
        (typ name data : string) (files : string -> option client.File)
        (open : error) (dial : option error) (s : client.Stream)
        (r : option proto.WriteRecordResponse.t) (e : option error)
        (s' : client.Stream) :
  client.WriteFile typ name data files open dial s = ((r, e), s') ->
  (forall resp,
      r = Some resp ->
      e = None
      /\ client.reply s = inl resp
      /\ proto.WriteRecordResponse.Error resp = ""
      /\ client.closes s' = S (client.closes s)
      /\ ((typ = "text"
           /\ client.sent s'
              = client.sent s
                ++ [proto.WriteRecordRequest.mk name "text"
                      (list_byte_of_string data)])
          \/ (typ = "file"
              /\ exists file pieces tail,
                   files data = Some file
                   /\ client.reading file = map inl pieces ++ tail
                   /\ client.finished tail
                   /\ client.closing file = None
                   /\ client.sent s'
                      = client.sent s
                        ++ map (proto.WriteRecordRequest.mk name "file") pieces)))
  /\ ((r = None /\ e = None)
      <-> (dial = None /\ typ <> "text" /\ typ <> "file"))
  /\ (r = None -> e = None ->
      client.sent s' = client.sent s /\ client.closes s' = client.closes s)
  /\ (client.closes s' <= S (client.closes s))%nat
  /\ (exists new,
         client.sent s' = client.sent s ++ new
         /\ Forall (fun m => proto.WriteRecordRequest.Name m = name
                             /\ proto.WriteRecordRequest.Type_ m = typ) new).
Proof.
  unfold client.WriteFile. intros W.
  assert (Idle : forall new : list proto.WriteRecordRequest.t,
             new = [] ->
             exists new0,
               client.sent s = client.sent s ++ new0
               /\ Forall (fun m => proto.WriteRecordRequest.Name m = name
                                   /\ proto.WriteRecordRequest.Type_ m = typ)
                         new0).
  { intros new _. exists []. rewrite app_nil_r. split; [reflexivity|constructor]. }
  destruct dial as [d|].
  { injection W as <- <- <-. split; [discriminate|].
    split; [split; [intros (_ & D)|intros (D & _)]; discriminate|].
    split; [intros _ D; discriminate|]. split; [auto|]. apply (Idle []), eq_refl. }
  destruct (String.eqb_spec typ "text") as [T|T].
  { subst typ.
    destruct (Send_facts (proto.WriteRecordRequest.mk name "text"
                            (list_byte_of_string data)) s) as (Rp & Cl & Sok & Serr).
    destruct (client.Send _ s) as [[se|] s1]; cbn [fst snd] in Rp, Cl, Sok, Serr.
    - injection W as <- <- <-. split; [discriminate|].
      split; [split; [intros (_ & D); discriminate|intros (_ & D & _); contradiction]|].
      split; [intros _ D; discriminate|]. split; [rewrite Cl; auto|].
      exists []. rewrite app_nil_r. split; [apply Serr; discriminate|constructor].
    - specialize (Sok eq_refl).
      destruct (closeUpload_facts "ошибка закрытия потока" s1)
        as (St & Cl1 & Ok_ & No).
      rewrite W in St, Cl1, Ok_, No. cbn [fst snd] in St, Cl1, Ok_, No.
      split; [|split; [|split; [|split]]].
      + intros resp ->. destruct (Ok_ resp eq_refl) as (A & B & C).
        split; [exact A|]. split; [congruence|]. split; [exact C|].
        split; [congruence|]. left. split; [reflexivity|]. congruence.
      + split; [intros (-> & ->); destruct (No eq_refl eq_refl)
               |intros (_ & D & _); contradiction].
      + intros -> ->. destruct (No eq_refl eq_refl).
      + rewrite Cl1, Cl. apply Nat.le_refl.
      + exists [proto.WriteRecordRequest.mk name "text" (list_byte_of_string data)].
        split; [congruence|]. repeat constructor. }
  destruct (String.eqb_spec typ "file") as [F|F].
  2:{ injection W as <- <- <-. split; [discriminate|].
      split; [split; [intros _; repeat split; assumption|intros _; split; reflexivity]|].
      split; [intros _ _; split; reflexivity|]. split; [auto|].
      apply (Idle []), eq_refl. }
  subst typ.
  assert (Fail : forall x,
             ((None, Some x), s) = ((r, e), s') ->
             (forall resp,
                 r = Some resp ->
                 e = None
                 /\ client.reply s = inl resp
                 /\ proto.WriteRecordResponse.Error resp = ""
                 /\ client.closes s' = S (client.closes s)
                 /\ (("file"%string = "text"%string
                      /\ client.sent s'
                         = client.sent s
                           ++ [proto.WriteRecordRequest.mk name "text"
                                 (list_byte_of_string data)])
                     \/ ("file"%string = "file"%string
                         /\ exists file pieces tail,
                              files data = Some file
                              /\ client.reading file = map inl pieces ++ tail
                              /\ client.finished tail
                              /\ client.closing file = None
                              /\ client.sent s'
                                 = client.sent s
                                   ++ map (proto.WriteRecordRequest.mk name "file")
                                          pieces)))
             /\ ((r = None /\ e = None)
                 <-> (@None error = None /\ "file"%string <> "text"%string
                      /\ "file"%string <> "file"%string))
             /\ (r = None -> e = None ->
                 client.sent s' = client.sent s
                 /\ client.closes s' = client.closes s)
             /\ (client.closes s' <= S (client.closes s))%nat
             /\ (exists new,
                    client.sent s' = client.sent s ++ new
                    /\ Forall (fun m => proto.WriteRecordRequest.Name m = name
                                        /\ proto.WriteRecordRequest.Type_ m = "file")
                              new)).
  { intros x X. injection X as <- <- <-. split; [discriminate|].
    split; [split; [intros (_ & D); discriminate|intros (_ & _ & D); contradiction]|].
    split; [intros _ D; discriminate|]. split; [auto|].
    exists []. rewrite app_nil_r. split; [reflexivity|constructor]. }
  destruct (files data) as [file|] eqn:Fd; [|eapply Fail, W].
  destruct (client.stat file) as [size|se]; [|eapply Fail, W].
  destruct (client.maxMsgSize <? size)%Z; [eapply Fail, W|].
  destruct (sendLoop_facts (client.reading file) name s)
    as (Rp & Cl & (new & Sn & Fn) & Ok_ & No).
  destruct (client.sendLoop (client.reading file) name s) as [[[resp|] le] s1];
    cbn [fst snd] in Rp, Cl, Sn, Ok_, No.
  - destruct (Ok_ resp eq_refl) as (-> & B & C & D & pieces & tail & P & Ft & Q).
    destruct (client.closing file) as [ce|] eqn:Fc.
    + injection W as <- <- <-. split; [discriminate|].
      split; [split; [intros (_ & X); discriminate
                     |intros (_ & _ & X); contradiction]|].
      split; [intros _ X; discriminate|]. split; [exact Cl|].
      exists new. split; [exact Sn|exact Fn].
    + injection W as <- <- <-. split; [|split; [|split; [|split]]].
      * intros resp' [= <-]. repeat split; try assumption.
        right. split; [reflexivity|]. exists file, pieces, tail.
        repeat split; assumption.
      * split; [intros (X & _); discriminate
               |intros (_ & _ & X); contradiction].
      * intros X; discriminate.
      * exact Cl.
      * exists new. split; [exact Sn|exact Fn].
  - injection W as <- <- <-. split; [discriminate|].
    split; [split; [intros (_ & ->); destruct (No eq_refl eq_refl)
                   |intros (_ & _ & X); contradiction]|].
    split; [intros _ ->; destruct (No eq_refl eq_refl)|].
    split; [exact Cl|]. exists new. split; [exact Sn|exact Fn].
Qed.

Lemma WriteFile_outcomes_witness :
  client.WriteFile "text" "note" "hi" (fun _ => None)
    (errorString "open: no such file or directory") None
    (client.mkStream [] [] (inl proto.WriteRecordResponse.zero) 0)
  = ((Some proto.WriteRecordResponse.zero, None),
     client.mkStream [] [proto.WriteRecordRequest.mk "note" "text" [x68; x69]]
                     (inl proto.WriteRecordResponse.zero) 1)
  /\ (Some proto.WriteRecordResponse.zero = None /\ @None error = None
      <-> @None error = None /\ "text"%string <> "text"%string
          /\ "text"%string <> "file"%string).
Proof.
  split; [reflexivity|].
  apply (proj1 (proj2
           (WriteFile_outcomes "text" "note" "hi" (fun _ => None)
              (errorString "open: no such file or directory") None
              (client.mkStream [] [] (inl proto.WriteRecordResponse.zero) 0)
              (Some proto.WriteRecordResponse.zero) None
              (client.mkStream []
                 [proto.WriteRecordRequest.mk "note" "text" [x68; x69]]
                 (inl proto.WriteRecordResponse.zero) 1)
              eq_refl))).
Defined.

Lemma firstNonEmpty_same {A} (v : string) (l : list A) :
  firstNonEmpty (map (fun _ => v) l) = match l with [] => "" | _ :: _ => v end.
Proof.
  induction l as [|a l IH]; [reflexivity|].
  cbn [map firstNonEmpty]. destruct (String.eqb_spec v "") as [->|_];
    [|reflexivity].
  rewrite IH. destruct l; reflexivity.
Qed.

Lemma WriteFile_file_sent (name data : string)
      (files : string -> option client.File) (open : error)
      (file : client.File) (size : Z) (pieces : list bytes)
      (tail : list (bytes + error)) (cs : client.Stream) :
  files data = Some file ->
  client.stat file = inl size ->
  (size <= client.maxMsgSize)%Z ->
  client.reading file = map inl pieces ++ tail ->
  client.finished tail ->
  Forall (fun r => r = None) (client.sending cs) ->
  client.sent (snd (client.WriteFile "file" name data files open None cs))
  = client.sent cs ++ map (proto.WriteRecordRequest.mk name "file") pieces.
Proof.
  intros Fd St Sz Rd Ft Fs. unfold client.WriteFile.
  destruct (String.eqb_spec "file" "text") as [D|_]; [discriminate D|].
  destruct (String.eqb_spec "file" "file") as [_|D]; [|contradiction].
  rewrite Fd, St. apply Z.ltb_ge in Sz. rewrite Sz, Rd.
  rewrite <- (sendLoop_sends_all pieces tail name cs Ft Fs).
  destruct (client.sendLoop (map inl pieces ++ tail) name cs)
    as [[[resp|] le] s1];
    [|reflexivity].
  destruct (client.closing file); reflexivity.
Qed.

(** X15. A file uploaded by the agent is downloaded with its bytes.  When
    the agent reads a file of admissible size in pieces and every [Send]
    succeeds, the handler, run on the messages the agent sent into a store
    that is up and numbers its rows, stores one record, and reading the
    new id as the same caller returns the bytes of the pieces in order.
    The record carries the given name and the kind "file" when at least
    one piece was read; for an empty file nothing is sent before the
    stream is closed and the record is stored without name and kind.
    What the reads would deliver after an end-of-file is never sent. *)
Theorem agent_file_upload_is_downloaded
        {aead : AesGcm} (sound : AesGcm_sound)
        (s : handler.StorageHandler) (caller : middleware.JWTclaims)
        (name data : string) (files : string -> option client.File)
        (open : error) (file : client.File) (size : Z) (pieces : list bytes)
        (tail : list (bytes + error)) (cs : client.Stream) (w : World gorm.DB) :
  files data = Some file ->
  client.stat file = inl size ->
  (size <= client.maxMsgSize)%Z ->
  client.reading file = map inl pieces ++ tail ->
  client.finished tail ->
  client.sent cs = [] ->
  Forall (fun r => r = None) (client.sending cs) ->
  (16 <= String.length (handler.MasterKey s))%nat ->
  (sizeRandomKey + 2 * cipher.NonceSize <= length (w_rand w))%nat ->
  gorm.fault (w_db w) = None ->
  numbered (w_db w) ->
  let Svc := services.NewStorageService in
  let id := (gorm.storage_seq (w_db w) + 1)%Z in
  let cs' := snd (client.WriteFile "file" name data files open None cs) in
  exists st' w',
    client.sent cs' = map (proto.WriteRecordRequest.mk name "file") pieces
    /\ handler.WriteRecord s
         (stream.mk (Some caller) (map inl (client.sent cs')) [] []) w
       = Ok (None, (st', w'))
    /\ length (gorm.storages (w_db w')) = S (length (gorm.storages (w_db w)))
    /\ answer (handler.ReadRecord s (Some caller)
                 (proto.ReadRecordRequest.mk id) w')
       = Ok (Some (proto.ReadRecordResponse.mk
                     match pieces with [] => "" | _ :: _ => name end
                     match pieces with [] => "" | _ :: _ => "file" end
                     (concat pieces) ""),
             None).
Proof.
  intros Fd St Sz Rd Ft S0 Fs Hm Hr F N Svc id cs'.
  assert (Sent : client.sent cs'
                 = map (proto.WriteRecordRequest.mk name "file") pieces).
  { unfold cs'. rewrite (WriteFile_file_sent name data files open file size
                           pieces tail cs Fd St Sz Rd Ft Fs), S0. reflexivity. }
  set (chunks := map (proto.WriteRecordRequest.mk name "file") pieces) in *.
  assert (Dt : concat (map proto.WriteRecordRequest.Data chunks) = concat pieces).
  { unfold chunks. rewrite map_map. cbn [proto.WriteRecordRequest.Data].
    rewrite map_id. reflexivity. }
  assert (Nm : firstNonEmpty (map proto.WriteRecordRequest.Name chunks)
               = match pieces with [] => "" | _ :: _ => name end).
  { unfold chunks. rewrite map_map. cbn [proto.WriteRecordRequest.Name].
    apply firstNonEmpty_same. }
  assert (Ty : firstNonEmpty (map proto.WriteRecordRequest.Type_ chunks)
               = match pieces with [] => "" | _ :: _ => "file" end).
  { unfold chunks. rewrite map_map. cbn [proto.WriteRecordRequest.Type_].
    apply firstNonEmpty_same. }
  destruct (encryptionData_total (handler.MasterKey s)
              (concat (map proto.WriteRecordRequest.Data chunks)) (w_rand w) Hm Hr)
    as (sealed & key & rnd & E).
  pose proof (decryptionData_encryptionData sound _ _ _ _ _ _ E) as D.
  set (unit := domain.Storage.mk 0
                 (firstNonEmpty (map proto.WriteRecordRequest.Name chunks))
                 (firstNonEmpty (map proto.WriteRecordRequest.Type_ chunks))
                 sealed key (middleware.ID caller)).
  assert (W : services.WriteRecord (w_db w) unit
              = (None,
                 gorm.mkDB (gorm.storages (w_db w) ++ [row_of (w_db w) unit])
                           (gorm.users (w_db w)) (gorm.storage_seq (w_db w) + 1)
                           (gorm.user_seq (w_db w)) None
                           (gorm.delivered (w_db w)))).
  { apply repository_WriteRecord_healthy; [exact F|exact N|reflexivity]. }
  do 2 eexists. split; [exact Sent|]. rewrite Sent. split; [|split].
  - rewrite <- (app_nil_r (map inl chunks)).
    apply (WriteRecord_upload s caller chunks [] [] [] w sealed key rnd).
    + left. reflexivity.
    + reflexivity.
    + exact E.
    + fold unit. rewrite W. reflexivity.
  - fold unit. rewrite W. cbn [snd w_db gorm.storages].
    rewrite length_app. cbn [length]. apply Nat.add_1_r.
  - fold unit. rewrite W. cbn [snd]. unfold handler.ReadRecord.
    cbn [middleware.GetTokenFromContext negb emit w_db
         proto.ReadRecordRequest.Id].
    cbn [services.ReadRecord Svc services.NewStorageService].
    change (middleware.ID caller) with (domain.Storage.Owner unit).
    unfold id. rewrite (repository_ReadRecord_written _ unit N).
    cbn [row_of unit domain.Storage.Key domain.Storage.Value
         domain.Storage.Name domain.Storage.Type_].
    rewrite D, Dt, Nm, Ty. reflexivity.
Qed.

Lemma agent_file_upload_is_downloaded_witness :
  exists st' w',
    @handler.WriteRecord xorgcm.instance gorm.DB services.NewStorageService
      sample_handler
      (stream.mk (Some sample_caller)
         (map inl
            (client.sent
               (snd (client.WriteFile "file" "card.zip" "/home/alice/card.zip"
                       sample_files
                       (errorString "open: no such file or directory")
                       None sample_upload))))
         [] [])
      (world_of sample_store)
    = Ok (None, (st', w'))
    /\ answer (@handler.ReadRecord xorgcm.instance gorm.DB
                 services.NewStorageService sample_handler (Some sample_caller)
                 (proto.ReadRecordRequest.mk 3) w')
       = Ok (Some (proto.ReadRecordResponse.mk "card.zip" "file"
                     [x61; x62; x63] ""), None).
Proof.
  destruct (@agent_file_upload_is_downloaded xorgcm.instance xorgcm_sound
              sample_handler sample_caller "card.zip" "/home/alice/card.zip"
              sample_files (errorString "open: no such file or directory")
              (client.mkFile (inl 3%Z) [inl [x61; x62]; inl [x63]] None)
              3%Z [[x61; x62]; [x63]] [] sample_upload (world_of sample_store))
    as (st' & w' & _ & W & _ & R).
  - reflexivity.
  - reflexivity.
  - vm_compute. discriminate.
  - reflexivity.
  - left. reflexivity.
  - reflexivity.
  - constructor.
  - simpl. lia.
  - simpl. lia.
  - reflexivity.
  - repeat constructor; cbn; lia.
  - exists st', w'. split; [exact W|exact R].
Defined.
